(** * Contact extraction and result scoring of the hackveda crawler

    A shallow embedding of [src/app/crawler/parser.py] (class
    [ResultParser]) and [src/app/enrichment/contact_extractor.py] (class
    [ContactExtractor]), together with the Python built-ins and the part of
    the [re] module these two files rely on.

    Conventions of the embedding:
    - a Python [str] is a Rocq [string]; the character predicates are those
      of 7-bit text ([\w] is [[A-Za-z0-9_]], [\s] is what [str.isspace]
      accepts below 128);
    - a Python [float] is an exact rational of [Q]; every constant of the
      source is a short decimal and is written as in the source;
    - a Python [set] of strings is a [gset string], a [dict] with string
      keys a [gmap string _]; [list(s)] is [elements s];
    - a call that may raise returns an [except] value: [try ... except
      Exception] matches on it, and where nothing catches the exception
      it is that of the caller. *)

From Stdlib Require Import ZArith QArith Qminmax Lia Lqa Bool Ascii String List.
From Stdlib Require Import Sorting.Permutation Sorting.Sorted.
From stdpp Require Import base option list gmap strings fin_maps fin_sets.

Local Open Scope string_scope.
Local Open Scope list_scope.

(* ===================================================================== *)
(** ** Python built-ins                                                   *)
(* ===================================================================== *)

Module Py.

(** Code point of a character. *)
Definition ord (c : ascii) : nat := nat_of_ascii c.

Definition between (lo hi : nat) (c : ascii) : bool :=
  (lo <=? ord c)%nat && (ord c <=? hi)%nat.

Definition is_upper (c : ascii) : bool := between 65 90 c.
Definition is_lower (c : ascii) : bool := between 97 122 c.
Definition is_digit (c : ascii) : bool := between 48 57 c.
Definition is_alpha (c : ascii) : bool := is_upper c || is_lower c.

(** [\w]: letters, digits and the underscore. *)
Definition is_word (c : ascii) : bool :=
  is_alpha c || is_digit c || (ord c =? 95)%nat.

(** [\s] and [str.isspace]: TAB, LF, VT, FF, CR, FS, GS, RS, US, space. *)
Definition is_space (c : ascii) : bool :=
  between 9 13 c || between 28 32 c.

Definition lower_char (c : ascii) : ascii :=
  if is_upper c then ascii_of_nat (ord c + 32) else c.

(** [s.lower()] *)
Fixpoint lower (s : string) : string :=
  match s with
  | EmptyString => EmptyString
  | String c s' => String (lower_char c) (lower s')
  end.

(** [s.lstrip()], [s.rstrip()], [s.strip()] *)
Fixpoint lstrip (s : string) : string :=
  match s with
  | EmptyString => EmptyString
  | String c s' => if is_space c then lstrip s' else s
  end.

Fixpoint rstrip (s : string) : string :=
  match s with
  | EmptyString => EmptyString
  | String c s' =>
      match rstrip s' with
      | EmptyString => if is_space c then EmptyString else String c EmptyString
      | t => String c t
      end
  end.

Definition strip (s : string) : string := rstrip (lstrip s).

(** [s.startswith(p)] *)
Fixpoint startswith (s p : string) {struct p} : bool :=
  match p, s with
  | EmptyString, _ => true
  | String _ _, EmptyString => false
  | String a p', String b s' => Ascii.eqb a b && startswith s' p'
  end.

(** [p in s] for strings. *)
Fixpoint contains (s p : string) : bool :=
  startswith s p ||
  match s with
  | EmptyString => false
  | String _ s' => contains s' p
  end.

(** [s[n:]] for [0 <= n]. *)
Fixpoint drop_chars (n : nat) (s : string) : string :=
  match n, s with
  | O, _ => s
  | S _, EmptyString => EmptyString
  | S n', String _ s' => drop_chars n' s'
  end.

(** [s[:n]] for [0 <= n]. *)
Fixpoint take_chars (n : nat) (s : string) : string :=
  match n, s with
  | O, _ => EmptyString
  | S _, EmptyString => EmptyString
  | S n', String c s' => String c (take_chars n' s')
  end.

(** [s.endswith(p)] *)
Definition endswith (s p : string) : bool :=
  (String.length p <=? String.length s)%nat &&
  String.eqb (drop_chars (String.length s - String.length p) s) p.

(** [s.split(sep)] for a one-character separator: never the empty list. *)
Fixpoint split (sep : ascii) (s : string) : list string :=
  match s with
  | EmptyString => [EmptyString]
  | String c s' =>
      if Ascii.eqb c sep then EmptyString :: split sep s'
      else match split sep s' with
           | [] => [String c EmptyString]
           | w :: ws => String c w :: ws
           end
  end.

(** [sep.join(l)] *)
Fixpoint join (sep : string) (l : list string) : string :=
  match l with
  | [] => EmptyString
  | [w] => w
  | w :: ws => w ++ sep ++ join sep ws
  end.

(** [l[-n:]] for [0 < n]. *)
Definition last_n {A} (n : nat) (l : list A) : list A :=
  skipn (List.length l - n) l.

(** [l[:n]] for an arbitrary integer [n]: a negative bound counts from the
    end. *)
Definition slice_to {A} (n : Z) (l : list A) : list A :=
  if (0 <=? n)%Z then firstn (Z.to_nat n) l
  else firstn (List.length l - Z.to_nat (- n)) l.

(** [min(a, b)] and [max(a, b)] on numbers: the first argument is kept
    unless the second is strictly smaller (resp. larger). *)
Definition min (a b : Q) : Q := if Qlt_le_dec b a then b else a.
Definition max (a b : Q) : Q := if Qlt_le_dec a b then b else a.

(** [len(x)] as a float operand. *)
Definition of_nat (n : nat) : Q := inject_Z (Z.of_nat n).

(** [any(p(x) for x in l)] *)
Definition any {A} (p : A -> bool) (l : list A) : bool := existsb p l.

(** [sorted(l, key=...)]: a stable sort. The result of a stable sort is
    determined by the list and the key order, so the insertion sort below
    returns the list that Python's merge sort returns. [le] is the order
    [key(a) <= key(b)]; an element is inserted after the elements that
    compare equal to it. *)
Section Sorted.
Context {A : Type} (le : A -> A -> bool).

Fixpoint insert_sorted (x : A) (l : list A) : list A :=
  match l with
  | [] => [x]
  | y :: l' => if le y x then y :: insert_sorted x l' else x :: l
  end.

Definition sorted (l : list A) : list A :=
  fold_left (fun acc x => insert_sorted x acc) l [].
End Sorted.

(** What a [try] block evaluates to: a value, or a raised exception with
    its message. *)
Inductive except (A : Type) : Type :=
| Return (a : A)
| Raise (msg : string).
Arguments Return {A} a.
Arguments Raise {A} msg.

Definition bind {A B} (m : except A) (f : A -> except B) : except B :=
  match m with
  | Return a => f a
  | Raise msg => Raise msg
  end.

(** A dynamically typed value, as stored in a [Dict[str, Any]]. *)
Inductive value : Type :=
| VNone
| VBool (b : bool)
| VInt (z : Z)
| VFloat (q : Q)
| VStr (s : string).

End Py.

(* ===================================================================== *)
(** ** The part of the [re] module the two files use                      *)
(* ===================================================================== *)

Module Re.

(** Abstract syntax of a pattern. Bounded repetition, [+] and [?] are
    derived forms below. Alternatives and repetitions are tried in the
    order of a backtracking matcher: the left alternative first, one more
    iteration before stopping. *)
Inductive regex : Type :=
| Eps                              (* the empty pattern *)
| Cls (p : ascii -> bool)          (* one character of a class *)
| Seq (r1 r2 : regex)
| Alt (r1 r2 : regex)              (* r1|r2 *)
| Star (r : regex)                 (* r*, greedy *)
| WordB                            (* \b *)
| Bos                              (* ^ *)
| Eos.                             (* $ *)

Definition chr (c : ascii) : regex := Cls (Ascii.eqb c).

(** A character matched under [re.IGNORECASE]. *)
Definition ichr (c : ascii) : regex :=
  Cls (fun x => Ascii.eqb (Py.lower_char x) (Py.lower_char c)).

Fixpoint lit (s : string) : regex :=
  match s with
  | EmptyString => Eps
  | String c EmptyString => chr c
  | String c s' => Seq (chr c) (lit s')
  end.

Fixpoint ilit (s : string) : regex :=
  match s with
  | EmptyString => Eps
  | String c EmptyString => ichr c
  | String c s' => Seq (ichr c) (ilit s')
  end.

(** [r?], [r+], [r{n}], [r{n,}], [r{n,m}] *)
Definition opt (r : regex) : regex := Alt r Eps.
Definition plus (r : regex) : regex := Seq r (Star r).

Fixpoint exactly (n : nat) (r : regex) : regex :=
  match n with
  | O => Eps
  | S O => r
  | S n' => Seq r (exactly n' r)
  end.

Definition at_least (n : nat) (r : regex) : regex :=
  match n with
  | O => Star r
  | S _ => Seq (exactly n r) (Star r)
  end.

Fixpoint up_to (n : nat) (r : regex) : regex :=
  match n with
  | O => Eps
  | S n' => Alt (Seq r (up_to n' r)) Eps
  end.

Definition from_to (n m : nat) (r : regex) : regex :=
  match n with
  | O => up_to m r
  | S _ => Seq (exactly n r) (up_to (m - n) r)
  end.

Fixpoint seqs (rs : list regex) : regex :=
  match rs with
  | [] => Eps
  | [r] => r
  | r :: rs' => Seq r (seqs rs')
  end.

Fixpoint alts (rs : list regex) : regex :=
  match rs with
  | [] => Cls (fun _ => false)
  | [r] => r
  | r :: rs' => Alt r (alts rs')
  end.

(** Is the position between [prev] (the character before it, if any) and
    [s] (the text after it) a word boundary? *)
Definition at_word_boundary (prev : option ascii) (s : string) : bool :=
  xorb (match prev with Some c => Py.is_word c | None => false end)
       (match s with String c _ => Py.is_word c | EmptyString => false end).

(** [$] without [re.MULTILINE]: the end of the text, or just before a
    newline that ends the text. *)
Definition at_end (s : string) : bool :=
  match s with
  | EmptyString => true
  | String c EmptyString => Ascii.eqb c "010"%char
  | _ => false
  end.

(** The backtracking matcher, in continuation-passing style: [k] receives
    the character before the position reached and the text that remains;
    the first success in priority order is the match. A repetition stops
    when an iteration consumes nothing, and its loop is bounded by the
    length of the text. *)
Fixpoint run {A : Type} (r : regex) (prev : option ascii) (s : string)
    (k : option ascii -> string -> option A) {struct r} : option A :=
  match r with
  | Eps => k prev s
  | Cls p =>
      match s with
      | String c s' => if p c then k (Some c) s' else None
      | EmptyString => None
      end
  | Seq r1 r2 => run r1 prev s (fun prev' s' => run r2 prev' s' k)
  | Alt r1 r2 =>
      match run r1 prev s k with
      | Some x => Some x
      | None => run r2 prev s k
      end
  | Star r1 =>
      (fix loop (fuel : nat) (prev : option ascii) (s : string) : option A :=
         match fuel with
         | O => k prev s
         | S fuel' =>
             match run r1 prev s (fun prev' s' =>
                     if (String.length s' <? String.length s)%nat
                     then loop fuel' prev' s' else None) with
             | Some x => Some x
             | None => k prev s
             end
         end) (String.length s) prev s
  | WordB => if at_word_boundary prev s then k prev s else None
  | Bos => match prev with None => k prev s | Some _ => None end
  | Eos => if at_end s then k prev s else None
  end.

(** The text left after the match of [r] that starts at this position. *)
Definition match_here (r : regex) (prev : option ascii) (s : string)
  : option string :=
  run r prev s (fun _ rest => Some rest).

(** [re.match(r, s)] as a truth value. *)
Definition matches (r : regex) (s : string) : bool :=
  bool_decide (is_Some (match_here r None s)).

(** The last character of [s], or [prev] for the empty string. *)
Fixpoint last_char (prev : option ascii) (s : string) : option ascii :=
  match s with
  | EmptyString => prev
  | String c s' => last_char (Some c) s'
  end.

(** [re.search(r, s)] as a truth value: a match at some position. *)
Fixpoint search_from (r : regex) (prev : option ascii) (s : string) : bool :=
  bool_decide (is_Some (match_here r prev s)) ||
  match s with
  | EmptyString => false
  | String c s' => search_from r (Some c) s'
  end.

Definition search (r : regex) (s : string) : bool := search_from r None s.

(** [re.findall(r, s)] for a pattern without capturing groups: the
    non-overlapping matches from left to right. After an empty match the
    scan moves on by one character. *)
Fixpoint findall_from (fuel : nat) (r : regex) (prev : option ascii)
    (s : string) : list string :=
  match fuel with
  | O => []
  | S fuel' =>
      match match_here r prev s with
      | Some rest =>
          let n := (String.length s - String.length rest)%nat in
          let m := Py.take_chars n s in
          match n, s with
          | O, EmptyString => [m]
          | O, String c s' => m :: findall_from fuel' r (Some c) s'
          | S _, _ => m :: findall_from fuel' r (last_char prev m) rest
          end
      | None =>
          match s with
          | EmptyString => []
          | String c s' => findall_from fuel' r (Some c) s'
          end
      end
  end.

Definition findall (r : regex) (s : string) : list string :=
  findall_from (S (String.length s)) r None s.

(** [re.sub(r, repl, s)] for a replacement text without group
    references. *)
Fixpoint sub_from (fuel : nat) (r : regex) (repl : string)
    (prev : option ascii) (s : string) : string :=
  match fuel with
  | O => s
  | S fuel' =>
      match match_here r prev s with
      | Some rest =>
          let n := (String.length s - String.length rest)%nat in
          match n, s with
          | O, EmptyString => repl
          | O, String c s' =>
              repl ++ String c (sub_from fuel' r repl (Some c) s')
          | S _, _ =>
              repl ++ sub_from fuel' r repl
                        (last_char prev (Py.take_chars n s)) rest
          end
      | None =>
          match s with
          | EmptyString => EmptyString
          | String c s' => String c (sub_from fuel' r repl (Some c) s')
          end
      end
  end.

Definition sub (r : regex) (repl : string) (s : string) : string :=
  sub_from (S (String.length s)) r repl None s.

(** Character classes shared by the patterns. *)
Definition one_of (cs : string) (c : ascii) : bool :=
  existsb (Ascii.eqb c) (list_ascii_of_string cs).

Definition digit : regex := Cls Py.is_digit.         (* [0-9], \d *)
Definition space : regex := Cls Py.is_space.         (* \s *)
Definition word : regex := Cls Py.is_word.           (* \w *)

End Re.

(* ===================================================================== *)
(** ** [crawler/google_serp.py]: the raw search result                    *)
(* ===================================================================== *)

Module SearchResult.
Record t : Type := Build {
  title : string;
  url : string;
  snippet : string;
  rank : Z;
  domain : string;
  crawl_timestamp : Z;
  response_time : Q;
  result_metadata : gmap string Py.value
}.
End SearchResult.

(* ===================================================================== *)
(** ** [crawler/parser.py]                                                *)
(* ===================================================================== *)

Module ParsedResult.
Record t : Type := Build {
  title : string;
  url : string;
  snippet : string;
  rank : Z;
  domain : string;
  normalized_title : string;
  normalized_snippet : string;
  domain_info : gmap string Py.value;
  keywords : list string;
  language : string;
  crawl_timestamp : Z;
  response_time : Q;
  source_keyword : Py.value;
  relevance_score : Q;
  quality_score : Q;
  metadata : gmap string Py.value
}.

(** The fields of the dataclass, in declaration order: the parameters of
    its generated [__init__]. *)
Definition fields : list string :=
  [ "title"; "url"; "snippet"; "rank"; "domain";
    "normalized_title"; "normalized_snippet"; "domain_info"; "keywords";
    "language"; "crawl_timestamp"; "response_time"; "source_keyword";
    "relevance_score"; "quality_score"; "metadata" ].
End ParsedResult.

Module ResultParser.

Definition mem (x : string) (l : list string) : bool :=
  existsb (String.eqb x) l.

(** Binding of the keyword arguments of a call to parameters without
    defaults: a keyword that names no parameter, or a parameter left
    without an argument, raises [TypeError]. *)
Definition bind_keywords (params keywords : list string) : Py.except unit :=
  match find (fun k => negb (mem k params)) keywords with
  | Some k => Py.Raise ("TypeError: unexpected keyword argument " ++ k)
  | None =>
      match find (fun p => negb (mem p keywords)) params with
      | Some p => Py.Raise ("TypeError: missing required argument " ++ p)
      | None => Py.Return tt
      end
  end.

Definition stop_words : list string :=
  [ "the"; "a"; "an"; "and"; "or"; "but"; "in"; "on"; "at"; "to"; "for";
    "of"; "with"; "by"; "from"; "up"; "about"; "into"; "through"; "during";
    "before"; "after"; "above"; "below"; "between"; "among"; "is"; "are";
    "was"; "were"; "be"; "been"; "being"; "have"; "has"; "had"; "do"; "does";
    "did"; "will"; "would"; "could"; "should"; "may"; "might"; "must"; "can" ].

(** Tier name and extensions, in the insertion order of the dict. *)
Definition quality_indicators : list (string * list string) :=
  [ ("high", [".edu"; ".gov"; ".org"]);
    ("medium", [".com"; ".net"]);
    ("low", [".tk"; ".ml"; ".ga"; ".cf"]) ].

Definition is_empty (s : string) : bool :=
  match s with EmptyString => true | _ => false end.

Definition dquote : ascii := ascii_of_nat 34.

(** [_normalize_text] *)
Definition _normalize_text (text : string) : string :=
  if is_empty text then EmptyString
  else
    (* r'\s+' -> ' ' on text.strip() *)
    let text := Re.sub (Re.plus Re.space) " " (Py.strip text) in
    (* r'[^\w\s\-.,!?()DQ]' -> '', DQ the double quote character *)
    let text :=
      Re.sub (Re.Cls (fun c => negb (Py.is_word c || Py.is_space c
                                     || Re.one_of "-.,!?()" c
                                     || Ascii.eqb c dquote)))
             EmptyString text in
    (* r'[.]{2,}' -> '...', r'[!]{2,}' -> '!', r'[?]{2,}' -> '?' *)
    let text := Re.sub (Re.at_least 2 (Re.chr ".")) "..." text in
    let text := Re.sub (Re.at_least 2 (Re.chr "!")) "!" text in
    let text := Re.sub (Re.at_least 2 (Re.chr "?")) "?" text in
    Py.strip text.

(** [word_freq[word] = word_freq.get(word, 0) + 1] on a dict kept in
    insertion order. *)
Fixpoint count_word (w : string) (freq : list (string * Z))
  : list (string * Z) :=
  match freq with
  | [] => [(w, 1%Z)]
  | (w', n) :: freq' =>
      if String.eqb w w' then (w', (n + 1)%Z) :: freq'
      else (w', n) :: count_word w freq'
  end.

(** [_extract_keywords] *)
Definition _extract_keywords (text : string) (max_keywords : Z)
  : list string :=
  if is_empty text then []
  else
    (* r'\b\w+\b' *)
    let words :=
      Re.findall (Re.seqs [Re.WordB; Re.plus Re.word; Re.WordB])
                 (Py.lower text) in
    let keywords :=
      List.filter (fun word => negb (mem word stop_words)
                          && (2 <? String.length word)%nat) words in
    let word_freq := fold_left (fun freq w => count_word w freq) keywords [] in
    let sorted_keywords :=
      Py.sorted (fun a b => (snd b <=? snd a)%Z) word_freq in
    map fst (Py.slice_to max_keywords sorted_keywords).

(** [_analyze_domain]; the argument is a [str] or [None]. *)
Definition _analyze_domain (domain : option string) : gmap string Py.value :=
  match domain with
  | None => ∅
  | Some domain =>
      if is_empty domain then ∅
      else
        let domain_lower := Py.lower domain in
        let quality :=
          match find (fun '(_, extensions) =>
                        Py.any (Py.endswith domain_lower) extensions)
                     quality_indicators with
          | Some (quality_level, _) => quality_level
          | None => "medium"
          end in
        let labels := Py.split "." domain in
        let tld :=
          if Py.contains domain "." then List.last labels EmptyString
          else EmptyString in
        let is_subdomain := (2 <? List.length labels)%nat in
        let main_domain :=
          if Py.contains domain "." then Py.join "." (Py.last_n 2 labels)
          else domain in
        <[ "quality" := Py.VStr quality ]>
        (<[ "tld" := Py.VStr tld ]>
        (<[ "is_subdomain" := Py.VBool is_subdomain ]>
        (<[ "main_domain" := Py.VStr main_domain ]>
        (<[ "length" := Py.VInt (Z.of_nat (String.length domain)) ]>
        (<[ "has_numbers" := Py.VBool (Re.search Re.digit domain) ]>
        (<[ "has_hyphens" := Py.VBool (Py.contains domain "-") ]> ∅))))))
  end.

(** [_detect_language] *)
Definition _detect_language (text : string) : string :=
  if is_empty text then "unknown"
  else
    let english_indicators :=
      ["the"; "and"; "or"; "is"; "are"; "was"; "were"; "a"; "an"] in
    let text_lower := Py.lower text in
    let english_count :=
      List.length (List.filter (Py.contains text_lower) english_indicators) in
    if (2 <=? english_count)%nat then "en" else "unknown".

Definition len (s : string) : Z := Z.of_nat (String.length s).

Local Open Scope Q_scope.

(** [_calculate_relevance_score] *)
Definition _calculate_relevance_score (result : SearchResult.t) : Q :=
  let rank_score :=
    Py.max 0 (1.0 - inject_Z (SearchResult.rank result - 1) * 0.1) in
  let content_score := 0.5 in
  let title_len := len (SearchResult.title result) in
  let content_score :=
    if ((30 <=? title_len) && (title_len <=? 100))%Z
    then content_score + 0.2 else content_score in
  let content_score :=
    if negb (is_empty (SearchResult.snippet result))
       && (50 <? len (SearchResult.snippet result))%Z
    then content_score + 0.2 else content_score in
  let content_score :=
    if negb (Py.any (Py.contains (Py.lower (SearchResult.domain result)))
                    ["spam"; "ads"; "click"; "buy"]%string)
    then content_score + 0.1 else content_score in
  Py.min 1.0 ((rank_score + content_score) / 2).

Definition is_str (v : Py.value) (s : string) : bool :=
  match v with Py.VStr s' => String.eqb s' s | _ => false end.

(** [_calculate_quality_score] *)
Definition _calculate_quality_score (result : SearchResult.t)
    (domain_info : gmap string Py.value) : Q :=
  let score := 0.5 in
  let domain_quality :=
    default (Py.VStr "medium") (domain_info !! "quality"%string) in
  let score :=
    if is_str domain_quality "high" then score + 0.3
    else if is_str domain_quality "medium" then score + 0.1
    else score in
  let score :=
    if Qlt_le_dec (SearchResult.response_time result) 2.0 then score + 0.1
    else if Qlt_le_dec 5.0 (SearchResult.response_time result)
         then score - 0.1
         else score in
  let score :=
    if negb (is_empty (SearchResult.title result))
       && (10 <? len (SearchResult.title result))%Z
    then score + 0.1 else score in
  let score :=
    if negb (is_empty (SearchResult.snippet result))
       && (30 <? len (SearchResult.snippet result))%Z
    then score + 0.1 else score in
  Py.min 1.0 (Py.max 0.0 score).

Local Close Scope Q_scope.

(** The body of the [try] block of [parse_search_result]. The call
    [ParsedResult(...)] passes its sixteen arguments by keyword; the last
    keyword is [result_metadata]. *)
Definition parse_search_result_body (result : SearchResult.t)
  : Py.except ParsedResult.t :=
  let title := SearchResult.title result in
  let snippet := SearchResult.snippet result in
  let normalized_title := _normalize_text title in
  let normalized_snippet := _normalize_text snippet in
  let keywords := _extract_keywords (title ++ " " ++ snippet) 10 in
  let domain_info := _analyze_domain (Some (SearchResult.domain result)) in
  let language := _detect_language (title ++ " " ++ snippet) in
  let relevance_score := _calculate_relevance_score result in
  let quality_score := _calculate_quality_score result domain_info in
  Py.bind
    (bind_keywords ParsedResult.fields
       [ "title"; "url"; "snippet"; "rank"; "domain";
         "normalized_title"; "normalized_snippet"; "domain_info"; "keywords";
         "language"; "crawl_timestamp"; "response_time"; "source_keyword";
         "relevance_score"; "quality_score"; "result_metadata" ])
    (fun _ =>
       Py.Return
         {| ParsedResult.title := title;
            ParsedResult.url := SearchResult.url result;
            ParsedResult.snippet := snippet;
            ParsedResult.rank := SearchResult.rank result;
            ParsedResult.domain := SearchResult.domain result;
            ParsedResult.normalized_title := normalized_title;
            ParsedResult.normalized_snippet := normalized_snippet;
            ParsedResult.domain_info := domain_info;
            ParsedResult.keywords := keywords;
            ParsedResult.language := language;
            ParsedResult.crawl_timestamp :=
              SearchResult.crawl_timestamp result;
            ParsedResult.response_time := SearchResult.response_time result;
            ParsedResult.source_keyword :=
              default (Py.VStr EmptyString)
                (SearchResult.result_metadata result !! "keyword");
            ParsedResult.relevance_score := relevance_score;
            ParsedResult.quality_score := quality_score;
            ParsedResult.metadata := SearchResult.result_metadata result |}).

(** [parse_search_result]: [except Exception] logs and returns [None]. *)
Definition parse_search_result (result : SearchResult.t)
  : option ParsedResult.t :=
  match parse_search_result_body result with
  | Py.Return parsed => Some parsed
  | Py.Raise _ => None
  end.

(** [parse_search_results]: a result is appended when it is not [None]. *)
Definition parse_search_results (results : list SearchResult.t)
  : list ParsedResult.t :=
  fold_left
    (fun parsed_results result =>
       match parse_search_result result with
       | Some parsed => parsed_results ++ [parsed]
       | None => parsed_results
       end)
    results [].

(** The state of the loop of [deduplicate_results]. *)
Record dedup_state : Type := {
  seen_urls : gset string;
  seen_titles : gset string;
  unique_results : list ParsedResult.t
}.

Definition title_key (result : ParsedResult.t) : string :=
  Py.lower (_normalize_text (ParsedResult.title result)).

Definition dedup_step (st : dedup_state) (result : ParsedResult.t)
  : dedup_state :=
  if bool_decide (ParsedResult.url result ∈ seen_urls st) then st
  else if bool_decide (title_key result ∈ seen_titles st) then st
  else {| seen_urls := seen_urls st ∪ {[ ParsedResult.url result ]};
          seen_titles := seen_titles st ∪ {[ title_key result ]};
          unique_results := unique_results st ++ [result] |}.

(** [deduplicate_results] *)
Definition deduplicate_results (results : list ParsedResult.t)
  : list ParsedResult.t :=
  unique_results
    (fold_left dedup_step results
       {| seen_urls := ∅; seen_titles := ∅; unique_results := [] |}).

(** [filter_results] *)
Definition filter_results (results : list ParsedResult.t)
    (min_quality_score min_relevance_score : Q) : list ParsedResult.t :=
  List.filter (fun result =>
            Qle_bool min_quality_score (ParsedResult.quality_score result)
            && Qle_bool min_relevance_score
                 (ParsedResult.relevance_score result))
         results.

(** [sort_results] *)
Definition sort_results (results : list ParsedResult.t) (sort_by : string)
  : list ParsedResult.t :=
  if String.eqb sort_by "relevance" then
    Py.sorted (fun a b => Qle_bool (ParsedResult.relevance_score b)
                                   (ParsedResult.relevance_score a)) results
  else if String.eqb sort_by "quality" then
    Py.sorted (fun a b => Qle_bool (ParsedResult.quality_score b)
                                   (ParsedResult.quality_score a)) results
  else if String.eqb sort_by "rank" then
    Py.sorted (fun a b => (ParsedResult.rank a <=? ParsedResult.rank b)%Z)
              results
  else if String.eqb sort_by "domain" then
    Py.sorted (fun a b => String.leb (ParsedResult.domain a)
                                     (ParsedResult.domain b)) results
  else results.

End ResultParser.

(* ===================================================================== *)
(** ** [crawler/page_fetcher.py]: the fetched page                        *)
(* ===================================================================== *)

Module PageContent.
Record t : Type := Build {
  url : string;
  title : string;
  content : string;
  html : string;
  status_code : Z;
  response_time : Q;
  headers : gmap string string;
  fetch_timestamp : Z;
  error : option string
}.
End PageContent.

(* ===================================================================== *)
(** ** [enrichment/contact_extractor.py]                                  *)
(* ===================================================================== *)

Module ContactInfo.
Record t : Type := Build {
  emails : list string;
  contact_pages : list string;
  social_links : gmap string string;
  phone_numbers : list string;
  addresses : list string;
  confidence_score : Q;
  extraction_method : string;
  source_urls : list string
}.
End ContactInfo.

Module ContactExtractor.

(** An [<a>] element of a parsed document: its [href] attribute, if it has
    one, and what [get_text(strip=True)] returns for it. A parsed document
    ([BeautifulSoup]) is used only through [find_all('a', ...)], so it is
    the list of its anchors in document order. *)
Record anchor : Type := { href : option string; text : string }.

Definition is_empty (s : string) : bool :=
  match s with EmptyString => true | _ => false end.

Definition alnum (c : ascii) : bool := Py.is_alpha c || Py.is_digit c.

(** The character classes of the e-mail patterns. *)
Definition local_part : Re.regex :=                    (* [A-Za-z0-9._%+-] *)
  Re.Cls (fun c => alnum c || Re.one_of "._%+-" c).
Definition domain_part : Re.regex :=                   (* [A-Za-z0-9.-] *)
  Re.Cls (fun c => alnum c || Re.one_of ".-" c).
Definition tld_part : Re.regex :=                      (* [A-Z|a-z] *)
  Re.Cls (fun c => Py.is_alpha c || Re.one_of "|" c).

(** [email_patterns], as matched under [re.IGNORECASE]. *)
Definition email_patterns : list Re.regex :=
  [ (* \b[A-Za-z0-9._%+-]+@[A-Za-z0-9.-]+\.[A-Z|a-z]{2,}\b *)
    Re.seqs [ Re.WordB; Re.plus local_part; Re.chr "@";
              Re.plus domain_part; Re.chr "."; Re.at_least 2 tld_part;
              Re.WordB ];
    (* \b[A-Za-z0-9._%+-]+\s*\[at\]\s*[A-Za-z0-9.-]+\s*\[dot\]\s*[A-Z|a-z]{2,}\b *)
    Re.seqs [ Re.WordB; Re.plus local_part; Re.Star Re.space;
              Re.ilit "[at]"; Re.Star Re.space; Re.plus domain_part;
              Re.Star Re.space; Re.ilit "[dot]"; Re.Star Re.space;
              Re.at_least 2 tld_part; Re.WordB ];
    (* \b[A-Za-z0-9._%+-]+\s*@\s*[A-Za-z0-9.-]+\s*\.\s*[A-Z|a-z]{2,}\b *)
    Re.seqs [ Re.WordB; Re.plus local_part; Re.Star Re.space; Re.chr "@";
              Re.Star Re.space; Re.plus domain_part; Re.Star Re.space;
              Re.chr "."; Re.Star Re.space; Re.at_least 2 tld_part;
              Re.WordB ] ].

Definition separator : Re.regex :=                     (* [-.\s] *)
  Re.Cls (fun c => Re.one_of "-." c || Py.is_space c).

(** [phone_patterns] *)
Definition phone_patterns : list Re.regex :=
  [ (* \+?1?[-.\s]?\(?[0-9]{3}\)?[-.\s]?[0-9]{3}[-.\s]?[0-9]{4} *)
    Re.seqs [ Re.opt (Re.chr "+"); Re.opt (Re.chr "1"); Re.opt separator;
              Re.opt (Re.chr "("); Re.exactly 3 Re.digit;
              Re.opt (Re.chr ")"); Re.opt separator; Re.exactly 3 Re.digit;
              Re.opt separator; Re.exactly 4 Re.digit ];
    (* \+?[0-9]{1,4}[-.\s]?[0-9]{1,4}[-.\s]?[0-9]{1,4}[-.\s]?[0-9]{1,9} *)
    Re.seqs [ Re.opt (Re.chr "+"); Re.from_to 1 4 Re.digit; Re.opt separator;
              Re.from_to 1 4 Re.digit; Re.opt separator;
              Re.from_to 1 4 Re.digit; Re.opt separator;
              Re.from_to 1 9 Re.digit ] ].

Definition contact_page_paths : list string :=
  [ "/contact"; "/contact-us"; "/contact_us"; "/contactus";
    "/about"; "/about-us"; "/about_us"; "/aboutus";
    "/team"; "/staff"; "/people";
    "/support"; "/help"; "/feedback";
    "/info"; "/information" ].

(** [https?://(?:www\.)?HOST/PATH], as matched under [re.IGNORECASE]. *)
Definition profile_url (host : string) (path : Re.regex) : Re.regex :=
  Re.seqs [ Re.ilit "http"; Re.opt (Re.ichr "s"); Re.ilit "://";
            Re.opt (Re.ilit "www."); Re.ilit host; Re.chr "/"; path ].

(** [social_patterns], in the insertion order of the dict. *)
Definition social_patterns : list (string * Re.regex) :=
  [ (* linkedin\.com/(?:in|company)/[a-zA-Z0-9-]+ *)
    ("linkedin",
     profile_url "linkedin.com"
       (Re.seqs [ Re.alts [Re.ilit "in"; Re.ilit "company"]; Re.chr "/";
                  Re.plus (Re.Cls (fun c => alnum c || Re.one_of "-" c)) ]));
    (* twitter\.com/[a-zA-Z0-9_]+ *)
    ("twitter",
     profile_url "twitter.com"
       (Re.plus (Re.Cls (fun c => alnum c || Re.one_of "_" c))));
    (* facebook\.com/[a-zA-Z0-9.]+ *)
    ("facebook",
     profile_url "facebook.com"
       (Re.plus (Re.Cls (fun c => alnum c || Re.one_of "." c))));
    (* instagram\.com/[a-zA-Z0-9_.]+ *)
    ("instagram",
     profile_url "instagram.com"
       (Re.plus (Re.Cls (fun c => alnum c || Re.one_of "_." c))));
    (* youtube\.com/(?:channel/|user/|c/)[a-zA-Z0-9_-]+ *)
    ("youtube",
     profile_url "youtube.com"
       (Re.seqs [ Re.alts [Re.ilit "channel/"; Re.ilit "user/"; Re.ilit "c/"];
                  Re.plus (Re.Cls (fun c => alnum c || Re.one_of "_-" c)) ]));
    (* github\.com/[a-zA-Z0-9_-]+ *)
    ("github",
     profile_url "github.com"
       (Re.plus (Re.Cls (fun c => alnum c || Re.one_of "_-" c)))) ].

Definition spam_indicators : list string :=
  [ "noreply"; "no-reply"; "donotreply"; "do-not-reply";
    "mailer-daemon"; "postmaster"; "webmaster";
    "example.com"; "test.com"; "localhost";
    "sentry.io"; "bugsnag.com" ].

(** [_is_valid_email] *)
Definition _is_valid_email (email : string) : bool :=
  if is_empty email || negb (Py.contains email "@") then false
  else
    let email_lower := Py.lower email in
    if Py.any (Py.contains email_lower) spam_indicators then false
    else
      (* ^[a-zA-Z0-9._%+-]+@[a-zA-Z0-9.-]+\.[a-zA-Z]{2,}$ *)
      if negb (Re.matches
                 (Re.seqs [ Re.Bos; Re.plus local_part; Re.chr "@";
                            Re.plus domain_part; Re.chr ".";
                            Re.at_least 2 (Re.Cls Py.is_alpha); Re.Eos ])
                 email)
      then false
      else true.

(** The loop of [_validate_emails] that removes duplicates and keeps the
    order. *)
Fixpoint unique_in_order (seen : gset string) (l : list string)
  : list string :=
  match l with
  | [] => []
  | email :: l' =>
      if bool_decide (email ∈ seen) then unique_in_order seen l'
      else email :: unique_in_order (seen ∪ {[ email ]}) l'
  end.

(** [_validate_emails] *)
Definition _validate_emails (emails : list string) : list string :=
  let validated := List.filter _is_valid_email emails in
  unique_in_order ∅ validated.

(** The e-mail address of a [mailto:] link, when the loop of
    [_extract_emails] adds one. *)
Definition mailto_email (link : anchor) : option string :=
  let href := default EmptyString (href link) in
  if Py.startswith href "mailto:" then
    let email := hd EmptyString (Py.split "?" (Py.drop_chars 7 href)) in
    if Py.contains email "@" then Some email else None
  else None.

(** [soup.find_all('a', href=re.compile(r'^mailto:', re.I))] *)
Definition mailto_links (soup : list anchor) : list anchor :=
  List.filter (fun link =>
            match href link with
            | Some h => Re.search (Re.Seq Re.Bos (Re.ilit "mailto:")) h
            | None => false
            end) soup.

(** [soup.find_all('a', href=True)] *)
Definition links_with_href (soup : list anchor) : list (anchor * string) :=
  omap (fun link => match href link with
                    | Some h => Some (link, h)
                    | None => None
                    end) soup.

(** The set [emails] of [_extract_emails] before cleaning. *)
Definition email_candidates (text : string) (soup : list anchor)
  : gset string :=
  let emails : gset string :=
    fold_left (fun emails pattern =>
                 emails ∪ list_to_set (Re.findall pattern text))
              email_patterns ∅ in
  fold_left (fun emails link =>
               match mailto_email link with
               | Some email => emails ∪ {[ email ]}
               | None => emails
               end)
            (mailto_links soup) emails.

(** [_extract_emails] *)
Definition _extract_emails (text : string) (soup : list anchor)
  : list string :=
  let cleaned_emails :=
    List.filter _is_valid_email
      (map (fun email => Py.lower (Py.strip email))
           (elements (email_candidates text soup))) in
  elements (list_to_set cleaned_emails : gset string).

(** [_extract_social_links]: the inner loop stops at the first platform
    whose pattern matches the link. *)
Definition social_step (social_links : gmap string string)
    (link : anchor * string) : gmap string string :=
  let href := snd link in
  match find (fun '(_, pattern) => Re.matches pattern href)
             social_patterns with
  | Some (platform, _) => <[ platform := href ]> social_links
  | None => social_links
  end.

Definition _extract_social_links (soup : list anchor)
  : gmap string string :=
  fold_left social_step (links_with_href soup) ∅.

(** The set [phone_numbers] of [_extract_phone_numbers] before cleaning. *)
Definition phone_candidates (text : string) : gset string :=
  fold_left (fun phone_numbers pattern =>
               phone_numbers ∪ list_to_set (Re.findall pattern text))
            phone_patterns ∅.

(** [re.sub(r'[^\d+]', '', phone)] *)
Definition digits_and_plus (phone : string) : string :=
  Re.sub (Re.Cls (fun c => negb (Py.is_digit c || Re.one_of "+" c)))
         EmptyString phone.

(** [_extract_phone_numbers] *)
Definition _extract_phone_numbers (text : string) : list string :=
  let cleaned_phones :=
    map Py.strip
      (List.filter (fun phone =>
                 (10 <=? String.length (digits_and_plus phone))%nat)
              (elements (phone_candidates text))) in
  elements (list_to_set cleaned_phones : gset string).

(** [_extract_addresses]; the pattern is matched under [re.IGNORECASE], so
    [[A-Z]] is any letter. *)
Definition address_pattern : Re.regex :=
  (* \d+\s+[A-Za-z0-9\s,.-]+
     (?:Street|St|Avenue|Ave|Road|Rd|Boulevard|Blvd|Drive|Dr|Lane|Ln|Way|Place|Pl)
     \s*,?\s*[A-Za-z\s]+,?\s*[A-Z]{2}\s+\d{5}(?:-\d{4})? *)
  Re.seqs
    [ Re.plus Re.digit; Re.plus Re.space;
      Re.plus (Re.Cls (fun c => alnum c || Py.is_space c
                                || Re.one_of ",.-" c));
      Re.alts (map Re.ilit
                 [ "Street"; "St"; "Avenue"; "Ave"; "Road"; "Rd";
                   "Boulevard"; "Blvd"; "Drive"; "Dr"; "Lane"; "Ln"; "Way";
                   "Place"; "Pl" ]);
      Re.Star Re.space; Re.opt (Re.chr ","); Re.Star Re.space;
      Re.plus (Re.Cls (fun c => Py.is_alpha c || Py.is_space c));
      Re.opt (Re.chr ","); Re.Star Re.space;
      Re.exactly 2 (Re.Cls Py.is_alpha); Re.plus Re.space;
      Re.exactly 5 Re.digit;
      Re.opt (Re.Seq (Re.chr "-") (Re.exactly 4 Re.digit)) ].

Definition _extract_addresses (text : string) : list string :=
  elements (list_to_set (Re.findall address_pattern text) : gset string).

Local Open Scope Q_scope.

(** [_calculate_confidence_score]; [page_content] may be [None]. *)
Definition _calculate_confidence_score (emails contact_pages : list string)
    (social_links : gmap string string) (phone_numbers : list string)
    (page_content : option PageContent.t) : Q :=
  let score := 0.0 in
  let score :=
    match emails with
    | [] => score
    | _ => score + 0.4 * Py.min 1.0 (Py.of_nat (List.length emails) / 3)
    end in
  let score :=
    match contact_pages with
    | [] => score
    | _ =>
        score + 0.2 * Py.min 1.0 (Py.of_nat (List.length contact_pages) / 2)
    end in
  let score :=
    if bool_decide (social_links = ∅) then score
    else score + 0.2 * Py.min 1.0 (Py.of_nat (size social_links) / 3) in
  let score :=
    match phone_numbers with
    | [] => score
    | _ =>
        score + 0.1 * Py.min 1.0 (Py.of_nat (List.length phone_numbers) / 2)
    end in
  let score :=
    match page_content with
    | None => score
    | Some page =>
        let url_lower := Py.lower (PageContent.url page) in
        let score :=
          if Py.any (Py.contains url_lower)
                    ["contact"; "about"; "team"]%string
          then score + 0.1 else score in
        if (500 <? String.length (PageContent.content page))%nat
        then score + 0.05 else score
    end in
  Py.min 1.0 score.

Local Close Scope Q_scope.

Local Open Scope Q_scope.

(** [enrich_domain_info]; the tier tests are substring tests on the
    lowercased domain. *)
Definition enrich_domain_info (domain : string) : gmap string Py.value :=
  let labels := Py.split "." domain in
  let enrichment_data : gmap string Py.value :=
    <[ "main_domain"%string :=
         Py.VStr (if Py.contains domain "."
                  then Py.join "." (Py.last_n 2 labels) else domain) ]>
    (<[ "is_subdomain"%string := Py.VBool (2 <? List.length labels)%nat ]>
    (<[ "tld"%string :=
          Py.VStr (if Py.contains domain "."
                   then List.last labels EmptyString else EmptyString) ]>
    (<[ "domain"%string := Py.VStr domain ]> ∅))) in
  let domain_lower := Py.lower domain in
  let quality_score := 0.5 in
  let quality_score :=
    if Py.any (Py.contains domain_lower) [".edu"; ".gov"; ".org"]%string
    then quality_score + 0.3
    else if Py.any (Py.contains domain_lower) [".com"; ".net"]%string
         then quality_score + 0.1
         else quality_score in
  let spam_indicators :=
    ["ads"; "click"; "buy"; "cheap"; "free"; "win"]%string in
  let quality_score :=
    if Py.any (Py.contains domain_lower) spam_indicators
    then quality_score - 0.2 else quality_score in
  let enrichment_data :=
    <[ "quality_score"%string :=
         Py.VFloat (Py.max 0.0 (Py.min 1.0 quality_score)) ]>
      enrichment_data in
  let enrichment_data :=
    <[ "has_numbers"%string := Py.VBool (Re.search Re.digit domain) ]>
      enrichment_data in
  let enrichment_data :=
    <[ "has_hyphens"%string := Py.VBool (Py.contains domain "-") ]>
      enrichment_data in
  <[ "length"%string := Py.VInt (Z.of_nat (String.length domain)) ]>
    enrichment_data.

Local Close Scope Q_scope.

(** The keywords of [_extract_contact_pages], and its test on a link with
    its [href]: a keyword occurs in the [href] or in the text, both in
    lower case. *)
Definition contact_keywords : list string :=
  [ "contact"; "about"; "team"; "support"; "help";
    "info"; "reach"; "touch"; "connect" ].

Definition mentions_contact (link : anchor) (h : string) : bool :=
  let href := Py.lower h in
  let text := Py.lower (text link) in
  Py.any (fun keyword => Py.contains href keyword
                         || Py.contains text keyword)
         contact_keywords.

(** The collaborators of the extractor: the HTML parser; [urljoin] of
    [urllib.parse], which raises [ValueError] on some urls; and
    [self.page_fetcher.fetch_page], which returns a page or [None], or
    raises. *)
Section Extractor.

Variable BeautifulSoup : string -> list anchor.
Variable urljoin : string -> string -> Py.except string.
Variable fetch_page : string -> Py.except (option PageContent.t).

(** One iteration of the loop of [_extract_contact_pages], on the set
    built so far or the exception raised. *)
Definition contact_pages_step (base_url : string)
    (contact_pages : Py.except (gset string)) (link : anchor * string)
  : Py.except (gset string) :=
  let '(link, h) := link in
  Py.bind contact_pages (fun contact_pages =>
    if mentions_contact link h
    then Py.bind (urljoin base_url h) (fun full_url =>
           Py.Return (contact_pages ∪ {[ full_url ]}))
    else Py.Return contact_pages).

(** [_extract_contact_pages]; the first [urljoin] that raises ends the
    loop, and nothing catches the exception here. *)
Definition _extract_contact_pages (soup : list anchor) (base_url : string)
  : Py.except (list string) :=
  Py.bind
    (fold_left (contact_pages_step base_url) (links_with_href soup)
       (Py.Return ∅))
    (fun contact_pages => Py.Return (elements contact_pages)).

(** [extract_contacts_from_page]; the argument may be [None]. It has no
    [try]: an exception of [_extract_contact_pages] is its own. *)
Definition extract_contacts_from_page (page_content : option PageContent.t)
  : Py.except ContactInfo.t :=
  match page_content with
  | None => Py.Return (ContactInfo.Build [] [] ∅ [] [] 0.0 "empty_page" [])
  | Some page =>
      if is_empty (PageContent.html page)
      then Py.Return (ContactInfo.Build [] [] ∅ [] [] 0.0 "empty_page" [])
      else
        let soup := BeautifulSoup (PageContent.html page) in
        let emails := _extract_emails (PageContent.content page) soup in
        Py.bind (_extract_contact_pages soup (PageContent.url page))
          (fun contact_pages =>
        let social_links := _extract_social_links soup in
        let phone_numbers :=
          _extract_phone_numbers (PageContent.content page) in
        let addresses := _extract_addresses (PageContent.content page) in
        let confidence :=
          _calculate_confidence_score emails contact_pages social_links
            phone_numbers page_content in
        Py.Return
          {| ContactInfo.emails := emails;
             ContactInfo.contact_pages := contact_pages;
             ContactInfo.social_links := social_links;
             ContactInfo.phone_numbers := phone_numbers;
             ContactInfo.addresses := addresses;
             ContactInfo.confidence_score := confidence;
             ContactInfo.extraction_method := "page_analysis";
             ContactInfo.source_urls := [PageContent.url page] |})
  end.

(** The variables of the loop of [extract_contacts_from_domain]. *)
Record crawl_state : Type := {
  all_emails : gset string;
  all_contact_pages : gset string;
  all_social_links : gmap string string;
  all_phone_numbers : gset string;
  all_addresses : gset string;
  source_urls : list string;
  total_confidence : Q;
  pages_processed : Z
}.

Definition crawl_init : crawl_state :=
  {| all_emails := ∅; all_contact_pages := ∅; all_social_links := ∅;
     all_phone_numbers := ∅; all_addresses := ∅; source_urls := [];
     total_confidence := 0; pages_processed := 0 |}.

(** The merge of one page; [d.update(e)] keeps the entries of [e]. *)
Definition merge (st : crawl_state) (url : string)
    (contact_info : ContactInfo.t) : crawl_state :=
  {| all_emails :=
       all_emails st ∪ list_to_set (ContactInfo.emails contact_info);
     all_contact_pages :=
       all_contact_pages st
         ∪ list_to_set (ContactInfo.contact_pages contact_info);
     all_social_links :=
       ContactInfo.social_links contact_info ∪ all_social_links st;
     all_phone_numbers :=
       all_phone_numbers st
         ∪ list_to_set (ContactInfo.phone_numbers contact_info);
     all_addresses :=
       all_addresses st ∪ list_to_set (ContactInfo.addresses contact_info);
     source_urls := source_urls st ++ [url];
     total_confidence :=
       (total_confidence st + ContactInfo.confidence_score contact_info)%Q;
     pages_processed := (pages_processed st + 1)%Z |}.

(** One iteration. The [try] covers the fetch and the extraction: an
    exception of [fetch_page] or of [extract_contacts_from_page] is
    logged and the page skipped, before anything of it is merged. *)
Definition crawl_step (st : crawl_state) (url : string) : crawl_state :=
  match fetch_page url with
  | Py.Return (Some page_content) =>
      if (PageContent.status_code page_content =? 200)%Z
      then match extract_contacts_from_page (Some page_content) with
           | Py.Return contact_info => merge st url contact_info
           | Py.Raise _ => st
           end
      else st
  | Py.Return None => st
  | Py.Raise _ => st
  end.

Definition base_url_of (domain : string) : string :=
  if negb (Py.startswith domain "http") then "https://" ++ domain
  else domain.

(** The loop that appends [urljoin(base_url, path)] for the contact page
    paths; it is outside the [try], so the first [urljoin] that raises
    ends the call. *)
Fixpoint join_paths (base_url : string) (paths : list string)
  : Py.except (list string) :=
  match paths with
  | [] => Py.Return []
  | path :: paths' =>
      Py.bind (urljoin base_url path) (fun url =>
      Py.bind (join_paths base_url paths') (fun urls =>
      Py.Return (url :: urls)))
  end.

Definition urls_to_check (domain : string) (max_pages : Z)
  : Py.except (list string) :=
  let base_url := base_url_of domain in
  Py.bind (join_paths base_url contact_page_paths) (fun urls =>
  Py.Return (Py.slice_to max_pages (base_url :: urls))).

(** [extract_contacts_from_domain] from the loop over the urls on: it
    raises nothing. *)
Definition crawl_urls (urls_to_check : list string) : ContactInfo.t :=
  let st := fold_left crawl_step urls_to_check crawl_init in
  let avg_confidence :=
    if (0 <? pages_processed st)%Z
    then (total_confidence st / inject_Z (pages_processed st))%Q
    else 0%Q in
  let validated_emails := _validate_emails (elements (all_emails st)) in
  {| ContactInfo.emails := validated_emails;
     ContactInfo.contact_pages := elements (all_contact_pages st);
     ContactInfo.social_links := all_social_links st;
     ContactInfo.phone_numbers := elements (all_phone_numbers st);
     ContactInfo.addresses := elements (all_addresses st);
     ContactInfo.confidence_score := avg_confidence;
     ContactInfo.extraction_method := "domain_crawl";
     ContactInfo.source_urls := source_urls st |}.

(** [extract_contacts_from_domain] *)
Definition extract_contacts_from_domain (domain : string) (max_pages : Z)
  : Py.except ContactInfo.t :=
  Py.bind (urls_to_check domain max_pages) (fun urls_to_check =>
  Py.Return (crawl_urls urls_to_check)).

End Extractor.

End ContactExtractor.

(* ===================================================================== *)
(** ** [crawler/google_serp.py]: the results page                         *)
(* ===================================================================== *)

Module GoogleSERPCrawler.

(** A result container ([div.g]) of the results page, as the parser reads
    it: the text of its first [h3], if any; its first [a], if any, with
    the [href] attribute that element has, if any; the text of the snippet
    element selected ([span[data-ved]], else [.VwiC3b]), if any. *)
Record container : Type := {
  title_elem : option string;
  link_elem : option (option string);
  snippet_elem : option string
}.

Section Crawler.

(** [urlparse(url).netloc], which raises [ValueError] on some urls; the
    clock read when the container at a rank is processed; and
    [config.crawler.mode]. *)
Variable netloc : string -> Py.except string.
Variable now : Z -> Z.
Variable mode : string.

(** The body of the loop of [_parse_google_results] for one container:
    [None] when the container is skipped ([continue], or an exception that
    is logged). *)
Definition parse_container (keyword : string) (response_time : Q)
    (rank : Z) (c : container) : option SearchResult.t :=
  match title_elem c, link_elem c with
  | Some title, Some link =>
      let url := default EmptyString link in
      if ResultParser.is_empty url || Py.startswith url "/search"
         || Py.contains url "google.com"
      then None
      else
        let snippet := default EmptyString (snippet_elem c) in
        match netloc url with
        | Py.Raise _ => None
        | Py.Return domain =>
            Some {| SearchResult.title := title;
                    SearchResult.url := url;
                    SearchResult.snippet := snippet;
                    SearchResult.rank := rank;
                    SearchResult.domain := domain;
                    SearchResult.crawl_timestamp := now rank;
                    SearchResult.response_time := response_time;
                    SearchResult.result_metadata :=
                      <[ "keyword" := Py.VStr keyword ]>
                      (<[ "search_engine" := Py.VStr "google" ]>
                      (<[ "crawl_mode" := Py.VStr mode ]> ∅)) |}
        end
  | _, _ => None
  end.

(** The loop over [enumerate(result_containers, 1)], from rank [rank]. *)
Fixpoint parse_containers (keyword : string) (response_time : Q) (rank : Z)
    (containers : list container) : list SearchResult.t :=
  match containers with
  | [] => []
  | c :: containers' =>
      match parse_container keyword response_time rank c with
      | Some result =>
          result :: parse_containers keyword response_time (rank + 1)
                      containers'
      | None => parse_containers keyword response_time (rank + 1) containers'
      end
  end.

(** [_parse_google_results], on the containers [soup.select('div.g')]. *)
Definition _parse_google_results (result_containers : list container)
    (keyword : string) (response_time : Q) : list SearchResult.t :=
  parse_containers keyword response_time 1 result_containers.

End Crawler.

(** The state of the loop of [deduplicate_results]. *)
Definition dedup_step (st : gset string * list SearchResult.t)
    (result : SearchResult.t) : gset string * list SearchResult.t :=
  let '(seen_urls, unique_results) := st in
  if bool_decide (SearchResult.url result ∉ seen_urls)
  then (seen_urls ∪ {[ SearchResult.url result ]},
        unique_results ++ [result])
  else st.

(** [deduplicate_results]: by url only. *)
Definition deduplicate_results (results : list SearchResult.t)
  : list SearchResult.t :=
  snd (fold_left dedup_step results (∅, [])).

End GoogleSERPCrawler.

(* ===================================================================== *)
(** ** [crawler/page_fetcher.py]: the fetcher                             *)
(* ===================================================================== *)

Module PageFetcher.

(** What the fetcher reads of a [requests.Response]: the status code, the
    headers and the body. The headers are a case-insensitive dictionary,
    which keeps under the lower-case name the name as received and the
    value. *)
Record response : Type := {
  status_code : Z;
  headers : gmap string (string * string);
  text : string
}.

(** What [session.get] does at one attempt: it returns a response, with
    the time measured around the call, or raises. *)
Inductive get_outcome : Type :=
| Responded (r : response) (response_time : Q)
| Timeout
| ConnectionError
| RequestException
| OtherException.

(** [response.headers.get(name, '')]: the lookup ignores case. *)
Definition header_get (name : string)
    (headers : gmap string (string * string)) : string :=
  match headers !! Py.lower name with
  | Some (_, v) => v
  | None => EmptyString
  end.

(** [dict(response.headers)]: the values by the names as received. *)
Definition header_dict (headers : gmap string (string * string))
  : gmap string string :=
  list_to_map (map snd (map_to_list headers)).

(** The line boundaries of [str.splitlines] in 7-bit text: LF, VT, FF,
    CR, FS, GS, RS. *)
Definition is_linebreak (c : ascii) : bool :=
  Py.between 10 13 c || Py.between 28 30 c.

(** [s.splitlines()]: a line ends at a boundary, CR LF counts once, and
    no empty line follows a final boundary. [after_cr] says that the
    character before was a CR. *)
Fixpoint splitlines_from (after_cr : bool) (s : string) : list string :=
  match s with
  | EmptyString => []
  | String c s' =>
      if after_cr && Ascii.eqb c (ascii_of_nat 10)
      then splitlines_from false s'
      else if is_linebreak c
      then EmptyString :: splitlines_from (Ascii.eqb c (ascii_of_nat 13)) s'
      else match splitlines_from false s' with
           | line :: lines => String c line :: lines
           | [] => [String c EmptyString]
           end
  end.

Definition splitlines (s : string) : list string := splitlines_from false s.

(** [s.split("  ")]: the pieces between the occurrences of two spaces,
    found from the left without overlap. [skip] says that the first
    character is the second space of an occurrence. *)
Fixpoint split_spaces_from (skip : bool) (s : string) : list string :=
  match s with
  | EmptyString => [EmptyString]
  | String c s' =>
      if skip then split_spaces_from false s'
      else if Ascii.eqb c " " && Py.startswith s' " "
      then EmptyString :: split_spaces_from true s'
      else match split_spaces_from false s' with
           | piece :: pieces => String c piece :: pieces
           | [] => [String c EmptyString]
           end
  end.

Definition split_spaces (s : string) : list string :=
  split_spaces_from false s.

(** The clean-up of the page text in [_parse_page_content]. *)
Definition clean_text (content : string) : string :=
  let lines := map Py.strip (splitlines content) in
  let chunks := map Py.strip (flat_map split_spaces lines) in
  Py.join " " (List.filter (fun chunk => negb (ResultParser.is_empty chunk))
                 chunks).

Section Fetcher.

(** The collaborators: the HTML parser, which gives the stripped text of
    the [title] element, if there is one, and the text of the document
    without scripts, styles and navigation, or raises; the clock; and
    [session.get], whose outcome depends on the url and on the attempt. *)
Variable parse_html : string -> Py.except (option string * string).
Variable now : Z.
Variable get : string -> nat -> get_outcome.

(** [config.crawler.max_retries] *)
Variable max_retries : Z.

(** [_parse_page_content] *)
Definition _parse_page_content (r : response) (url : string)
    (response_time : Q) : option PageContent.t :=
  if (400 <=? status_code r)%Z then None
  else
    let content_type := Py.lower (header_get "content-type" (headers r)) in
    if negb (Py.contains content_type "text/html") then None
    else
      match parse_html (text r) with
      | Py.Raise _ => None
      | Py.Return (title_elem, content) =>
          Some {| PageContent.url := url;
                  PageContent.title := default EmptyString title_elem;
                  PageContent.content := clean_text content;
                  PageContent.html := text r;
                  PageContent.status_code := status_code r;
                  PageContent.response_time := response_time;
                  PageContent.headers := header_dict (headers r);
                  PageContent.fetch_timestamp := now;
                  PageContent.error := None |}
      end.

(** The page returned when no attempt gives one. *)
Definition failed_page (url : string) : PageContent.t :=
  {| PageContent.url := url;
     PageContent.title := EmptyString;
     PageContent.content := EmptyString;
     PageContent.html := EmptyString;
     PageContent.status_code := 0;
     PageContent.response_time := 0;
     PageContent.headers := ∅;
     PageContent.fetch_timestamp := now;
     PageContent.error := Some "Failed to fetch after retries" |}.

(** The loop of [fetch_page] from attempt [attempt], with [remaining]
    attempts left: a page ends it, a response that gives no page and a
    request error go on to the next attempt, any other exception leaves
    the loop. *)
Fixpoint attempts (url : string) (attempt remaining : nat)
  : option PageContent.t :=
  match remaining with
  | O => None
  | S remaining' =>
      match get url attempt with
      | Responded r response_time =>
          match _parse_page_content r url response_time with
          | Some page_content => Some page_content
          | None => attempts url (S attempt) remaining'
          end
      | Timeout | ConnectionError | RequestException =>
          attempts url (S attempt) remaining'
      | OtherException => None
      end
  end.

(** [retries or self.config.crawler.max_retries]: [None] and 0 are both
    replaced. *)
Definition retries_or_default (retries : option Z) : Z :=
  match retries with
  | Some n => if (n =? 0)%Z then max_retries else n
  | None => max_retries
  end.

(** [fetch_page] *)
Definition fetch_page (url : string) (retries : option Z) : PageContent.t :=
  match attempts url 0 (Z.to_nat (retries_or_default retries + 1)) with
  | Some page_content => page_content
  | None => failed_page url
  end.

End Fetcher.

End PageFetcher.

(* ===================================================================== *)
(** ** Properties                                                         *)
(* ===================================================================== *)

(** *** Python built-ins *)

Lemma StronglySorted_weaken {A} (R R' : A -> A -> Prop) (l : list A) :
  (forall a b, R a b -> R' a b) -> StronglySorted R l -> StronglySorted R' l.
Proof.
  intros HR. induction 1 as [|x l Hl IH Hx]; constructor; [exact IH|].
  eapply List.Forall_impl; [|exact Hx]. intros b. apply HR.
Qed.

Section SortedFacts.
Context {A : Type} (le : A -> A -> bool).
Hypothesis le_total : forall a b, le a b = false -> le b a = true.
Hypothesis le_trans :
  forall a b c, le a b = true -> le b c = true -> le a c = true.

Lemma insert_sorted_perm (x : A) (l : list A) :
  Permutation (x :: l) (Py.insert_sorted le x l).
Proof.
  induction l as [|y l IH]; simpl; [reflexivity|].
  destruct (le y x); [|reflexivity].
  rewrite perm_swap. now constructor.
Qed.

Lemma sorted_perm_acc (l acc : list A) :
  Permutation (acc ++ l)
    (fold_left (fun acc x => Py.insert_sorted le x acc) l acc).
Proof.
  revert acc. induction l as [|x l IH]; intros acc; simpl.
  - now rewrite app_nil_r.
  - rewrite <- IH, <- insert_sorted_perm. simpl.
    symmetry. apply Permutation_middle.
Qed.

Lemma sorted_perm (l : list A) : Permutation l (Py.sorted le l).
Proof. exact (sorted_perm_acc l []). Qed.

Lemma insert_sorted_Forall (P : A -> Prop) (x : A) (l : list A) :
  P x -> Forall P l -> Forall P (Py.insert_sorted le x l).
Proof.
  intros Hx Hl. apply (Permutation_Forall (insert_sorted_perm x l)).
  now constructor.
Qed.

Lemma insert_sorted_sorted (x : A) (l : list A) :
  StronglySorted (fun a b => le a b = true) l ->
  StronglySorted (fun a b => le a b = true) (Py.insert_sorted le x l).
Proof.
  induction 1 as [|y l Hl IH Hy]; simpl.
  - repeat constructor.
  - destruct (le y x) eqn:Hyx.
    + constructor; [exact IH|].
      now apply insert_sorted_Forall.
    + apply le_total in Hyx.
      constructor; [now constructor|].
      constructor; [exact Hyx|].
      eapply List.Forall_impl; [|exact Hy].
      intros z Hz. now apply le_trans with y.
Qed.

Lemma sorted_sorted_acc (l acc : list A) :
  StronglySorted (fun a b => le a b = true) acc ->
  StronglySorted (fun a b => le a b = true)
    (fold_left (fun acc x => Py.insert_sorted le x acc) l acc).
Proof.
  revert acc. induction l as [|x l IH]; intros acc Hacc; simpl.
  - exact Hacc.
  - apply IH. now apply insert_sorted_sorted.
Qed.

Lemma sorted_sorted (l : list A) :
  StronglySorted (fun a b => le a b = true) (Py.sorted le l).
Proof. apply sorted_sorted_acc. constructor. Qed.
End SortedFacts.

(** *** [ResultParser] *)

Import ResultParser.

(** The first result of the test fixture [sample_search_results]. *)
Definition sample_result : SearchResult.t :=
  {| SearchResult.title := "Test Result 1";
     SearchResult.url := "https://example.com/1";
     SearchResult.snippet := "This is a test snippet for result 1";
     SearchResult.rank := 1;
     SearchResult.domain := "example.com";
     SearchResult.crawl_timestamp := 0;
     SearchResult.response_time := 1.5;
     SearchResult.result_metadata := {[ "keyword" := Py.VStr "test query" ]} |}.

Lemma parse_search_result_body_raises (result : SearchResult.t) :
  parse_search_result_body result
  = Py.Raise "TypeError: unexpected keyword argument result_metadata".
Proof. reflexivity. Qed.

(** C1. The claim says that [parse_search_result] returns an enriched
    result for every well-formed raw result. In the code the constructor
    call names its last argument [result_metadata], which is no field of
    [ParsedResult] (the field is [metadata]); the [TypeError] is caught by
    the enclosing [except], so the function returns [None] on the fixture
    result, and on every other result. *)
Theorem C1_parse_search_result_returns_None :
  parse_search_result sample_result = None
  /\ (forall result, parse_search_result result = None)
  /\ (forall results, parse_search_results results = []).
Proof.
  assert (H : forall result, parse_search_result result = None).
  { intros result. unfold parse_search_result.
    now rewrite parse_search_result_body_raises. }
  split; [apply H|]. split; [exact H|].
  intros results. unfold parse_search_results.
  generalize (@nil ParsedResult.t) as parsed_results.
  induction results as [|r results IH]; intros parsed_results;
    cbn [fold_left]; [reflexivity|].
  rewrite H. apply IH.
Qed.

(** C9. [sort_results] with key "rank" returns a permutation of its input
    in which the ranks are in non-decreasing order. *)
Theorem C9_sort_results_rank (results : list ParsedResult.t) :
  Permutation results (sort_results results "rank")
  /\ StronglySorted
       (fun a b => (ParsedResult.rank a <= ParsedResult.rank b)%Z)
       (sort_results results "rank").
Proof.
  change (sort_results results "rank")
    with (Py.sorted
            (fun a b => (ParsedResult.rank a <=? ParsedResult.rank b)%Z)
            results).
  split.
  - apply sorted_perm.
  - eapply StronglySorted_weaken; [|apply sorted_sorted].
    + intros a b Hab. now apply Z.leb_le.
    + intros a b Hab. apply Z.leb_le. apply Z.leb_gt in Hab. lia.
    + intros a b c Hab Hbc. apply Z.leb_le.
      apply Z.leb_le in Hab, Hbc. lia.
Qed.

(** The state invariant of the loop of [deduplicate_results]: the two
    sets hold the urls and the title keys of the results kept so far. *)
Definition dedup_inv (st : dedup_state) : Prop :=
  seen_urls st = list_to_set (map ParsedResult.url (unique_results st))
  /\ seen_titles st = list_to_set (map title_key (unique_results st)).

(** [duplicates kept x]: some result of [kept] has the url or the title
    key of [x]. *)
Definition duplicates (kept : list ParsedResult.t) (x : ParsedResult.t)
  : bool :=
  existsb (fun y => String.eqb (ParsedResult.url y) (ParsedResult.url x)
                    || String.eqb (title_key y) (title_key x)) kept.

Lemma duplicates_spec (kept : list ParsedResult.t) (x : ParsedResult.t) :
  duplicates kept x = true <->
  ParsedResult.url x ∈ map ParsedResult.url kept
  \/ title_key x ∈ map title_key kept.
Proof.
  unfold duplicates. rewrite existsb_exists. split.
  - intros (y & Hy & Heq). apply list_elem_of_In in Hy.
    apply orb_true_iff in Heq as [Heq|Heq]; apply String.eqb_eq in Heq;
      rewrite <- Heq; [left|right]; now apply list_elem_of_fmap_2.
  - intros [H|H]; apply list_elem_of_fmap in H as (y & Heq & Hy);
      exists y; rewrite list_elem_of_In in Hy; (split; [exact Hy|]);
      rewrite Heq, String.eqb_refl; [reflexivity|apply orb_true_r].
Qed.

Lemma dedup_step_unique (st : dedup_state) (x : ParsedResult.t) :
  dedup_inv st ->
  unique_results (dedup_step st x)
  = unique_results st
      ++ (if duplicates (unique_results st) x then [] else [x]).
Proof.
  intros [Hu Ht]. unfold dedup_step. rewrite Hu, Ht.
  destruct (duplicates (unique_results st) x) eqn:Hd.
  - apply duplicates_spec in Hd.
    case_bool_decide as H1; [now rewrite app_nil_r|].
    case_bool_decide as H2; [now rewrite app_nil_r|].
    exfalso. rewrite elem_of_list_to_set in H1, H2. tauto.
  - assert (Hn : ~ (ParsedResult.url x
                      ∈ map ParsedResult.url (unique_results st)
                    \/ title_key x ∈ map title_key (unique_results st))).
    { rewrite <- duplicates_spec, Hd. discriminate. }
    rewrite !bool_decide_eq_false_2; [reflexivity| |];
      rewrite elem_of_list_to_set; tauto.
Qed.

Lemma dedup_step_inv (st : dedup_state) (x : ParsedResult.t) :
  dedup_inv st -> dedup_inv (dedup_step st x).
Proof.
  intros [Hu Ht]. unfold dedup_step.
  case_bool_decide; [now split|]. case_bool_decide; [now split|].
  split; cbn [seen_urls seen_titles unique_results];
    rewrite map_app, list_to_set_app_L; cbn [map list_to_set];
    rewrite union_empty_r_L; congruence.
Qed.

Lemma dedup_fold_inv (l : list ParsedResult.t) (st : dedup_state) :
  dedup_inv st -> dedup_inv (fold_left dedup_step l st).
Proof.
  revert st. induction l as [|x l IH]; intros st Hst; cbn [fold_left];
    [exact Hst|].
  apply IH. now apply dedup_step_inv.
Qed.

Lemma dedup_init_inv :
  dedup_inv {| seen_urls := ∅; seen_titles := ∅; unique_results := [] |}.
Proof. now split. Qed.

Lemma deduplicate_results_snoc (pre : list ParsedResult.t)
    (x : ParsedResult.t) :
  deduplicate_results (pre ++ [x])
  = deduplicate_results pre
      ++ (if duplicates (deduplicate_results pre) x then [] else [x]).
Proof.
  unfold deduplicate_results. rewrite fold_left_app. cbn [fold_left].
  apply dedup_step_unique, dedup_fold_inv, dedup_init_inv.
Qed.

(** Three results for the loop: [dup_b] has the title key of [dup_a],
    [dup_c] has the url of [dup_b] and a title of its own. *)
Definition dedup_example (title url : string) (rank : Z) : ParsedResult.t :=
  {| ParsedResult.title := title; ParsedResult.url := url;
     ParsedResult.snippet := EmptyString; ParsedResult.rank := rank;
     ParsedResult.domain := "example.org";
     ParsedResult.normalized_title := _normalize_text title;
     ParsedResult.normalized_snippet := EmptyString;
     ParsedResult.domain_info := ∅; ParsedResult.keywords := [];
     ParsedResult.language := "unknown";
     ParsedResult.crawl_timestamp := 0; ParsedResult.response_time := 1;
     ParsedResult.source_keyword := Py.VStr EmptyString;
     ParsedResult.relevance_score := 1; ParsedResult.quality_score := 1;
     ParsedResult.metadata := ∅ |}.

Definition dup_a := dedup_example "Alpha" "https://example.org/1" 1.
Definition dup_b := dedup_example "alpha" "https://example.org/2" 2.
Definition dup_c := dedup_example "Gamma" "https://example.org/2" 3.

(** C7, as stated, fails: [dup_c] has the url of the earlier item [dup_b]
    and is not removed, because [dup_b] itself was removed (for its
    title) and a removed item leaves no trace in the sets. *)
Lemma C7_counterexample :
  ParsedResult.url dup_c = ParsedResult.url dup_b
  /\ deduplicate_results [dup_a; dup_b; dup_c] = [dup_a; dup_c].
Proof. split; vm_compute; reflexivity. Qed.

(** C7, amended. [deduplicate_results] removes exactly the items whose url
    or whose normalized, lowercased title equals that of an earlier item
    that was retained: the output for a list extended by [x] is the output
    for the list, followed by [x] unless [x] duplicates a retained item.
    The output is a sublist of the input (relative order is kept), every
    input item has its url or its title key in the output, and of two
    entries with the same url that make up the list only the first
    survives, whatever their ranks. *)
Theorem C7_deduplicate_results_retained :
  deduplicate_results [] = []
  /\ (forall pre x,
        deduplicate_results (pre ++ [x])
        = deduplicate_results pre
            ++ (if duplicates (deduplicate_results pre) x then [] else [x]))
  /\ (forall results, sublist (deduplicate_results results) results)
  /\ (forall results x,
        x ∈ results ->
        x ∈ deduplicate_results results
        \/ duplicates (deduplicate_results results) x = true)
  /\ (forall a b,
        ParsedResult.url a = ParsedResult.url b ->
        deduplicate_results [a; b] = [a]).
Proof.
  split; [reflexivity|]. split; [exact deduplicate_results_snoc|].
  split; [|split].
  - intros results. induction results as [|x pre IH] using rev_ind;
      [constructor|].
    rewrite deduplicate_results_snoc.
    destruct (duplicates _ x).
    + rewrite app_nil_r. now apply sublist_inserts_r.
    + now apply sublist_app.
  - intros results. induction results as [|y pre IH] using rev_ind;
      intros x Hx; [now apply elem_of_nil in Hx|].
    rewrite deduplicate_results_snoc.
    assert (Hmono : forall z kept more,
              duplicates kept z = true ->
              duplicates (kept ++ more) z = true).
    { intros z kept more. unfold duplicates. rewrite existsb_app.
      intros ->. reflexivity. }
    apply elem_of_app in Hx as [Hx|Hx].
    + destruct (IH x Hx) as [H|H].
      * left. apply elem_of_app. now left.
      * right. now apply Hmono.
    + apply list_elem_of_singleton in Hx. subst y.
      destruct (duplicates (deduplicate_results pre) x) eqn:Hd.
      * right. now apply Hmono.
      * left. apply elem_of_app. right. now apply list_elem_of_singleton.
  - intros a b Hab.
    change [a; b] with ([a] ++ [b]). rewrite deduplicate_results_snoc.
    change [a] with ([] ++ [a]) at 1 2. rewrite deduplicate_results_snoc.
    cbn. rewrite Hab, String.eqb_refl. reflexivity.
Qed.

(** The two results of the claim: one url, ranks 1 and 2. *)
Lemma C7_deduplicate_results_retained_witness :
  ParsedResult.url dup_b = ParsedResult.url dup_c
  /\ deduplicate_results [dup_b; dup_c] = [dup_b].
Proof.
  split; [reflexivity|].
  apply (proj2 (proj2 (proj2 (proj2 C7_deduplicate_results_retained)))).
  reflexivity.
Defined.

(** *** Scores *)

Local Open Scope Q_scope.

Lemma min_le_l (a b : Q) : Py.min a b <= a.
Proof. unfold Py.min. destruct (Qlt_le_dec b a); lra. Qed.

Lemma min_glb (c a b : Q) : c <= a -> c <= b -> c <= Py.min a b.
Proof. unfold Py.min. destruct (Qlt_le_dec b a); lra. Qed.

Lemma max_le_l (a b : Q) : a <= Py.max a b.
Proof. unfold Py.max. destruct (Qlt_le_dec a b); lra. Qed.

Lemma of_nat_nonneg (n : nat) : 0 <= Py.of_nat n.
Proof.
  unfold Py.of_nat. change 0 with (inject_Z 0). rewrite <- Zle_Qle. lia.
Qed.

(** A weighted, capped count: [w * min(1.0, n / d)]. *)
Lemma capped_term_bounds (w d : Q) (n : nat) :
  0 <= w -> 0 < d ->
  0 <= w * Py.min 1.0 (Py.of_nat n / d) <= w.
Proof.
  intros Hw Hd.
  assert (H0 : 0 <= Py.of_nat n / d).
  { apply Qle_shift_div_l; [exact Hd|]. pose proof (of_nat_nonneg n). lra. }
  pose proof (min_le_l 1.0 (Py.of_nat n / d)) as H1.
  assert (H2 : 0 <= Py.min 1.0 (Py.of_nat n / d))
    by (apply min_glb; lra).
  split.
  - now apply Qmult_le_0_compat.
  - apply Qle_trans with (1 * w); [|lra].
    rewrite (Qmult_comm w). apply Qmult_le_compat_r; [lra|exact Hw].
Qed.

Lemma confidence_score_bounds (emails contact_pages : list string)
    (social_links : gmap string string) (phone_numbers : list string)
    (page_content : option PageContent.t) :
  0 <= ContactExtractor._calculate_confidence_score emails contact_pages
         social_links phone_numbers page_content <= 1.
Proof.
  unfold ContactExtractor._calculate_confidence_score.
  split; [|eapply Qle_trans; [apply min_le_l|lra]].
  apply min_glb; [lra|].
  pose proof (capped_term_bounds 0.4 3 (List.length emails)) as He.
  pose proof (capped_term_bounds 0.2 2 (List.length contact_pages)) as Hc.
  pose proof (capped_term_bounds 0.2 3 (size social_links)) as Hs.
  pose proof (capped_term_bounds 0.1 2 (List.length phone_numbers)) as Hp.
  destruct He, Hc, Hs, Hp; try lra.
  destruct emails, contact_pages, phone_numbers, page_content;
    repeat match goal with
           | |- context [if ?b then _ else _] => destruct b
           end;
    cbn [List.length] in *; lra.
Qed.

Lemma relevance_score_bounds (result : SearchResult.t) :
  0 <= _calculate_relevance_score result <= 1.
Proof.
  unfold _calculate_relevance_score.
  split; [|eapply Qle_trans; [apply min_le_l|lra]].
  apply min_glb; [lra|].
  match goal with
  | |- context [Py.max 0 ?r] => pose proof (max_le_l 0 r) as Hr
  end.
  repeat match goal with
         | |- context [if ?b then _ else _] => destruct b
         end;
    apply Qle_shift_div_l; lra.
Qed.

Lemma quality_score_bounds (result : SearchResult.t)
    (domain_info : gmap string Py.value) :
  0 <= _calculate_quality_score result domain_info <= 1.
Proof.
  unfold _calculate_quality_score.
  split; [|eapply Qle_trans; [apply min_le_l|lra]].
  apply min_glb; [lra|].
  eapply Qle_trans; [|apply max_le_l]. lra.
Qed.

(** C2. Every score is in [0, 1]: the confidence score for any signals
    and any page (or none), the relevance score for any result (any
    integer rank, any strings), the quality score for any result, any
    response time and any domain information. *)
Theorem C2_scores_in_unit_interval :
  (forall emails contact_pages social_links phone_numbers page_content,
      0 <= ContactExtractor._calculate_confidence_score emails contact_pages
             social_links phone_numbers page_content <= 1)
  /\ (forall result, 0 <= _calculate_relevance_score result <= 1)
  /\ (forall result domain_info,
        0 <= _calculate_quality_score result domain_info <= 1).
Proof.
  split; [exact confidence_score_bounds|].
  split; [exact relevance_score_bounds|exact quality_score_bounds].
Qed.

Local Close Scope Q_scope.

(** *** Domain analysis *)

Local Open Scope Q_scope.

(** The adjustments of [_calculate_quality_score] that do not depend on
    the domain. *)
Definition response_time_term (result : SearchResult.t) : Q :=
  if Qlt_le_dec (SearchResult.response_time result) 2.0 then 0.1
  else if Qlt_le_dec 5.0 (SearchResult.response_time result) then - 0.1
       else 0.

Definition title_term (result : SearchResult.t) : Q :=
  if negb (ResultParser.is_empty (SearchResult.title result))
     && (10 <? len (SearchResult.title result))%Z
  then 0.1 else 0.

Definition snippet_term (result : SearchResult.t) : Q :=
  if negb (ResultParser.is_empty (SearchResult.snippet result))
     && (30 <? len (SearchResult.snippet result))%Z
  then 0.1 else 0.

Definition domain_info_keys : list string :=
  [ "quality"; "tld"; "is_subdomain"; "main_domain"; "length";
    "has_numbers"; "has_hyphens" ]%string.

(** C10. For an absent or empty domain [_analyze_domain] returns the empty
    mapping, so none of the seven fields is present, and
    [_calculate_quality_score] on that mapping scores as for the tier
    "medium": base 0.5 plus the bonus 0.1, then the other adjustments and
    the clamp. *)
Theorem C10_analyze_domain_empty (domain : option string) :
  domain = None \/ domain = Some EmptyString ->
  _analyze_domain domain = ∅
  /\ Forall (fun key => _analyze_domain domain !! key = None)
       domain_info_keys
  /\ forall result,
       _calculate_quality_score result (_analyze_domain domain)
       = _calculate_quality_score result
           {[ "quality"%string := Py.VStr "medium" ]}
       /\ _calculate_quality_score result (_analyze_domain domain)
          == Py.min 1.0
               (Py.max 0.0
                  (0.5 + 0.1 + response_time_term result
                   + title_term result + snippet_term result)).
Proof.
  intros Hdomain.
  assert (Hempty : _analyze_domain domain = ∅)
    by (destruct Hdomain as [-> | ->]; reflexivity).
  rewrite Hempty. split; [reflexivity|].
  split; [repeat constructor|].
  intros result. split; [reflexivity|].
  unfold _calculate_quality_score, response_time_term, title_term,
    snippet_term.
  rewrite lookup_empty. cbn [default is_str String.eqb Ascii.eqb
                               Bool.eqb].
  repeat match goal with
         | |- context [if ?b then _ else _] => destruct b
         end; reflexivity.
Qed.

Lemma C10_analyze_domain_empty_witness :
  _analyze_domain (Some EmptyString) = ∅
  /\ _calculate_quality_score sample_result
       (_analyze_domain (Some EmptyString))
     = _calculate_quality_score sample_result
         {[ "quality"%string := Py.VStr "medium" ]}.
Proof.
  destruct (C10_analyze_domain_empty (Some EmptyString)) as (H1 & _ & H3);
    [right; reflexivity|].
  split; [exact H1|exact (proj1 (H3 sample_result))].
Defined.

Local Close Scope Q_scope.

(** *** [ContactExtractor] *)

Import ContactExtractor.

Section ExtractorFacts.

Variable BeautifulSoup : string -> list anchor.
Variable urljoin : string -> string -> Py.except string.

(** C5. For an absent page and for a page without markup
    [extract_contacts_from_page] returns the empty contact information:
    no e-mail addresses, contact pages, social links, phone numbers,
    addresses or source urls, confidence 0.0 and the method
    "empty_page". Nothing is raised: the result is returned before the
    parser or [urljoin] is called. *)
Theorem C5_extract_contacts_empty_page
    (page_content : option PageContent.t) :
  page_content = None
  \/ (exists page, page_content = Some page
                   /\ PageContent.html page = EmptyString) ->
  extract_contacts_from_page BeautifulSoup urljoin page_content
  = Py.Return
      {| ContactInfo.emails := [];
         ContactInfo.contact_pages := [];
         ContactInfo.social_links := ∅;
         ContactInfo.phone_numbers := [];
         ContactInfo.addresses := [];
         ContactInfo.confidence_score := 0.0;
         ContactInfo.extraction_method := "empty_page";
         ContactInfo.source_urls := [] |}.
Proof.
  intros [-> | (page & -> & Hhtml)]; [reflexivity|].
  unfold extract_contacts_from_page. rewrite Hhtml. reflexivity.
Qed.

End ExtractorFacts.

(** The page of the test [test_extract_contacts_empty_page]. *)
Definition empty_page : PageContent.t :=
  {| PageContent.url := "https://example.com/empty";
     PageContent.title := EmptyString;
     PageContent.content := EmptyString;
     PageContent.html := EmptyString;
     PageContent.status_code := 200;
     PageContent.response_time := 1.0;
     PageContent.headers := ∅;
     PageContent.fetch_timestamp := 0;
     PageContent.error := None |}.

Lemma C5_extract_contacts_empty_page_witness :
  Py.bind
    (extract_contacts_from_page (fun _ => [])
       (fun base url => Py.Return (String.append base url)) (Some empty_page))
    (fun info => Py.Return (ContactInfo.extraction_method info))
  = Py.Return "empty_page".
Proof.
  rewrite (C5_extract_contacts_empty_page (fun _ => [])
             (fun base url => Py.Return (String.append base url)) (Some empty_page));
    [reflexivity|].
  right. exists empty_page. split; reflexivity.
Defined.

(** **** Social links *)

(** The platform a link is filed under: the first entry of
    [social_patterns] whose pattern matches the [href]. *)
Definition platform_of (href : string) : option string :=
  fst <$> find (fun '(_, pattern) => Re.matches pattern href)
               social_patterns.

Lemma social_step_spec (social_links : gmap string string)
    (link : anchor * string) :
  social_step social_links link
  = match platform_of (snd link) with
    | Some platform => <[ platform := snd link ]> social_links
    | None => social_links
    end.
Proof.
  unfold social_step, platform_of.
  destruct (find _ social_patterns) as [[platform pattern]|]; reflexivity.
Qed.

Lemma social_fold_lookup (links : list (anchor * string))
    (platform : string) :
  fold_left social_step links ∅ !! platform
  = last (List.filter
            (fun h => bool_decide (platform_of h = Some platform))
            (map snd links)).
Proof.
  induction links as [|link links IH] using rev_ind; [reflexivity|].
  rewrite fold_left_app, map_app, List.filter_app. cbn [fold_left map].
  rewrite social_step_spec. cbn [List.filter].
  destruct (platform_of (snd link)) as [p|] eqn:Hp.
  - destruct (decide (p = platform)) as [->|Hne].
    + rewrite lookup_insert_eq, bool_decide_eq_true_2 by reflexivity.
      now rewrite last_snoc.
    + rewrite lookup_insert_ne by exact Hne.
      rewrite bool_decide_eq_false_2 by congruence.
      now rewrite app_nil_r.
  - rewrite bool_decide_eq_false_2 by congruence.
    now rewrite app_nil_r.
Qed.

(** The patterns of [social_patterns] and the host of a url. *)

Lemma lower_app (a b : string) :
  Py.lower (a ++ b)%string = (Py.lower a ++ Py.lower b)%string.
Proof.
  induction a as [|c a IH]; [reflexivity|].
  change (String (Py.lower_char c) (Py.lower (a ++ b)%string)
          = String (Py.lower_char c) (Py.lower a ++ Py.lower b)%string).
  now rewrite IH.
Qed.

(** A match of a case-insensitive literal consumes a prefix equal to the
    literal up to case. *)
Lemma run_ilit {A} (lit : string) (prev : option ascii) (s : string)
    (k : option ascii -> string -> option A) (x : A) :
  Re.run (Re.ilit lit) prev s k = Some x ->
  exists pre rest,
    s = (pre ++ rest)%string /\ Py.lower pre = Py.lower lit
    /\ k (Re.last_char prev pre) rest = Some x.
Proof.
  revert prev s. induction lit as [|c lit IH]; intros prev s H.
  - exists EmptyString, s. repeat split. exact H.
  - assert (Hc : forall r,
              Re.run (Re.Seq (Re.ichr c) r) prev s k = Some x ->
              exists a s', s = String a s'
                           /\ Py.lower_char a = Py.lower_char c
                           /\ Re.run r (Some a) s' k = Some x).
    { intros r Hr. cbn in Hr. destruct s as [|a s']; [discriminate|].
      destruct (Ascii.eqb _ _) eqn:E; [|discriminate].
      apply Ascii.eqb_eq in E. now exists a, s'. }
    destruct lit as [|c' lit'].
    + specialize (Hc Re.Eps H) as (a & s' & -> & Ha & Hk).
      exists (String a EmptyString), s'. cbn in *. rewrite Ha. now repeat split.
    + apply Hc in H as (a & s' & -> & Ha & Hk).
      apply IH in Hk as (pre & rest & -> & Hpre & Hk).
      exists (String a pre), rest. cbn [Py.lower Re.last_char].
      rewrite Ha, Hpre. now repeat split.
Qed.

Lemma run_opt {A} (r : Re.regex) (prev : option ascii) (s : string)
    (k : option ascii -> string -> option A) (x : A) :
  Re.run (Re.opt r) prev s k = Some x ->
  Re.run r prev s k = Some x \/ k prev s = Some x.
Proof.
  unfold Re.opt. cbn [Re.run]. destruct (Re.run r prev s k); [left|right];
    assumption.
Qed.

Lemma run_chr {A} (c : ascii) (prev : option ascii) (s : string)
    (k : option ascii -> string -> option A) (x : A) :
  Re.run (Re.chr c) prev s k = Some x ->
  exists rest, s = String c rest /\ k (Some c) rest = Some x.
Proof.
  cbn. destruct s as [|a rest]; [discriminate|].
  destruct (Ascii.eqb c a) eqn:E; [|discriminate].
  apply Ascii.eqb_eq in E as <-. now exists rest.
Qed.

Definition strip_prefix (p s : string) : option string :=
  if Py.startswith s p then Some (Py.drop_chars (String.length p) s)
  else None.

(** The platform whose host follows the scheme and the optional [www.]
    of a url, read off the lowercased url. *)
Definition site_of (href : string) : option string :=
  match strip_prefix "http" (Py.lower href) with
  | None => None
  | Some l1 =>
      match strip_prefix "://" (default l1 (strip_prefix "s" l1)) with
      | None => None
      | Some l3 =>
          let l4 := default l3 (strip_prefix "www." l3) in
          fst <$> find (fun '(platform, _) =>
                          Py.startswith l4 (platform ++ ".com/"))
                       social_patterns
      end
  end.

Ltac run_seq H :=
  change (Re.run (Re.Seq ?a ?b) ?p ?s ?k)
    with (Re.run a p s (fun p' s' => Re.run b p' s' k)) in H.

Lemma profile_url_site (platform : string) (path : Re.regex) (h : string) :
  platform ∈ map fst social_patterns ->
  Re.matches (profile_url (platform ++ ".com") path) h = true ->
  site_of h = Some platform.
Proof.
  intros Hp Hm. apply bool_decide_eq_true in Hm as [x Hx].
  unfold Re.match_here, profile_url in Hx. cbn [Re.seqs] in Hx.
  run_seq Hx. apply run_ilit in Hx as (p1 & r1 & -> & H1 & Hx).
  run_seq Hx. apply run_opt in Hx as [Hx|Hx];
    [apply (run_ilit "s") in Hx as (p2 & r2 & -> & H2 & Hx)|];
    (run_seq Hx; apply run_ilit in Hx as (p3 & r3 & -> & H3 & Hx));
    (run_seq Hx; apply run_opt in Hx as [Hx|Hx];
     [apply run_ilit in Hx as (p4 & r4 & -> & H4 & Hx)|]);
    (run_seq Hx; apply run_ilit in Hx as (p5 & r5 & -> & H5 & Hx));
    (run_seq Hx; apply run_chr in Hx as (r6 & -> & _)).
  all: unfold site_of; rewrite !lower_app.
  all: rewrite ?H1, ?H2, ?H3, ?H4, ?H5.
  all: apply list_elem_of_In in Hp; cbn in Hp.
  all: repeat (destruct Hp as [<-|Hp]; [reflexivity|]); contradiction.
Qed.

Lemma social_patterns_shape (platform : string) (pattern : Re.regex) :
  (platform, pattern) ∈ social_patterns ->
  platform ∈ map fst social_patterns
  /\ exists path, pattern = profile_url (platform ++ ".com") path.
Proof.
  intros Hin. split.
  - apply list_elem_of_In, in_map_iff. exists (platform, pattern).
    split; [reflexivity|now apply list_elem_of_In].
  - apply list_elem_of_In in Hin. cbn in Hin.
    repeat (destruct Hin as [Hin|Hin];
            [injection Hin as <- <-; eexists; reflexivity|]).
    contradiction.
Qed.

Lemma social_patterns_functional (platform : string)
    (pattern pattern' : Re.regex) :
  (platform, pattern) ∈ social_patterns ->
  (platform, pattern') ∈ social_patterns ->
  pattern = pattern'.
Proof.
  intros H1 H2. apply list_elem_of_In in H1, H2. cbn in H1, H2.
  repeat (destruct H1 as [H1|H1]; [injection H1 as <- <-|]);
    try contradiction;
    repeat (destruct H2 as [H2|H2];
            [first [discriminate H2 | now injection H2 as <-]|]);
    contradiction.
Qed.

Lemma matches_site (platform : string) (pattern : Re.regex) (h : string) :
  (platform, pattern) ∈ social_patterns ->
  Re.matches pattern h = true ->
  site_of h = Some platform.
Proof.
  intros Hin Hm.
  apply social_patterns_shape in Hin as (Hp & path & ->).
  now apply profile_url_site with path.
Qed.

(** The patterns exclude one another, so a link is filed under a platform
    exactly when its [href] matches the pattern of that platform. *)
Lemma platform_of_matches (platform : string) (pattern : Re.regex)
    (h : string) :
  (platform, pattern) ∈ social_patterns ->
  platform_of h = Some platform <-> Re.matches pattern h = true.
Proof.
  intros Hin. unfold platform_of. split.
  - destruct (find _ social_patterns) as [[p pattern']|] eqn:Hfind;
      [|discriminate].
    intros [= ->]. apply find_some in Hfind as [Hin' Hm].
    apply list_elem_of_In in Hin'.
    now rewrite (social_patterns_functional _ _ _ Hin Hin').
  - intros Hm.
    destruct (find _ social_patterns) as [[p pattern']|] eqn:Hfind.
    + apply find_some in Hfind as [Hin' Hm'].
      apply list_elem_of_In in Hin'.
      pose proof (matches_site _ _ _ Hin Hm) as H1.
      pose proof (matches_site _ _ _ Hin' Hm') as H2.
      cbn. congruence.
    + apply list_elem_of_In in Hin.
      pose proof (find_none _ _ Hfind _ Hin) as Hf. cbn in Hf. congruence.
Qed.

(** Two anchors with a Twitter profile each. *)
Definition two_twitter_anchors : list anchor :=
  [ {| href := Some "https://twitter.com/first"; text := "First" |};
    {| href := Some "https://twitter.com/second"; text := "Second" |} ].

(** C3, as stated, fails: both [href]s match the pattern of "twitter",
    and the url kept is the one of the second anchor, not of the first:
    [social_links[platform] = href] overwrites the earlier entry. *)
Lemma C3_counterexample :
  Forall (fun link =>
            exists pattern,
              social_patterns !! 1%nat = Some ("twitter", pattern)
              /\ Re.matches pattern (default EmptyString (href link))
                 = true)
         two_twitter_anchors
  /\ _extract_social_links two_twitter_anchors !! "twitter"
     = Some "https://twitter.com/second"
  /\ _extract_social_links two_twitter_anchors !! "twitter"
     <> Some "https://twitter.com/first".
Proof.
  split; [|split].
  - repeat constructor; eexists; (split; [reflexivity|]);
      vm_compute; reflexivity.
  - vm_compute. reflexivity.
  - vm_compute. discriminate.
Qed.

(** C3, amended. For every markup and every platform of
    [social_patterns], [_extract_social_links] keeps the url of the last
    anchor, in document order, whose [href] matches the pattern of the
    platform; the platform is absent when no [href] matches. *)
Theorem C3_extract_social_links_last_wins (soup : list anchor)
    (platform : string) (pattern : Re.regex) :
  (platform, pattern) ∈ social_patterns ->
  _extract_social_links soup !! platform
  = last (List.filter (Re.matches pattern)
            (map snd (links_with_href soup))).
Proof.
  intros Hin. unfold _extract_social_links.
  rewrite social_fold_lookup. f_equal.
  apply List.filter_ext. intros h.
  destruct (Re.matches pattern h) eqn:Hm.
  - apply bool_decide_eq_true. now apply (platform_of_matches _ pattern).
  - apply bool_decide_eq_false.
    rewrite (platform_of_matches _ pattern) by exact Hin. congruence.
Qed.

Lemma C3_extract_social_links_last_wins_witness :
  exists pattern,
    ("twitter", pattern) ∈ social_patterns
    /\ _extract_social_links two_twitter_anchors !! "twitter"
       = last (List.filter (Re.matches pattern)
                 (map snd (links_with_href two_twitter_anchors)))
    /\ last (List.filter (Re.matches pattern)
               (map snd (links_with_href two_twitter_anchors)))
       = Some "https://twitter.com/second".
Proof.
  eexists. split; [apply list_elem_of_further, list_elem_of_here|].
  split; [|vm_compute; reflexivity].
  apply C3_extract_social_links_last_wins.
  apply list_elem_of_further, list_elem_of_here.
Defined.

(** **** E-mail addresses *)

Definition contact_text : string :=
  "Contact: info@example.org and noreply@example.org".

(** C6. On the text of the example, with markup without [mailto:]
    anchors, the patterns find the two addresses; the one of the role
    account contains the spam indicator "noreply" and is rejected, the
    other passes the validation, and [_extract_emails] returns exactly
    that address. *)
Theorem C6_extract_emails_example (soup : list anchor) :
  mailto_links soup = [] ->
  email_candidates contact_text soup
  = {[ "info@example.org"; "noreply@example.org" ]}
  /\ Py.contains "noreply@example.org" "noreply" = true
  /\ "noreply" ∈ spam_indicators
  /\ _is_valid_email "noreply@example.org" = false
  /\ _is_valid_email "info@example.org" = true
  /\ _extract_emails contact_text soup = ["info@example.org"].
Proof.
  intros Hsoup.
  assert (Hc : email_candidates contact_text soup
               = {[ "info@example.org"; "noreply@example.org" ]}).
  { unfold email_candidates. rewrite Hsoup. cbn [fold_left].
    vm_compute. reflexivity. }
  split; [exact Hc|].
  split; [reflexivity|].
  split; [apply list_elem_of_In; vm_compute; tauto|].
  split; [vm_compute; reflexivity|].
  split; [vm_compute; reflexivity|].
  unfold _extract_emails. rewrite Hc. vm_compute. reflexivity.
Qed.

(** The markup of the test [test_extract_social_links] has no [mailto:]
    anchor; here, one plain anchor. *)
Lemma C6_extract_emails_example_witness :
  _extract_emails contact_text
    [ {| href := Some "/contact"; text := "Contact" |} ]
  = ["info@example.org"].
Proof.
  apply (C6_extract_emails_example
           [ {| href := Some "/contact"; text := "Contact" |} ]).
  vm_compute. reflexivity.
Defined.

(** **** Phone numbers *)

Definition phone_text : string := "Call 555-123-4567 or 123".

Lemma phone_candidates_spec (text m : string) :
  m ∈ phone_candidates text
  <-> exists pattern, pattern ∈ phone_patterns
                      /\ m ∈ Re.findall pattern text.
Proof.
  unfold phone_candidates, phone_patterns. cbn [fold_left].
  rewrite !elem_of_union, !elem_of_list_to_set. split.
  - intros [[H|H]|H]; [now apply elem_of_empty in H| |];
      eexists; (split; [|exact H]).
    + apply list_elem_of_here.
    + apply list_elem_of_further, list_elem_of_here.
  - intros (pattern & Hp & Hm).
    apply elem_of_cons in Hp as [->|Hp]; [left; right; exact Hm|].
    apply list_elem_of_singleton in Hp as ->. right. exact Hm.
Qed.

(** C8, as stated, fails on its own example: the first pattern matches
    the text from the space before the digits, the match passes the
    length test, and what is stored is not the matched string but the
    matched string without the space. *)
Lemma C8_counterexample :
  map (fun pattern => Re.findall pattern phone_text) phone_patterns
  = [ [" 555-123-4567"]; ["555-123-4567"] ]
  /\ digits_and_plus " 555-123-4567" = "5551234567"
  /\ _extract_phone_numbers phone_text = ["555-123-4567"]
  /\ " 555-123-4567" ∉ _extract_phone_numbers phone_text.
Proof.
  assert (H : _extract_phone_numbers phone_text = ["555-123-4567"])
    by (vm_compute; reflexivity).
  split; [vm_compute; reflexivity|].
  split; [vm_compute; reflexivity|].
  split; [exact H|].
  rewrite H. intros Hin. apply list_elem_of_singleton in Hin. discriminate.
Qed.

(** C8, amended. A string is returned by [_extract_phone_numbers] exactly
    when it is [m.strip()] for a match [m] of one of the patterns that
    keeps at least 10 characters once everything but digits and [+] is
    removed: the stored string is the match without surrounding
    whitespace, not the digits-only form. The returned list has no
    duplicates. On the text of the example it is the single string
    "555-123-4567": nothing is returned for "123". *)
Theorem C8_extract_phone_numbers_stripped :
  (forall text phone,
      phone ∈ _extract_phone_numbers text
      <-> exists pattern m,
            pattern ∈ phone_patterns
            /\ m ∈ Re.findall pattern text
            /\ (10 <= String.length (digits_and_plus m))%nat
            /\ phone = Py.strip m)
  /\ (forall text, NoDup (_extract_phone_numbers text))
  /\ _extract_phone_numbers phone_text = ["555-123-4567"].
Proof.
  split; [|split].
  - intros text phone. unfold _extract_phone_numbers.
    rewrite elem_of_elements, elem_of_list_to_set, list_elem_of_fmap.
    split.
    + intros (m & -> & Hm). apply list_elem_of_In, filter_In in Hm.
      destruct Hm as [Hm Hlen]. apply list_elem_of_In in Hm.
      apply elem_of_elements, phone_candidates_spec in Hm.
      destruct Hm as (pattern & Hp & Hm).
      exists pattern, m. repeat split; try assumption.
      now apply Nat.leb_le.
    + intros (pattern & m & Hp & Hm & Hlen & ->).
      exists m. split; [reflexivity|].
      apply list_elem_of_In, filter_In. split; [|now apply Nat.leb_le].
      apply list_elem_of_In, elem_of_elements, phone_candidates_spec.
      now exists pattern.
  - intros text. unfold _extract_phone_numbers. apply NoDup_elements.
  - vm_compute. reflexivity.
Qed.

(** **** The crawl of a domain *)

Lemma unique_in_order_spec (l : list string) (seen : gset string)
    (x : string) :
  x ∈ unique_in_order seen l <-> x ∈ l /\ x ∉ seen.
Proof.
  revert seen. induction l as [|y l IH]; intros seen; cbn [unique_in_order].
  - split; [intros H; now apply elem_of_nil in H|].
    intros [H _]. now apply elem_of_nil in H.
  - case_bool_decide as Hy.
    + rewrite IH, elem_of_cons. split; [tauto|].
      intros [[->|H] Hx]; tauto.
    + rewrite !elem_of_cons, IH, elem_of_union, elem_of_singleton.
      split.
      * intros [->|[H1 H2]]; tauto.
      * intros [[->|H1] H2]; [tauto|].
        destruct (decide (x = y)); tauto.
Qed.

Lemma _validate_emails_spec (emails : list string) (x : string) :
  x ∈ _validate_emails emails
  <-> x ∈ emails /\ _is_valid_email x = true.
Proof.
  unfold _validate_emails.
  rewrite unique_in_order_spec, !list_elem_of_In, filter_In.
  split; [tauto|]. intros H. split; [exact H|]. apply not_elem_of_empty.
Qed.

Lemma _extract_emails_valid (text : string) (soup : list anchor)
    (x : string) :
  x ∈ _extract_emails text soup -> _is_valid_email x = true.
Proof.
  unfold _extract_emails.
  rewrite elem_of_elements, elem_of_list_to_set, list_elem_of_In, filter_In.
  tauto.
Qed.

(** The arithmetic mean of a list of scores, 0 for the empty list. *)
Definition total (scores : list Q) : Q := fold_right Qplus 0%Q scores.

Definition mean (scores : list Q) : Q :=
  match scores with
  | [] => 0%Q
  | _ => (total scores / Py.of_nat (List.length scores))%Q
  end.

Local Abbreviation merge_pair :=
  (fun st '(url, contact_info) => merge st url contact_info).

(** What the loop has accumulated after merging [pages] into [st]. *)
Lemma merge_fold_sets (pages : list (string * ContactInfo.t))
    (st : crawl_state) :
  let st' := fold_left merge_pair pages st in
  (forall x, x ∈ all_emails st'
             <-> x ∈ all_emails st
                 \/ exists page, page ∈ pages
                                 /\ x ∈ ContactInfo.emails page.2)
  /\ (forall x, x ∈ all_contact_pages st'
                <-> x ∈ all_contact_pages st
                    \/ exists page, page ∈ pages
                         /\ x ∈ ContactInfo.contact_pages page.2)
  /\ (forall x, x ∈ all_phone_numbers st'
                <-> x ∈ all_phone_numbers st
                    \/ exists page, page ∈ pages
                         /\ x ∈ ContactInfo.phone_numbers page.2)
  /\ (forall x, x ∈ all_addresses st'
                <-> x ∈ all_addresses st
                    \/ exists page, page ∈ pages
                         /\ x ∈ ContactInfo.addresses page.2).
Proof.
  revert st. induction pages as [|[url info] pages IH]; intros st.
  - cbn. repeat split; intros H; try tauto;
      destruct H as [H|(page & Hp & _)]; try exact H;
      now apply elem_of_nil in Hp.
  - cbn [fold_left]. specialize (IH (merge st url info)).
    cbn zeta in IH |- *. destruct IH as (He & Hc & Hp & Ha).
    repeat split; intros H.
    all: try (first [apply He in H | apply Hc in H | apply Hp in H
                     | apply Ha in H];
              cbn [merge all_emails all_contact_pages all_phone_numbers
                     all_addresses] in H;
              rewrite elem_of_union, elem_of_list_to_set in H;
              destruct H as [[H|H]|(page & Hin & H)];
              [ left; exact H
              | right; exists (url, info); split;
                [apply list_elem_of_here|exact H]
              | right; exists page; split;
                [now apply list_elem_of_further|exact H] ]).
    all: first [apply He | apply Hc | apply Hp | apply Ha];
      cbn [merge all_emails all_contact_pages all_phone_numbers
             all_addresses];
      rewrite elem_of_union, elem_of_list_to_set;
      destruct H as [H|(page & Hin & H)]; [tauto|];
      apply elem_of_cons in Hin as [->|Hin]; [tauto|];
      right; exists page; tauto.
Qed.

Definition confidences (pages : list (string * ContactInfo.t)) : list Q :=
  map (fun page => ContactInfo.confidence_score page.2) pages.

Lemma merge_fold_scalars (pages : list (string * ContactInfo.t))
    (st : crawl_state) :
  let st' := fold_left merge_pair pages st in
  source_urls st' = source_urls st ++ map fst pages
  /\ pages_processed st'
     = (pages_processed st + Z.of_nat (List.length pages))%Z
  /\ (total_confidence st'
      == total_confidence st + total (confidences pages))%Q
  /\ forall platform,
       all_social_links st' !! platform
       = match last (omap (fun page =>
                             ContactInfo.social_links page.2 !! platform)
                          pages) with
         | Some url => Some url
         | None => all_social_links st !! platform
         end.
Proof.
  revert st. induction pages as [|[url info] pages IH]; intros st.
  - cbn [fold_left map List.length confidences total fold_right last omap
           list_omap].
    rewrite app_nil_r. split; [reflexivity|].
    split; [lia|]. split; [ring|]. reflexivity.
  - cbn [fold_left]. specialize (IH (merge st url info)).
    cbn zeta in IH |- *. destruct IH as (Hs & Hn & Ht & Hl).
    rewrite Hs, Hn, Ht. cbn [merge source_urls pages_processed
                               total_confidence all_social_links].
    split; [now rewrite <- app_assoc|].
    split; [cbn [List.length]; lia|].
    split.
    { change (total (confidences ((url, info) :: pages)))
        with (ContactInfo.confidence_score info
              + total (confidences pages))%Q.
      ring. }
    intros platform. rewrite Hl. cbn [merge all_social_links omap list_omap snd].
    rewrite lookup_union.
    destruct (ContactInfo.social_links info !! platform) as [v|] eqn:Hv.
    + rewrite last_cons. destruct (last _); [reflexivity|].
      destruct (all_social_links st !! platform); reflexivity.
    + destruct (last _); [reflexivity|].
      destruct (all_social_links st !! platform); reflexivity.
Qed.

Section DomainCrawl.

Variable BeautifulSoup : string -> list anchor.
Variable urljoin : string -> string -> Py.except string.
Variable fetch_page : string -> Py.except (option PageContent.t).

Local Abbreviation extract_page :=
  (extract_contacts_from_page BeautifulSoup urljoin).
Local Abbreviation step := (crawl_step BeautifulSoup urljoin fetch_page).

(** The contact information merged for a url: that of the page fetched,
    when the fetch returns a page with status 200 and the extraction
    returns. *)
Definition processed (url : string) : option ContactInfo.t :=
  match fetch_page url with
  | Py.Return (Some page) =>
      if (PageContent.status_code page =? 200)%Z
      then match extract_page (Some page) with
           | Py.Return contact_info => Some contact_info
           | Py.Raise _ => None
           end
      else None
  | _ => None
  end.

Definition processed_pages (urls : list string)
  : list (string * ContactInfo.t) :=
  omap (fun url => pair url <$> processed url) urls.

Lemma crawl_step_spec (st : crawl_state) (url : string) :
  step st url
  = match processed url with
    | Some contact_info => merge st url contact_info
    | None => st
    end.
Proof.
  unfold crawl_step, processed.
  destruct (fetch_page url) as [[page|]|]; try reflexivity.
  destruct (PageContent.status_code page =? 200)%Z; [|reflexivity].
  destruct (extract_page (Some page)); reflexivity.
Qed.

Lemma crawl_fold_spec (urls : list string) (st : crawl_state) :
  fold_left step urls st
  = fold_left (fun st '(url, contact_info) => merge st url contact_info)
      (processed_pages urls) st.
Proof.
  revert st. induction urls as [|url urls IH]; intros st; [reflexivity|].
  cbn [fold_left]. rewrite IH, crawl_step_spec.
  unfold processed_pages. cbn [omap list_omap].
  destruct (processed url); reflexivity.
Qed.

Lemma processed_spec (url : string) (info : ContactInfo.t) :
  processed url = Some info
  <-> exists page,
        fetch_page url = Py.Return (Some page)
        /\ PageContent.status_code page = 200%Z
        /\ extract_page (Some page) = Py.Return info.
Proof.
  unfold processed. split.
  - destruct (fetch_page url) as [[page|]|]; try discriminate.
    destruct (PageContent.status_code page =? 200)%Z eqn:Hs;
      [|discriminate].
    destruct (extract_page (Some page)) as [contact_info|e] eqn:He;
      [|discriminate].
    intros [= <-]. exists page. split; [reflexivity|].
    split; [now apply Z.eqb_eq|exact He].
  - intros (page & -> & Hs & He). now rewrite Hs, He.
Qed.

Lemma processed_pages_urls (urls : list string) (url : string) :
  url ∈ map fst (processed_pages urls)
  <-> url ∈ urls
      /\ exists page info,
           fetch_page url = Py.Return (Some page)
           /\ PageContent.status_code page = 200%Z
           /\ extract_page (Some page) = Py.Return info.
Proof.
  unfold processed_pages. rewrite list_elem_of_fmap. split.
  - intros ([u info] & -> & Hin).
    apply list_elem_of_omap in Hin as (u' & Hu' & Heq).
    destruct (processed u') as [info'|] eqn:Hp; [|discriminate].
    cbn in Heq. injection Heq as -> ->. cbn [fst].
    split; [exact Hu'|].
    apply processed_spec in Hp as (page & Hf & Hs & He).
    now exists page, info.
  - intros (Hin & page & info & Hf & Hs & He).
    exists (url, info). split; [reflexivity|].
    apply list_elem_of_omap. exists url. split; [exact Hin|].
    replace (processed url) with (Some info); [reflexivity|].
    symmetry. apply processed_spec. now exists page.
Qed.

Lemma extract_page_emails_valid (page_content : option PageContent.t)
    (info : ContactInfo.t) (x : string) :
  extract_page page_content = Py.Return info ->
  x ∈ ContactInfo.emails info ->
  _is_valid_email x = true.
Proof.
  unfold extract_contacts_from_page.
  destruct page_content as [page|];
    [|intros [= <-] H; now apply elem_of_nil in H].
  destruct (is_empty (PageContent.html page));
    [intros [= <-] H; now apply elem_of_nil in H|].
  destruct (_extract_contact_pages _ _ _) as [contact_pages|e];
    [|discriminate].
  intros [= <-]. apply _extract_emails_valid.
Qed.

Lemma processed_pages_info (urls : list string) (url : string)
    (info : ContactInfo.t) :
  (url, info) ∈ processed_pages urls ->
  exists page,
    fetch_page url = Py.Return (Some page)
    /\ PageContent.status_code page = 200%Z
    /\ extract_contacts_from_page BeautifulSoup urljoin (Some page)
       = Py.Return info.
Proof.
  unfold processed_pages. intros Hin.
  apply list_elem_of_omap in Hin as (u & _ & Heq).
  destruct (processed u) as [info'|] eqn:Hp; [|discriminate].
  cbn in Heq. injection Heq as -> ->.
  now apply processed_spec in Hp.
Qed.

(** C4, amended. [extract_contacts_from_domain] raises only when
    [urljoin] raises while the candidate urls are built. Otherwise it
    returns, and the pages merged are those of the candidate urls whose
    fetch returns a page with status code 200 on which
    [extract_contacts_from_page] returns, and no others: a page with
    another status, and a page whose extraction raises, is skipped. The
    source urls are the urls of the merged pages in fetch order; an
    e-mail address, contact page, phone number or address is in the
    result exactly when it is in the output for one of these pages; a
    platform has the url of the last of these pages that has the
    platform; and the confidence score is the arithmetic mean of the
    scores of these pages, 0 when there is none. *)
Theorem C4_extract_contacts_from_domain_status_200
    (domain : string) (max_pages : Z) :
  match urls_to_check urljoin domain max_pages with
  | Py.Raise e =>
      extract_contacts_from_domain BeautifulSoup urljoin fetch_page
        domain max_pages
      = Py.Raise e
  | Py.Return urls =>
      let pages := processed_pages urls in
      exists result,
        extract_contacts_from_domain BeautifulSoup urljoin fetch_page
          domain max_pages
        = Py.Return result
        /\ (forall url,
              url ∈ map fst pages
              <-> url ∈ urls
                  /\ exists page info,
                       fetch_page url = Py.Return (Some page)
                       /\ PageContent.status_code page = 200%Z
                       /\ extract_contacts_from_page BeautifulSoup urljoin
                            (Some page)
                          = Py.Return info)
        /\ (forall url info,
              (url, info) ∈ pages ->
              exists page,
                fetch_page url = Py.Return (Some page)
                /\ PageContent.status_code page = 200%Z
                /\ extract_contacts_from_page BeautifulSoup urljoin
                     (Some page)
                   = Py.Return info)
        /\ ContactInfo.source_urls result = map fst pages
        /\ (forall x, x ∈ ContactInfo.emails result
                      <-> exists page, page ∈ pages
                                       /\ x ∈ ContactInfo.emails page.2)
        /\ (forall x, x ∈ ContactInfo.contact_pages result
                      <-> exists page,
                            page ∈ pages
                            /\ x ∈ ContactInfo.contact_pages page.2)
        /\ (forall x, x ∈ ContactInfo.phone_numbers result
                      <-> exists page,
                            page ∈ pages
                            /\ x ∈ ContactInfo.phone_numbers page.2)
        /\ (forall x, x ∈ ContactInfo.addresses result
                      <-> exists page, page ∈ pages
                                       /\ x ∈ ContactInfo.addresses page.2)
        /\ (forall platform,
              ContactInfo.social_links result !! platform
              = last (omap (fun page =>
                              ContactInfo.social_links page.2 !! platform)
                           pages))
        /\ (ContactInfo.confidence_score result
            == mean (confidences pages))%Q
  end.
Proof.
  unfold extract_contacts_from_domain.
  destruct (urls_to_check urljoin domain max_pages) as [urls|e];
    [|reflexivity].
  set (pages := processed_pages urls). cbn [Py.bind].
  eexists. split; [reflexivity|].
  split; [apply processed_pages_urls|].
  split; [apply processed_pages_info|].
  unfold crawl_urls. rewrite crawl_fold_spec. fold pages.
  cbn [ContactInfo.source_urls ContactInfo.emails
         ContactInfo.contact_pages ContactInfo.phone_numbers
         ContactInfo.addresses ContactInfo.social_links
         ContactInfo.confidence_score].
  destruct (merge_fold_sets pages crawl_init) as (He & Hc & Hp & Ha).
  destruct (merge_fold_scalars pages crawl_init) as (Hs & Hn & Ht & Hl).
  cbn zeta in *.
  set (st := fold_left _ pages crawl_init) in *.
  assert (Hempty : forall (x : string) (P : Prop), x ∈ (∅ : gset string) \/ P <-> P).
  { intros x P. split; [|tauto]. intros [H|H]; [|exact H].
    now apply elem_of_empty in H. }
  split; [exact Hs|].
  split.
  { intros x. rewrite _validate_emails_spec, elem_of_elements, He.
    cbn [crawl_init all_emails]. rewrite Hempty. split; [tauto|].
    intros (page & Hin & Hx). split; [now exists page|].
    destruct page as [url info].
    apply processed_pages_info in Hin as (pc & _ & _ & Hext).
    eapply extract_page_emails_valid; [exact Hext|exact Hx]. }
  split; [intros x; rewrite elem_of_elements, Hc; apply Hempty|].
  split; [intros x; rewrite elem_of_elements, Hp; apply Hempty|].
  split; [intros x; rewrite elem_of_elements, Ha; apply Hempty|].
  split.
  { intros platform. rewrite Hl. cbn [crawl_init all_social_links].
    rewrite lookup_empty. now destruct (last _). }
  rewrite Hn. cbn [crawl_init pages_processed total_confidence] in *.
  destruct pages as [|page pages'] eqn:Hpages.
  - reflexivity.
  - replace (0 <? 0 + Z.of_nat (List.length (page :: pages')))%Z
      with true by (symmetry; apply Z.ltb_lt; cbn [List.length]; lia).
    rewrite Ht.
    change (mean (confidences (page :: pages')))
      with (total (confidences (page :: pages'))
            / Py.of_nat (List.length (confidences (page :: pages'))))%Q.
    replace (List.length (confidences (page :: pages')))
      with (List.length (page :: pages'))
      by (unfold confidences; now rewrite List.length_map).
    unfold Py.of_nat. rewrite Z.add_0_l, Qplus_0_l. reflexivity.
Qed.
End DomainCrawl.

(** A page as the fetcher returns it for a response [204] whose body has
    contact details, and a fetcher that returns it for every url. *)
Definition contact_page (status_code : Z) : PageContent.t :=
  {| PageContent.url := "https://example.org";
     PageContent.title := "Example";
     PageContent.content := contact_text;
     PageContent.html := "<html><body>" ++ contact_text ++ "</body></html>";
     PageContent.status_code := status_code;
     PageContent.response_time := 1.0;
     PageContent.headers := ∅;
     PageContent.fetch_timestamp := 0;
     PageContent.error := None |}.

(** Stand-ins for the collaborators in closed examples: a parser for
    markup without anchors, and [urljoin] for a base without path and an
    absolute path. *)
Definition no_anchors (html : string) : list anchor := [].
Definition join_path (base path : string) : Py.except string :=
  Py.Return (base ++ path)%string.

(** C4, as stated, fails: a page fetched with status 204, a status
    between 200 and 299, is not processed. Its url is not a source url,
    its e-mail address is not in the result, and the confidence returned
    is 0 although the score of the page is not. *)
Lemma C4_counterexample :
  let fetch_page := fun _ : string => Py.Return (Some (contact_page 204)) in
  exists result page_info,
    extract_contacts_from_domain no_anchors join_path fetch_page
      "example.org" 1
    = Py.Return result
    /\ extract_contacts_from_page no_anchors join_path
         (Some (contact_page 204))
       = Py.Return page_info
    /\ urls_to_check join_path "example.org" 1
       = Py.Return ["https://example.org"]
    /\ (200 <= PageContent.status_code (contact_page 204) < 300)%Z
    /\ ContactInfo.emails page_info = ["info@example.org"]
    /\ ~ (ContactInfo.confidence_score page_info == 0)%Q
    /\ ContactInfo.source_urls result = []
    /\ ContactInfo.emails result = []
    /\ ContactInfo.confidence_score result = 0%Q.
Proof.
  cbv zeta.
  destruct (extract_contacts_from_domain no_anchors join_path
              (fun _ => Py.Return (Some (contact_page 204)))
              "example.org" 1) as [result|e] eqn:Hr;
    [|vm_compute in Hr; discriminate Hr].
  destruct (extract_contacts_from_page no_anchors join_path
              (Some (contact_page 204))) as [page_info|e] eqn:Hp;
    [|vm_compute in Hp; discriminate Hp].
  exists result, page_info.
  split; [reflexivity|]. split; [reflexivity|].
  vm_compute in Hr. injection Hr as <-.
  vm_compute in Hp. injection Hp as <-.
  split; [vm_compute; reflexivity|].
  split; [cbn; lia|].
  split; [reflexivity|].
  split; [vm_compute; discriminate|].
  split; [reflexivity|].
  split; reflexivity.
Qed.

(** The same page fetched with status 200 is processed. *)
Lemma C4_extract_contacts_from_domain_status_200_witness :
  let fetch_page := fun _ : string => Py.Return (Some (contact_page 200)) in
  exists result,
    extract_contacts_from_domain no_anchors join_path fetch_page
      "example.org" 1
    = Py.Return result
    /\ ContactInfo.source_urls result
       = map fst (processed_pages no_anchors join_path fetch_page
                    ["https://example.org"])
    /\ ContactInfo.source_urls result = ["https://example.org"].
Proof.
  cbv zeta.
  pose proof (C4_extract_contacts_from_domain_status_200 no_anchors
                join_path (fun _ => Py.Return (Some (contact_page 200)))
                "example.org" 1) as H.
  change (urls_to_check join_path "example.org" 1)
    with (@Py.Return (list string) ["https://example.org"]) in H.
  cbv beta iota zeta in H.
  destruct H as (result & Hresult & _ & _ & Hsource & _).
  exists result. split; [exact Hresult|]. split; [exact Hsource|].
  rewrite Hsource. vm_compute. reflexivity.
Defined.

(* ===================================================================== *)
(** ** Further properties                                                  *)
(* ===================================================================== *)


(** *** Keyword extraction *)

(** The tokens that [_extract_keywords] counts. *)
Definition keyword_tokens (text : string) : list string :=
  List.filter (fun word => negb (mem word stop_words)
                           && (2 <? String.length word)%nat)
    (Re.findall (Re.seqs [Re.WordB; Re.plus Re.word; Re.WordB])
       (Py.lower text)).

Definition word_freq_of (tokens : list string) : list (string * Z) :=
  fold_left (fun freq w => count_word w freq) tokens [].

(** The count a frequency table holds for a word, 0 when absent. *)
Definition freq_get (freq : list (string * Z)) (w : string) : Z :=
  match find (fun p => String.eqb w (fst p)) freq with
  | Some (_, n) => n
  | None => 0%Z
  end.

Lemma count_word_keys (w : string) (freq : list (string * Z)) :
  map fst (count_word w freq)
  = if bool_decide (w ∈ map fst freq) then map fst freq
    else map fst freq ++ [w].
Proof.
  induction freq as [|[w' n] freq IH]; cbn [count_word map fst].
  - rewrite bool_decide_eq_false_2; [reflexivity|apply not_elem_of_nil].
  - destruct (String.eqb w w') eqn:E.
    + apply String.eqb_eq in E as ->.
      rewrite bool_decide_eq_true_2 by apply list_elem_of_here. reflexivity.
    + apply String.eqb_neq in E. cbn [map fst]. rewrite IH.
      case_bool_decide as H1; case_bool_decide as H2; try reflexivity.
      * exfalso. apply H2. now apply list_elem_of_further.
      * exfalso. apply elem_of_cons in H2 as [H2|H2]; [congruence|tauto].
Qed.

Lemma count_word_get (w w' : string) (freq : list (string * Z)) :
  freq_get (count_word w freq) w'
  = (freq_get freq w' + if String.eqb w' w then 1 else 0)%Z.
Proof.
  unfold freq_get.
  induction freq as [|[v n] freq IH]; cbn [count_word find fst].
  - destruct (String.eqb w' w); reflexivity.
  - destruct (String.eqb w v) eqn:E.
    + apply String.eqb_eq in E as ->. cbn [find fst].
      destruct (String.eqb w' v); [reflexivity|]. lia.
    + cbn [find fst]. destruct (String.eqb w' v) eqn:E'; [|exact IH].
      apply String.eqb_eq in E' as ->.
      rewrite String.eqb_sym, E. lia.
Qed.

Lemma word_freq_of_keys (tokens : list string) :
  NoDup (map fst (word_freq_of tokens))
  /\ forall w, w ∈ map fst (word_freq_of tokens) <-> w ∈ tokens.
Proof.
  unfold word_freq_of.
  induction tokens as [|t tokens IH] using rev_ind.
  - split; [constructor|]. reflexivity.
  - rewrite fold_left_app. cbn [fold_left]. destruct IH as [Hnd Hin].
    rewrite count_word_keys. case_bool_decide as Ht.
    + split; [exact Hnd|]. intros w. rewrite Hin, elem_of_app.
      split; [tauto|]. intros [H|H]; [exact H|].
      apply list_elem_of_singleton in H as ->. now apply Hin.
    + split.
      * apply NoDup_app. split; [exact Hnd|]. split; [|apply NoDup_singleton].
        intros x Hx Hx'. apply list_elem_of_singleton in Hx' as ->. tauto.
      * intros w. rewrite !elem_of_app, Hin. reflexivity.
Qed.

Lemma word_freq_of_get (tokens : list string) (w : string) :
  freq_get (word_freq_of tokens) w
  = Z.of_nat (count_occ string_dec tokens w).
Proof.
  unfold word_freq_of.
  induction tokens as [|t tokens IH] using rev_ind; [reflexivity|].
  rewrite fold_left_app. cbn [fold_left]. rewrite count_word_get, IH.
  rewrite count_occ_app. cbn [count_occ].
  destruct (string_dec t w) as [->|Hne].
  - rewrite String.eqb_refl. lia.
  - destruct (String.eqb w t) eqn:E; [|lia].
    apply String.eqb_eq in E. congruence.
Qed.

Lemma freq_get_elem (freq : list (string * Z)) (w : string) (n : Z) :
  NoDup (map fst freq) -> (w, n) ∈ freq -> freq_get freq w = n.
Proof.
  unfold freq_get. induction freq as [|[v m] freq IH]; intros Hnd Hin.
  - now apply elem_of_nil in Hin.
  - cbn [map fst] in Hnd. apply NoDup_cons in Hnd as [Hv Hnd].
    cbn [find fst]. apply elem_of_cons in Hin as [Heq|Hin].
    + injection Heq as -> ->. now rewrite String.eqb_refl.
    + destruct (String.eqb w v) eqn:E; [|now apply IH].
      apply String.eqb_eq in E as ->. exfalso. apply Hv.
      apply list_elem_of_fmap. now exists (v, n).
Qed.

Lemma slice_to_firstn {A} (n : Z) (l : list A) :
  exists k, Py.slice_to n l = firstn k l.
Proof. unfold Py.slice_to. destruct (0 <=? n)%Z; eexists; reflexivity. Qed.

Lemma slice_to_length {A} (n : Z) (l : list A) :
  (0 <= n)%Z -> (Z.of_nat (List.length (Py.slice_to n l)) <= n)%Z.
Proof.
  intros Hn. unfold Py.slice_to.
  replace (0 <=? n)%Z with true by (symmetry; now apply Z.leb_le).
  rewrite length_firstn. lia.
Qed.

Lemma _extract_keywords_unfold (text : string) (max_keywords : Z) :
  text <> EmptyString ->
  _extract_keywords text max_keywords
  = map fst (Py.slice_to max_keywords
               (Py.sorted (fun a b => (snd b <=? snd a)%Z)
                  (word_freq_of (keyword_tokens text)))).
Proof. intros H. destruct text; [congruence|reflexivity]. Qed.

Lemma elem_of_firstn {A} (k : nat) (l : list A) (x : A) :
  x ∈ firstn k l -> x ∈ l.
Proof.
  intros H. rewrite <- (firstn_skipn k l). apply elem_of_app. now left.
Qed.

Lemma StronglySorted_firstn {A} (R : A -> A -> Prop) (k : nat) (l : list A) :
  StronglySorted R l -> StronglySorted R (firstn k l).
Proof.
  intros H. revert k. induction H as [|x l Hl IH Hx]; intros [|k];
    cbn [firstn]; try constructor.
  - apply IH.
  - apply Forall_forall. intros y Hy. rewrite Forall_forall in Hx.
    apply Hx. eapply elem_of_firstn. exact Hy.
Qed.

Lemma StronglySorted_map {A B} (R : B -> B -> Prop) (f : A -> B)
    (l : list A) :
  StronglySorted (fun a b => R (f a) (f b)) l -> StronglySorted R (map f l).
Proof.
  induction 1 as [|x l Hl IH Hx]; cbn [map]; constructor; [exact IH|].
  apply Forall_forall. intros y Hy. apply list_elem_of_fmap in Hy as (z & -> & Hz).
  rewrite Forall_forall in Hx. now apply Hx.
Qed.

(** The keywords are distinct, none is a stop word, each has more than two
    characters, and they come in order of non-increasing number of
    occurrences among the counted tokens; there are at most
    [max_keywords] of them when that bound is not negative. *)
Theorem extract_keywords_spec (text : string) (max_keywords : Z) :
  let keywords := _extract_keywords text max_keywords in
  let occurrences := count_occ string_dec (keyword_tokens text) in
  NoDup keywords
  /\ (forall w, w ∈ keywords ->
                mem w stop_words = false /\ (2 < String.length w)%nat
                /\ (0 < occurrences w)%nat)
  /\ StronglySorted (fun a b => (occurrences b <= occurrences a)%nat)
       keywords
  /\ ((0 <= max_keywords)%Z ->
      (Z.of_nat (List.length keywords) <= max_keywords)%Z).
Proof.
  cbv zeta. destruct (decide (text = EmptyString)) as [->|Htext].
  { change (_extract_keywords EmptyString max_keywords) with (@nil string).
    split; [constructor|]. split; [|split; [constructor|cbn; lia]].
    intros w Hw. now apply elem_of_nil in Hw. }
  rewrite _extract_keywords_unfold by exact Htext.
  set (tokens := keyword_tokens text).
  set (le := fun a b : string * Z => (snd b <=? snd a)%Z).
  destruct (word_freq_of_keys tokens) as [Hnd Hkeys].
  pose proof (sorted_perm le (word_freq_of tokens)) as Hperm.
  destruct (slice_to_firstn max_keywords (Py.sorted le (word_freq_of tokens)))
    as [k Hk].
  rewrite Hk.
  assert (Hsub : forall p, p ∈ firstn k (Py.sorted le (word_freq_of tokens))
                           -> p ∈ word_freq_of tokens).
  { intros p Hp. apply elem_of_firstn in Hp. now rewrite Hperm. }
  assert (Hnd' : NoDup (map fst (Py.sorted le (word_freq_of tokens)))).
  { now rewrite <- Hperm. }
  split; [|split; [|split]].
  - rewrite <- (firstn_skipn k (Py.sorted le _)), map_app in Hnd'.
    now apply NoDup_app in Hnd' as [H _].
  - intros w Hw. apply list_elem_of_fmap in Hw as ([w' n] & -> & Hp).
    apply Hsub in Hp. cbn [fst].
    assert (Hin : w' ∈ tokens).
    { apply Hkeys. apply list_elem_of_fmap. now exists (w', n). }
    pose proof Hin as Hin'. unfold tokens, keyword_tokens in Hin'.
    apply list_elem_of_In, filter_In in Hin' as [_ Hf].
    apply andb_true_iff in Hf as [H1 H2].
    apply negb_true_iff in H1. apply Nat.ltb_lt in H2.
    repeat split; try assumption.
    apply count_occ_In. now apply list_elem_of_In.
  - apply StronglySorted_map, StronglySorted_firstn.
    assert (Hs : StronglySorted (fun a b => le a b = true)
                   (Py.sorted le (word_freq_of tokens))).
    { apply sorted_sorted; unfold le.
      - intros a b H. apply Z.leb_le. apply Z.leb_gt in H. lia.
      - intros a b c H1 H2. apply Z.leb_le. apply Z.leb_le in H1, H2. lia. }
    assert (Hcount : forall p, p ∈ Py.sorted le (word_freq_of tokens) ->
               snd p = Z.of_nat (count_occ string_dec tokens (fst p))).
    { intros [w n] Hp. cbn [fst snd].
      rewrite <- word_freq_of_get. symmetry. apply freq_get_elem; [exact Hnd|].
      apply list_elem_of_In. rewrite Hperm. now apply list_elem_of_In. }
    clear - Hs Hcount. induction Hs as [|p l Hl IH Hp]; constructor.
    + apply IH. intros q Hq. apply Hcount. now apply list_elem_of_further.
    + apply Forall_forall. intros q Hq. rewrite Forall_forall in Hp.
      pose proof (Hp q Hq) as Hle. unfold le in Hle. apply Z.leb_le in Hle.
      rewrite (Hcount p), (Hcount q) in Hle;
        [lia|now apply list_elem_of_further|apply list_elem_of_here].
  - intros Hmax. rewrite <- Hk, length_map. now apply slice_to_length.
Qed.

(** *** Strings *)

Lemma app_cons_s (c : ascii) (a b : string) :
  (String c a ++ b)%string = String c (a ++ b)%string.
Proof. reflexivity. Qed.

Lemma app_nil_l_s (a : string) : (EmptyString ++ a)%string = a.
Proof. reflexivity. Qed.

Lemma app_nil_r_s (a : string) : (a ++ EmptyString)%string = a.
Proof.
  induction a as [|c a IH]; [reflexivity|]. now rewrite app_cons_s, IH.
Qed.

Lemma app_assoc_s (a b c : string) :
  ((a ++ b) ++ c)%string = (a ++ (b ++ c))%string.
Proof.
  induction a as [|x a IH]; [reflexivity|]. now rewrite !app_cons_s, IH.
Qed.

Lemma length_app_s (a b : string) :
  String.length (a ++ b) = (String.length a + String.length b)%nat.
Proof.
  induction a as [|x a IH]; [reflexivity|].
  rewrite app_cons_s. cbn [String.length]. now rewrite IH.
Qed.

Lemma take_chars_app (a b : string) :
  Py.take_chars (String.length a) (a ++ b) = a.
Proof.
  induction a as [|x a IH]; [now destruct b|].
  rewrite app_cons_s. cbn [String.length Py.take_chars]. now rewrite IH.
Qed.

Lemma drop_chars_app (a b : string) :
  Py.drop_chars (String.length a) (a ++ b) = b.
Proof.
  induction a as [|x a IH]; [reflexivity|].
  rewrite app_cons_s. cbn [String.length Py.drop_chars]. exact IH.
Qed.

Lemma startswith_spec (s p : string) :
  Py.startswith s p = true <-> exists post, s = (p ++ post)%string.
Proof.
  revert s. induction p as [|a p IH]; intros s; cbn [Py.startswith].
  - split; [|reflexivity]. intros _. now exists s.
  - destruct s as [|b s].
    + split; [discriminate|]. intros [post H]. discriminate.
    + rewrite andb_true_iff, Ascii.eqb_eq, IH. split.
      * intros [-> [post ->]]. now exists post.
      * intros [post H]. rewrite app_cons_s in H. injection H as -> ->.
        split; [reflexivity|]. now exists post.
Qed.

(** [p in s]: [s] is [pre ++ p ++ post]. *)
Lemma contains_spec (s p : string) :
  Py.contains s p = true
  <-> exists pre post, s = (pre ++ p ++ post)%string.
Proof.
  induction s as [|c s IH]; cbn [Py.contains]; rewrite orb_true_iff.
  - rewrite startswith_spec. split.
    + intros [[post H]|H]; [|discriminate]. now exists EmptyString, post.
    + intros (pre & post & H). left.
      destruct pre; [now exists post|discriminate].
  - rewrite startswith_spec, IH. split.
    + intros [[post H]|(pre & post & H)].
      * now exists EmptyString, post.
      * exists (String c pre), post. now rewrite H.
    + intros (pre & post & H). destruct pre as [|x pre].
      * left. now exists post.
      * right. rewrite app_cons_s in H. injection H as -> ->.
        now exists pre, post.
Qed.

Lemma contains_refl (s : string) : Py.contains s s = true.
Proof.
  apply contains_spec. exists EmptyString, EmptyString.
  now rewrite app_nil_r_s.
Qed.

Lemma contains_trans (a b c : string) :
  Py.contains a b = true -> Py.contains b c = true ->
  Py.contains a c = true.
Proof.
  rewrite !contains_spec.
  intros (p1 & q1 & ->) (p2 & q2 & ->).
  exists (p1 ++ p2)%string, (q2 ++ q1)%string.
  now rewrite !app_assoc_s.
Qed.

Lemma lstrip_suffix (s : string) :
  exists pre, s = (pre ++ Py.lstrip s)%string.
Proof.
  induction s as [|c s [pre IH]]; cbn [Py.lstrip].
  - now exists EmptyString.
  - destruct (Py.is_space c).
    + exists (String c pre). now rewrite app_cons_s, <- IH.
    + now exists EmptyString.
Qed.

Lemma rstrip_prefix (s : string) :
  exists post, s = (Py.rstrip s ++ post)%string.
Proof.
  induction s as [|c s [post IH]]; cbn [Py.rstrip].
  - now exists EmptyString.
  - destruct (Py.rstrip s) as [|d t] eqn:E.
    + destruct (Py.is_space c).
      * exists (String c s). reflexivity.
      * exists s. reflexivity.
    + exists post. now rewrite app_cons_s, <- IH.
Qed.

Lemma strip_contains (s : string) : Py.contains s (Py.strip s) = true.
Proof.
  apply contains_spec. unfold Py.strip.
  destruct (lstrip_suffix s) as [pre Hpre].
  destruct (rstrip_prefix (Py.lstrip s)) as [post Hpost].
  exists pre, post. now rewrite <- Hpost.
Qed.

(** *** The matcher *)

(** A match continues on a suffix of the text it started on. *)
Lemma run_suffix {A} (r : Re.regex) (prev : option ascii) (s : string)
    (k : option ascii -> string -> option A) (x : A) :
  Re.run r prev s k = Some x ->
  exists prev' pre rest,
    s = (pre ++ rest)%string /\ k prev' rest = Some x.
Proof.
  revert prev s k.
  induction r as [|p|r1 IH1 r2 IH2|r1 IH1 r2 IH2|r1 IH1| | |];
    intros prev s k H; cbn [Re.run] in H.
  - now exists prev, EmptyString, s.
  - destruct s as [|c s]; [discriminate|].
    destruct (p c); [|discriminate].
    now exists (Some c), (String c EmptyString), s.
  - apply IH1 in H as (p1 & pre1 & rest1 & -> & H).
    apply IH2 in H as (p2 & pre2 & rest2 & -> & H).
    exists p2, (pre1 ++ pre2)%string, rest2. now rewrite app_assoc_s.
  - destruct (Re.run r1 prev s k) eqn:E.
    + injection H as ->. now apply IH1 in E.
    + now apply IH2 in H.
  - revert H. generalize (String.length s) at 1. intros fuel. revert prev s.
    induction fuel as [|fuel IHf]; intros prev s H.
    + now exists prev, EmptyString, s.
    + match type of H with
      | match ?m with _ => _ end = _ => destruct m eqn:E
      end.
      * injection H as ->.
        apply IH1 in E as (p1 & pre1 & rest1 & -> & E).
        destruct (_ <? _)%nat; [|discriminate].
        apply IHf in E as (p2 & pre2 & rest2 & -> & E).
        exists p2, (pre1 ++ pre2)%string, rest2. now rewrite app_assoc_s.
      * now exists prev, EmptyString, s.
  - destruct (Re.at_word_boundary prev s); [|discriminate].
    now exists prev, EmptyString, s.
  - destruct prev; [discriminate|]. now exists None, EmptyString, s.
  - destruct (Re.at_end s); [|discriminate].
    now exists prev, EmptyString, s.
Qed.

Lemma match_here_suffix (r : Re.regex) (prev : option ascii)
    (s rest : string) :
  Re.match_here r prev s = Some rest ->
  exists pre, s = (pre ++ rest)%string
              /\ Py.take_chars (String.length s - String.length rest) s
                 = pre.
Proof.
  unfold Re.match_here. intros H.
  apply run_suffix in H as (_ & pre & rest' & -> & [= ->]).
  exists pre. split; [reflexivity|].
  rewrite length_app_s.
  replace (String.length pre + String.length rest - String.length rest)%nat
    with (String.length pre) by lia.
  apply take_chars_app.
Qed.

(** Every string returned by [re.findall] occurs in the text. *)
Lemma findall_from_contains (fuel : nat) (r : Re.regex)
    (prev : option ascii) (s m : string) :
  m ∈ Re.findall_from fuel r prev s -> Py.contains s m = true.
Proof.
  revert prev s. induction fuel as [|fuel IH]; intros prev s H;
    cbn [Re.findall_from] in H; [now apply elem_of_nil in H|].
  destruct (Re.match_here r prev s) as [rest|] eqn:E.
  - apply match_here_suffix in E as (pre & Hs & Hpre).
    rewrite Hpre in H.
    assert (Hpre_in : Py.contains s pre = true).
    { apply contains_spec. exists EmptyString, rest. now rewrite Hs. }
    assert (Hrest : forall m', Py.contains rest m' = true ->
                               Py.contains s m' = true).
    { intros m' Hm. eapply contains_trans; [|exact Hm].
      apply contains_spec. exists pre, EmptyString.
      now rewrite app_nil_r_s. }
    destruct (String.length s - String.length rest)%nat.
    + destruct s as [|c s'].
      * apply list_elem_of_singleton in H as ->. exact Hpre_in.
      * apply elem_of_cons in H as [->|H]; [exact Hpre_in|].
        apply IH in H. eapply contains_trans; [|exact H].
        apply contains_spec. exists (String c EmptyString), EmptyString.
        now rewrite app_nil_r_s.
    + apply elem_of_cons in H as [->|H]; [exact Hpre_in|].
      apply Hrest. now apply IH in H.
  - destruct s as [|c s']; [now apply elem_of_nil in H|].
    apply IH in H. eapply contains_trans; [|exact H].
    apply contains_spec. exists (String c EmptyString), EmptyString.
    now rewrite app_nil_r_s.
Qed.

Lemma findall_contains (r : Re.regex) (s m : string) :
  m ∈ Re.findall r s -> Py.contains s m = true.
Proof. apply findall_from_contains. Qed.

(** The characters of a string that satisfy a test. *)
Fixpoint string_filter (q : ascii -> bool) (s : string) : string :=
  match s with
  | EmptyString => EmptyString
  | String c s' => if q c then String c (string_filter q s')
                   else string_filter q s'
  end.

(** Replacing every character of a class by nothing leaves the other
    characters. *)
Lemma sub_class_empty (p : ascii -> bool) (s : string) :
  Re.sub (Re.Cls p) EmptyString s = string_filter (fun c => negb (p c)) s.
Proof.
  unfold Re.sub.
  assert (H : forall fuel prev s,
             (String.length s < fuel)%nat ->
             Re.sub_from fuel (Re.Cls p) EmptyString prev s
             = string_filter (fun c => negb (p c)) s).
  { clear s. induction fuel as [|fuel IH]; intros prev s Hlen; [lia|].
    destruct s as [|c s]; [reflexivity|].
    cbn [String.length] in Hlen.
    cbn [Re.sub_from Re.match_here Re.run string_filter].
    destruct (p c); cbn [negb].
    - replace (String.length (String c s) - String.length s)%nat with 1%nat
        by (cbn [String.length]; lia).
      rewrite app_nil_l_s. apply IH. lia.
    - f_equal. apply IH. lia. }
  apply H. lia.
Qed.

Lemma string_filter_lstrip (q : ascii -> bool) (s : string) :
  (forall c, Py.is_space c = true -> q c = false) ->
  string_filter q (Py.lstrip s) = string_filter q s.
Proof.
  intros Hq. induction s as [|c s IH]; [reflexivity|].
  cbn [Py.lstrip]. destruct (Py.is_space c) eqn:E; [|reflexivity].
  cbn [string_filter]. now rewrite (Hq c E).
Qed.

Lemma string_filter_rstrip (q : ascii -> bool) (s : string) :
  (forall c, Py.is_space c = true -> q c = false) ->
  string_filter q (Py.rstrip s) = string_filter q s.
Proof.
  intros Hq. induction s as [|c s IH]; [reflexivity|].
  cbn [Py.rstrip]. destruct (Py.rstrip s) as [|d t] eqn:E.
  - destruct (Py.is_space c) eqn:Ec; cbn [string_filter].
    + now rewrite (Hq c Ec), <- IH.
    + now rewrite <- IH.
  - cbn [string_filter] in *. now rewrite IH.
Qed.

Lemma string_filter_strip (q : ascii -> bool) (s : string) :
  (forall c, Py.is_space c = true -> q c = false) ->
  string_filter q (Py.strip s) = string_filter q s.
Proof.
  intros Hq. unfold Py.strip.
  now rewrite string_filter_rstrip, string_filter_lstrip.
Qed.

Definition no_leading_space (s : string) : Prop :=
  match s with
  | EmptyString => True
  | String c _ => Py.is_space c = false
  end.

Lemma lstrip_no_leading_space (s : string) : no_leading_space (Py.lstrip s).
Proof.
  induction s as [|c s IH]; [exact I|]. cbn [Py.lstrip].
  destruct (Py.is_space c) eqn:E; [exact IH|exact E].
Qed.

Lemma lstrip_id (s : string) : no_leading_space s -> Py.lstrip s = s.
Proof. destruct s as [|c s]; [reflexivity|]. cbn. now intros ->. Qed.

Lemma rstrip_no_leading_space (s : string) :
  no_leading_space s -> no_leading_space (Py.rstrip s).
Proof.
  destruct s as [|c s]; [intros _; exact I|]. cbn [no_leading_space Py.rstrip].
  intros Hc. destruct (Py.rstrip s); [now rewrite Hc|exact Hc].
Qed.

Lemma rstrip_idem (s : string) : Py.rstrip (Py.rstrip s) = Py.rstrip s.
Proof.
  induction s as [|c s IH]; [reflexivity|]. cbn [Py.rstrip].
  destruct (Py.rstrip s) as [|d t] eqn:E.
  - destruct (Py.is_space c) eqn:Ec; [reflexivity|].
    cbn [Py.rstrip]. now rewrite Ec.
  - cbn [Py.rstrip] in *. rewrite IH. reflexivity.
Qed.

(** [s.strip().strip() == s.strip()] *)
Lemma strip_idem (s : string) : Py.strip (Py.strip s) = Py.strip s.
Proof.
  unfold Py.strip.
  rewrite (lstrip_id (Py.rstrip (Py.lstrip s)))
    by apply rstrip_no_leading_space, lstrip_no_leading_space.
  apply rstrip_idem.
Qed.

(** *** Phone numbers and addresses *)

(** Every phone number returned occurs in the text, has no whitespace at
    either end, and has at least 10 characters that are digits or [+]. *)
Theorem extract_phone_numbers_sound (text phone : string) :
  phone ∈ _extract_phone_numbers text ->
  Py.contains text phone = true
  /\ Py.strip phone = phone
  /\ (10 <= String.length (digits_and_plus phone))%nat.
Proof.
  unfold _extract_phone_numbers.
  rewrite elem_of_elements, elem_of_list_to_set, list_elem_of_fmap.
  intros (m & -> & Hm). apply list_elem_of_In, filter_In in Hm as [Hm Hlen].
  apply list_elem_of_In, elem_of_elements, phone_candidates_spec in Hm.
  destruct Hm as (pattern & _ & Hm). apply findall_contains in Hm.
  split; [|split].
  - eapply contains_trans; [exact Hm|apply strip_contains].
  - apply strip_idem.
  - apply Nat.leb_le in Hlen. unfold digits_and_plus in *.
    rewrite sub_class_empty in *. rewrite string_filter_strip; [exact Hlen|].
    intros c Hc. rewrite negb_involutive.
    destruct c as [[] [] [] [] [] [] [] []]; try discriminate Hc;
      reflexivity.
Qed.

(** Every address returned occurs in the text, and none is returned
    twice. *)
Theorem extract_addresses_sound (text : string) :
  NoDup (_extract_addresses text)
  /\ forall address, address ∈ _extract_addresses text ->
                     Py.contains text address = true.
Proof.
  unfold _extract_addresses. split; [apply NoDup_elements|].
  intros address. rewrite elem_of_elements, elem_of_list_to_set.
  apply findall_contains.
Qed.

(** *** E-mail validation *)

(** An address that contains a spam indicator, in any case, is rejected;
    "example.com" is one of the indicators. *)
Theorem is_valid_email_rejects_spam (email indicator : string) :
  indicator ∈ spam_indicators ->
  Py.contains (Py.lower email) indicator = true ->
  _is_valid_email email = false.
Proof.
  intros Hin Hc. unfold _is_valid_email.
  destruct (is_empty email || negb (Py.contains email "@")); [reflexivity|].
  replace (Py.any (Py.contains (Py.lower email)) spam_indicators) with true;
    [reflexivity|].
  symmetry. apply existsb_exists. exists indicator.
  split; [now apply list_elem_of_In|exact Hc].
Qed.

Lemma is_valid_email_rejects_spam_witness :
  _is_valid_email "Info@Example.COM" = false.
Proof.
  apply (is_valid_email_rejects_spam "Info@Example.COM" "example.com").
  - apply list_elem_of_In. vm_compute. tauto.
  - vm_compute. reflexivity.
Defined.

Lemma unique_in_order_id (l : list string) (seen : gset string) :
  NoDup l -> (forall x, x ∈ l -> x ∉ seen) -> unique_in_order seen l = l.
Proof.
  revert seen. induction l as [|x l IH]; intros seen Hnd Hseen;
    [reflexivity|].
  apply NoDup_cons in Hnd as [Hx Hnd]. cbn [unique_in_order].
  rewrite bool_decide_eq_false_2 by (apply Hseen, list_elem_of_here).
  f_equal. apply IH; [exact Hnd|].
  intros y Hy. rewrite elem_of_union, elem_of_singleton.
  intros [H| ->]; [|tauto]. eapply Hseen; [|exact H].
  now apply list_elem_of_further.
Qed.

Lemma unique_in_order_NoDup (l : list string) (seen : gset string) :
  NoDup (unique_in_order seen l).
Proof.
  revert seen. induction l as [|x l IH]; intros seen; cbn [unique_in_order];
    [constructor|].
  case_bool_decide; [apply IH|].
  apply NoDup_cons. split; [|apply IH].
  rewrite unique_in_order_spec. intros [_ Hx]. apply Hx.
  apply elem_of_union. right. now apply elem_of_singleton.
Qed.

Lemma unique_in_order_sublist (l : list string) (seen : gset string) :
  sublist (unique_in_order seen l) l.
Proof.
  revert seen. induction l as [|x l IH]; intros seen; cbn [unique_in_order];
    [constructor|].
  case_bool_decide; [apply sublist_cons, IH|apply sublist_skip, IH].
Qed.

Lemma filter_sublist {A} (f : A -> bool) (l : list A) :
  sublist (List.filter f l) l.
Proof.
  induction l as [|x l IH]; cbn [List.filter]; [constructor|].
  destruct (f x); [now apply sublist_skip|now apply sublist_cons].
Qed.

Lemma filter_all {A} (f : A -> bool) (l : list A) :
  (forall x, x ∈ l -> f x = true) -> List.filter f l = l.
Proof.
  induction l as [|x l IH]; intros H; cbn [List.filter]; [reflexivity|].
  rewrite (H x) by apply list_elem_of_here. f_equal. apply IH.
  intros y Hy. now apply H, list_elem_of_further.
Qed.

Lemma _validate_emails_id (emails : list string) :
  NoDup emails -> (forall x, x ∈ emails -> _is_valid_email x = true) ->
  _validate_emails emails = emails.
Proof.
  intros Hnd Hvalid. unfold _validate_emails.
  rewrite filter_all by exact Hvalid.
  apply unique_in_order_id; [exact Hnd|]. intros x _. apply not_elem_of_empty.
Qed.

Lemma unique_in_order_snoc (l : list string) :
  forall (seen : gset string) (x : string),
    unique_in_order seen (l ++ [x])
    = unique_in_order seen l
        ++ (if bool_decide (x ∈ seen \/ x ∈ l) then [] else [x]).
Proof.
  induction l as [|y l IH]; intros seen x; cbn [app unique_in_order].
  - rewrite (bool_decide_ext (x ∈ seen \/ x ∈ []) (x ∈ seen));
      [now destruct (bool_decide (x ∈ seen))|].
    split; [|now left]. intros [H|H]; [exact H|].
    now apply elem_of_nil in H.
  - case_bool_decide as Hy; rewrite IH.
    + f_equal. apply (f_equal (fun b : bool => if b then [] else [x])).
      apply bool_decide_ext. split.
      * intros [H|H]; [now left|right; now apply list_elem_of_further].
      * intros [H|H]; [now left|].
        apply elem_of_cons in H as [->|H]; [now left|now right].
    + cbn [app]. do 2 f_equal.
      apply (f_equal (fun b : bool => if b then [] else [x])).
      apply bool_decide_ext.
      rewrite elem_of_union, elem_of_singleton, elem_of_cons. tauto.
Qed.

(** [_validate_emails] returns the valid addresses of its input, each
    once, in the order of their first occurrence: an address appended to
    the input is appended to the output when it is valid and not in the
    input before, and changes nothing otherwise. Validating again changes
    nothing. *)
Theorem validate_emails_spec (emails : list string) :
  NoDup (_validate_emails emails)
  /\ (forall x, x ∈ _validate_emails emails
                <-> x ∈ emails /\ _is_valid_email x = true)
  /\ sublist (_validate_emails emails) emails
  /\ _validate_emails (_validate_emails emails) = _validate_emails emails
  /\ _validate_emails [] = []
  /\ forall pre x,
       _validate_emails (pre ++ [x])
       = _validate_emails pre
           ++ (if _is_valid_email x && bool_decide (x ∉ pre)
               then [x] else []).
Proof.
  assert (Hnd : NoDup (_validate_emails emails))
    by apply unique_in_order_NoDup.
  split; [exact Hnd|]. split; [apply _validate_emails_spec|].
  split; [|split; [|split; [reflexivity|]]].
  - unfold _validate_emails.
    etransitivity; [apply unique_in_order_sublist|apply filter_sublist].
  - apply _validate_emails_id; [exact Hnd|].
    intros x Hx. now apply _validate_emails_spec in Hx.
  - intros pre x. unfold _validate_emails.
    rewrite List.filter_app. cbn [List.filter].
    destruct (_is_valid_email x) eqn:Hx; cbn [andb].
    + rewrite unique_in_order_snoc. f_equal.
      rewrite bool_decide_not.
      rewrite (bool_decide_ext
                 (x ∈ (∅ : gset string)
                  \/ x ∈ List.filter _is_valid_email pre)
                 (x ∈ pre));
        [now destruct (bool_decide (x ∈ pre))|].
      rewrite !list_elem_of_In, filter_In. split.
      * intros [H|[H _]]; [now apply elem_of_empty in H|exact H].
      * intros H. right. now split.
    + now rewrite !app_nil_r.
Qed.

Lemma lower_char_idem (c : ascii) :
  Py.lower_char (Py.lower_char c) = Py.lower_char c.
Proof. destruct c as [[] [] [] [] [] [] [] []]; reflexivity. Qed.

Lemma lower_idem (s : string) : Py.lower (Py.lower s) = Py.lower s.
Proof.
  induction s as [|c s IH]; [reflexivity|]. cbn [Py.lower].
  now rewrite lower_char_idem, IH.
Qed.

Lemma _extract_emails_lower (text : string) (soup : list anchor)
    (x : string) :
  x ∈ _extract_emails text soup -> Py.lower x = x.
Proof.
  intros Hx. unfold _extract_emails in Hx.
  apply elem_of_elements, elem_of_list_to_set in Hx.
  apply list_elem_of_In, filter_In in Hx as [Hx _].
  apply in_map_iff in Hx as (e & <- & _). apply lower_idem.
Qed.

(** The addresses returned by [_extract_emails] are distinct, valid and in
    lower case, and [_validate_emails] leaves the list as it is. *)
Theorem extract_emails_sound (text : string) (soup : list anchor) :
  NoDup (_extract_emails text soup)
  /\ (forall x, x ∈ _extract_emails text soup ->
                _is_valid_email x = true /\ Py.lower x = x)
  /\ _validate_emails (_extract_emails text soup)
     = _extract_emails text soup.
Proof.
  assert (Hnd : NoDup (_extract_emails text soup))
    by (unfold _extract_emails; apply NoDup_elements).
  split; [exact Hnd|]. split.
  - intros x Hx. split; [now apply _extract_emails_valid in Hx|].
    now apply _extract_emails_lower in Hx.
  - apply _validate_emails_id; [exact Hnd|].
    intros x Hx. now apply _extract_emails_valid in Hx.
Qed.

(** *** [mailto:] links *)

Lemma split_hd (sep : ascii) (e q : string) :
  Py.contains e (String sep EmptyString) = false ->
  q = EmptyString \/ Py.startswith q (String sep EmptyString) = true ->
  hd EmptyString (Py.split sep (e ++ q)) = e.
Proof.
  intros He Hq. induction e as [|c e IH].
  - rewrite app_nil_l_s. destruct Hq as [->|Hq]; [reflexivity|].
    destruct q as [|d q]; [discriminate|]. cbn in Hq.
    apply andb_true_iff in Hq as [Hd _]. apply Ascii.eqb_eq in Hd as <-.
    cbn [Py.split]. now rewrite Ascii.eqb_refl.
  - rewrite app_cons_s. cbn [Py.split].
    cbn [Py.contains Py.startswith] in He.
    apply orb_false_iff in He as [Hc He].
    rewrite andb_true_r in Hc. rewrite Ascii.eqb_sym, Hc.
    specialize (IH He). destruct (Py.split sep (e ++ q)) as [|w ws].
    + cbn in IH. now subst e.
    + cbn [hd] in *. now rewrite IH.
Qed.

Lemma mailto_fold_mono (links : list anchor) (emails : gset string)
    (x : string) :
  x ∈ emails ->
  x ∈ fold_left (fun emails link =>
                   match mailto_email link with
                   | Some email => emails ∪ {[ email ]}
                   | None => emails
                   end) links emails.
Proof.
  revert emails. induction links as [|l links IH]; intros emails Hx;
    cbn [fold_left]; [exact Hx|].
  apply IH. destruct (mailto_email l); [|exact Hx].
  apply elem_of_union. now left.
Qed.

Lemma mailto_fold_elem (links : list anchor) (emails : gset string)
    (link : anchor) (x : string) :
  link ∈ links -> mailto_email link = Some x ->
  x ∈ fold_left (fun emails link =>
                   match mailto_email link with
                   | Some email => emails ∪ {[ email ]}
                   | None => emails
                   end) links emails.
Proof.
  revert emails. induction links as [|l links IH]; intros emails Hin Hx;
    [now apply elem_of_nil in Hin|].
  cbn [fold_left]. apply elem_of_cons in Hin as [<-|Hin].
  - apply mailto_fold_mono. rewrite Hx. apply elem_of_union. right.
    now apply elem_of_singleton.
  - now apply IH.
Qed.

(** A link [mailto:ADDRESS], with or without a query after [?], adds the
    address: when the address, stripped and in lower case, is valid, it
    is returned. *)
Theorem extract_emails_mailto (text : string) (soup : list anchor)
    (link : anchor) (address query : string) :
  link ∈ soup ->
  href link = Some ("mailto:" ++ address ++ query)%string ->
  Py.contains address "?" = false ->
  query = EmptyString \/ Py.startswith query "?" = true ->
  Py.contains address "@" = true ->
  _is_valid_email (Py.lower (Py.strip address)) = true ->
  Py.lower (Py.strip address) ∈ _extract_emails text soup.
Proof.
  intros Hin Hhref Haddr Hquery Hat Hvalid.
  assert (Hm : mailto_email link = Some address).
  { unfold mailto_email. rewrite Hhref. cbn [from_option id].
    replace (Py.startswith ("mailto:" ++ address ++ query) "mailto:")
      with true by reflexivity.
    change (Py.drop_chars 7 ("mailto:" ++ address ++ query))
      with (address ++ query)%string.
    rewrite split_hd by assumption. now rewrite Hat. }
  assert (Hl : link ∈ mailto_links soup).
  { unfold mailto_links. apply list_elem_of_In, filter_In.
    split; [now apply list_elem_of_In|]. rewrite Hhref. reflexivity. }
  unfold _extract_emails.
  apply elem_of_elements, elem_of_list_to_set, list_elem_of_In, filter_In.
  split; [|exact Hvalid].
  apply in_map_iff. exists address. split; [reflexivity|].
  apply list_elem_of_In, elem_of_elements. unfold email_candidates.
  now apply mailto_fold_elem with link.
Qed.

Lemma extract_emails_mailto_witness :
  "sales@site.org"
  ∈ _extract_emails EmptyString
      [ {| href := Some "mailto:Sales@Site.org?subject=Inquiry";
           text := "Sales" |} ].
Proof.
  apply (extract_emails_mailto EmptyString _
           {| href := Some "mailto:Sales@Site.org?subject=Inquiry";
              text := "Sales" |}
           "Sales@Site.org" "?subject=Inquiry").
  - apply list_elem_of_here.
  - reflexivity.
  - vm_compute; reflexivity.
  - right. vm_compute; reflexivity.
  - vm_compute; reflexivity.
  - vm_compute; reflexivity.
Defined.

(** *** Social links *)

Lemma links_with_href_elem (soup : list anchor) (link : anchor)
    (h : string) :
  (link, h) ∈ links_with_href soup <-> link ∈ soup /\ href link = Some h.
Proof.
  unfold links_with_href. rewrite list_elem_of_omap. split.
  - intros (l & Hl & Heq). destruct (href l) as [h'|] eqn:E; [|discriminate].
    injection Heq as -> ->. now split.
  - intros [Hl Hh]. exists link. split; [exact Hl|]. now rewrite Hh.
Qed.

(** Every entry of the mapping returned by [_extract_social_links] is for
    one of the platforms of [social_patterns], and its url is the [href]
    of an anchor of the document and matches the pattern of the
    platform. *)
Theorem extract_social_links_sound (soup : list anchor)
    (platform url : string) :
  _extract_social_links soup !! platform = Some url ->
  (exists pattern, (platform, pattern) ∈ social_patterns
                   /\ Re.matches pattern url = true)
  /\ exists link, link ∈ soup /\ href link = Some url.
Proof.
  unfold _extract_social_links. rewrite social_fold_lookup. intros Hlast.
  apply last_Some_elem_of in Hlast.
  apply list_elem_of_In, filter_In in Hlast as [Hin Hp].
  apply bool_decide_eq_true in Hp. split.
  - unfold platform_of in Hp.
    destruct (find _ social_patterns) as [[p pattern]|] eqn:Hfind;
      [|discriminate].
    injection Hp as ->. apply find_some in Hfind as [Hin' Hm].
    exists pattern. split; [now apply list_elem_of_In|exact Hm].
  - apply in_map_iff in Hin as ([link h] & Heq & Hl). cbn [snd] in Heq.
    subst h. apply list_elem_of_In, links_with_href_elem in Hl.
    now exists link.
Qed.

Lemma extract_social_links_sound_witness :
  exists link, link ∈ two_twitter_anchors
               /\ href link = Some "https://twitter.com/second".
Proof.
  apply (extract_social_links_sound two_twitter_anchors "twitter"
           "https://twitter.com/second").
  vm_compute. reflexivity.
Defined.

(** *** The confidence score *)

Local Open Scope Q_scope.

Lemma min_compat (a b b' : Q) : b == b' -> Py.min a b == Py.min a b'.
Proof.
  intros H. unfold Py.min.
  destruct (Qlt_le_dec b a), (Qlt_le_dec b' a); lra.
Qed.

Lemma min_mono (a b b' : Q) : b <= b' -> Py.min a b <= Py.min a b'.
Proof.
  intros H. unfold Py.min.
  destruct (Qlt_le_dec b a), (Qlt_le_dec b' a); lra.
Qed.

(** The part of the score that depends on the page only. *)
Definition page_bonus (page_content : option PageContent.t) : Q :=
  match page_content with
  | None => 0
  | Some page =>
      (if Py.any (Py.contains (Py.lower (PageContent.url page)))
                 ["contact"; "about"; "team"]%string
       then 0.1 else 0)
      + (if (500 <? String.length (PageContent.content page))%nat
         then 0.05 else 0)
  end.

(** The weighted sum of the capped counts and the page bonus. *)
Definition weighted_signals (n_emails n_contact_pages n_social_links
    n_phone_numbers : nat) (page_content : option PageContent.t) : Q :=
  0.4 * Py.min 1.0 (Py.of_nat n_emails / 3)
  + 0.2 * Py.min 1.0 (Py.of_nat n_contact_pages / 2)
  + 0.2 * Py.min 1.0 (Py.of_nat n_social_links / 3)
  + 0.1 * Py.min 1.0 (Py.of_nat n_phone_numbers / 2)
  + page_bonus page_content.

(** The confidence score is the weighted sum clamped at 1: the tests for
    empty collections in the code change nothing. *)
Theorem confidence_score_formula (emails contact_pages : list string)
    (social_links : gmap string string) (phone_numbers : list string)
    (page_content : option PageContent.t) :
  _calculate_confidence_score emails contact_pages social_links
    phone_numbers page_content
  == Py.min 1.0
       (weighted_signals (List.length emails) (List.length contact_pages)
          (size social_links) (List.length phone_numbers) page_content).
Proof.
  unfold _calculate_confidence_score, weighted_signals, page_bonus.
  apply min_compat.
  assert (H3 : Py.min 1.0 (Py.of_nat 0 / 3) == 0) by reflexivity.
  assert (H2 : Py.min 1.0 (Py.of_nat 0 / 2) == 0) by reflexivity.
  assert (Hs : social_links = ∅ -> size social_links = 0%nat)
    by (intros ->; apply map_size_empty).
  destruct emails as [|e emails], contact_pages as [|c contact_pages],
    phone_numbers as [|p phone_numbers];
    cbn [List.length]; rewrite ?H3, ?H2;
    (case_bool_decide as Hsoc; [rewrite (Hs Hsoc), H3|]);
    destruct page_content as [page|];
    repeat match goal with
           | |- context [if ?b then _ else _] => destruct b
           end;
    ring.
Qed.

Lemma capped_count_mono (d : Q) (n n' : nat) :
  0 < d -> (n <= n')%nat ->
  Py.min 1.0 (Py.of_nat n / d) <= Py.min 1.0 (Py.of_nat n' / d).
Proof.
  intros Hd Hn. apply min_mono. unfold Qdiv.
  apply Qmult_le_compat_r.
  - unfold Py.of_nat. rewrite <- Zle_Qle. lia.
  - apply Qlt_le_weak, Qinv_lt_0_compat, Hd.
Qed.

(** Finding more never lowers the confidence: the score is monotone in
    the number of e-mail addresses, contact pages, social links and phone
    numbers found on a page. *)
Theorem confidence_score_monotone (emails emails' contact_pages
    contact_pages' : list string) (social_links social_links' :
    gmap string string) (phone_numbers phone_numbers' : list string)
    (page_content : option PageContent.t) :
  (List.length emails <= List.length emails')%nat ->
  (List.length contact_pages <= List.length contact_pages')%nat ->
  (size social_links <= size social_links')%nat ->
  (List.length phone_numbers <= List.length phone_numbers')%nat ->
  _calculate_confidence_score emails contact_pages social_links
    phone_numbers page_content
  <= _calculate_confidence_score emails' contact_pages' social_links'
       phone_numbers' page_content.
Proof.
  intros He Hc Hs Hp. rewrite !confidence_score_formula.
  apply min_mono. unfold weighted_signals.
  pose proof (capped_count_mono 3 _ _ ltac:(lra) He).
  pose proof (capped_count_mono 2 _ _ ltac:(lra) Hc).
  pose proof (capped_count_mono 3 _ _ ltac:(lra) Hs).
  pose proof (capped_count_mono 2 _ _ ltac:(lra) Hp).
  lra.
Qed.

Lemma confidence_score_monotone_witness :
  _calculate_confidence_score ["a@site.org"%string] [] ∅ [] None
  <= _calculate_confidence_score ["a@site.org"; "b@site.org"]%string
       [] ∅ [] None.
Proof.
  apply confidence_score_monotone; cbn; lia.
Defined.

Local Close Scope Q_scope.

(** *** Contact information of a page and of a domain *)

Lemma total_bounds (scores : list Q) :
  Forall (fun q => 0 <= q <= 1)%Q scores ->
  (0 <= total scores <= Py.of_nat (List.length scores))%Q.
Proof.
  induction 1 as [|q scores Hq _ IH].
  - change (total []) with 0%Q. change (Py.of_nat (List.length [])) with 0%Q.
    lra.
  - change (total (q :: scores)) with (q + total scores)%Q.
    unfold Py.of_nat in *. cbn [List.length].
    rewrite Nat2Z.inj_succ, <- Z.add_1_r, inject_Z_plus.
    change (inject_Z 1) with 1%Q. lra.
Qed.

Lemma mean_bounds (scores : list Q) :
  Forall (fun q => 0 <= q <= 1)%Q scores -> (0 <= mean scores <= 1)%Q.
Proof.
  intros H. destruct scores as [|q scores]; [cbn; lra|].
  apply total_bounds in H. unfold mean.
  assert (Hn : (0 < Py.of_nat (List.length (q :: scores)))%Q).
  { unfold Py.of_nat. change 0%Q with (inject_Z 0). rewrite <- Zlt_Qlt.
    cbn [List.length]. lia. }
  split.
  - apply Qle_shift_div_l; [exact Hn|]. lra.
  - apply Qle_shift_div_r; [exact Hn|]. lra.
Qed.

Section CrawlFacts.

Variable BeautifulSoup : string -> list anchor.
Variable urljoin : string -> string -> Py.except string.
Variable fetch_page : string -> Py.except (option PageContent.t).

Local Abbreviation extract_page :=
  (extract_contacts_from_page BeautifulSoup urljoin).




Lemma page_confidence_bounds (page_content : option PageContent.t)
    (info : ContactInfo.t) :
  extract_page page_content = Py.Return info ->
  (0 <= ContactInfo.confidence_score info <= 1)%Q.
Proof.
  unfold extract_contacts_from_page. destruct page_content as [page|];
    [|intros [= <-]; cbn; lra].
  destruct (ContactExtractor.is_empty _); [intros [= <-]; cbn; lra|].
  destruct (_extract_contact_pages _ _ _) as [contact_pages|e];
    [|discriminate].
  intros [= <-]. apply confidence_score_bounds.
Qed.

Local Abbreviation crawl domain max_pages :=
  (extract_contacts_from_domain BeautifulSoup urljoin fetch_page domain
     max_pages).
Local Abbreviation crawl_of urls :=
  (crawl_urls BeautifulSoup urljoin fetch_page urls).
Local Abbreviation pages_of urls :=
  (processed_pages BeautifulSoup urljoin fetch_page urls).

Lemma crawl_confidence_mean (urls : list string) :
  (ContactInfo.confidence_score (crawl_of urls)
   == mean (confidences (pages_of urls)))%Q.
Proof.
  unfold crawl_urls. rewrite crawl_fold_spec.
  cbn [ContactInfo.confidence_score].
  destruct (merge_fold_scalars (pages_of urls) crawl_init)
    as (_ & Hn & Ht & _).
  cbn zeta in Hn, Ht. rewrite Hn.
  cbn [crawl_init pages_processed total_confidence] in *.
  destruct (pages_of urls) as [|page pages'] eqn:Hpages;
    [reflexivity|].
  replace (0 <? 0 + Z.of_nat (List.length (page :: pages')))%Z
    with true by (symmetry; apply Z.ltb_lt; cbn [List.length]; lia).
  rewrite Ht.
  change (mean (confidences (page :: pages')))
    with (total (confidences (page :: pages'))
          / Py.of_nat (List.length (confidences (page :: pages'))))%Q.
  replace (List.length (confidences (page :: pages')))
    with (List.length (page :: pages'))
    by (unfold confidences; now rewrite List.length_map).
  unfold Py.of_nat. rewrite Z.add_0_l, Qplus_0_l. reflexivity.
Qed.

Lemma crawl_source_urls (urls : list string) :
  ContactInfo.source_urls (crawl_of urls) = map fst (pages_of urls).
Proof.
  unfold crawl_urls. rewrite crawl_fold_spec.
  cbn [ContactInfo.source_urls].
  now destruct (merge_fold_scalars (pages_of urls) crawl_init)
    as (-> & _).
Qed.

Lemma processed_pages_sublist (urls : list string) :
  sublist (map fst (pages_of urls)) urls.
Proof.
  unfold processed_pages. induction urls as [|url urls IH];
    [constructor|].
  cbn [omap list_omap]. destruct (processed _ _ _ url); cbn.
  - now apply sublist_skip.
  - now apply sublist_cons.
Qed.

Lemma join_paths_spec (base_url : string) (paths : list string) :
  match join_paths urljoin base_url paths with
  | Py.Return urls => List.length urls = List.length paths
  | Py.Raise e =>
      exists path, path ∈ paths /\ urljoin base_url path = Py.Raise e
  end.
Proof.
  induction paths as [|path paths IH]; cbn [join_paths]; [reflexivity|].
  destruct (urljoin base_url path) as [url|e] eqn:Hu; cbn [Py.bind].
  - destruct (join_paths urljoin base_url paths) as [urls|e];
      cbn [Py.bind].
    + cbn [List.length]. now rewrite IH.
    + destruct IH as (p & Hin & Hp). exists p.
      split; [now apply list_elem_of_further|exact Hp].
  - exists path. split; [apply list_elem_of_here|exact Hu].
Qed.

Lemma urls_to_check_spec (domain : string) (max_pages : Z) :
  match urls_to_check urljoin domain max_pages with
  | Py.Return urls =>
      (List.length urls <= 17)%nat
      /\ ((0 <= max_pages)%Z ->
          (Z.of_nat (List.length urls) <= max_pages)%Z)
  | Py.Raise e =>
      exists path,
        path ∈ contact_page_paths
        /\ urljoin (base_url_of domain) path = Py.Raise e
  end.
Proof.
  unfold urls_to_check. cbv zeta.
  pose proof (join_paths_spec (base_url_of domain) contact_page_paths)
    as H.
  destruct (join_paths urljoin (base_url_of domain) contact_page_paths)
    as [urls|e]; cbn [Py.bind]; [|exact H].
  split.
  - destruct (slice_to_firstn max_pages (base_url_of domain :: urls))
      as [k ->].
    rewrite length_firstn. cbn [List.length]. rewrite H.
    cbn [List.length contact_page_paths]. lia.
  - apply slice_to_length.
Qed.

(** What [extract_contacts_from_domain] does, for any fetcher. It
    raises only when [urljoin] raises on the base url and one of the
    contact page paths; no fetch and no page makes it raise. Otherwise it
    returns: a confidence in [0, 1]; distinct, valid e-mail addresses;
    the tag "domain_crawl"; as source urls a subsequence of the
    candidate urls, so at most 17 of them, and at most [max_pages] when
    that bound is not negative. *)
Theorem extract_contacts_from_domain_invariants (domain : string)
    (max_pages : Z) :
  match urls_to_check urljoin domain max_pages with
  | Py.Raise e =>
      crawl domain max_pages = Py.Raise e
      /\ exists path,
           path ∈ contact_page_paths
           /\ urljoin (base_url_of domain) path = Py.Raise e
  | Py.Return urls =>
      exists info,
        crawl domain max_pages = Py.Return info
        /\ (0 <= ContactInfo.confidence_score info <= 1)%Q
        /\ NoDup (ContactInfo.emails info)
        /\ (forall x, x ∈ ContactInfo.emails info ->
                      _is_valid_email x = true)
        /\ ContactInfo.extraction_method info = "domain_crawl"
        /\ sublist (ContactInfo.source_urls info) urls
        /\ (List.length (ContactInfo.source_urls info) <= 17)%nat
        /\ ((0 <= max_pages)%Z ->
            (Z.of_nat (List.length (ContactInfo.source_urls info))
             <= max_pages)%Z)
  end.
Proof.
  pose proof (urls_to_check_spec domain max_pages) as Hurls.
  unfold extract_contacts_from_domain.
  destruct (urls_to_check urljoin domain max_pages) as [urls|e];
    cbn [Py.bind]; [|split; [reflexivity|exact Hurls]].
  destruct Hurls as [H17 Hmax].
  exists (crawl_of urls). split; [reflexivity|].
  assert (Hsub : sublist (ContactInfo.source_urls (crawl_of urls)) urls)
    by (rewrite crawl_source_urls; apply processed_pages_sublist).
  pose proof (sublist_length _ _ Hsub) as Hlen.
  split; [|split; [|split; [|split; [|split; [|split]]]]].
  - rewrite crawl_confidence_mean. apply mean_bounds.
    apply Forall_forall. intros q Hq. unfold confidences in Hq.
    apply list_elem_of_fmap in Hq as ([url info] & -> & Hin).
    apply processed_pages_info in Hin as (page & _ & _ & Hext).
    eapply page_confidence_bounds. exact Hext.
  - apply unique_in_order_NoDup.
  - intros x Hx. unfold crawl_urls in Hx.
    cbn [ContactInfo.emails] in Hx. now apply _validate_emails_spec in Hx.
  - reflexivity.
  - exact Hsub.
  - lia.
  - intros H. specialize (Hmax H). lia.
Qed.
End CrawlFacts.

Section CrawlFailures.

Variable BeautifulSoup : string -> list anchor.
Variable urljoin : string -> string -> Py.except string.
Variable fetch_page : string -> Py.except (option PageContent.t).

(** When no candidate url yields a page with status 200 (the fetch
    raises, returns nothing, or returns another status) on which the
    extraction returns, the crawl still returns: the empty contact
    information with confidence 0 and the tag "domain_crawl". *)
Theorem extract_contacts_from_domain_no_page (domain : string)
    (max_pages : Z) (urls : list string) :
  urls_to_check urljoin domain max_pages = Py.Return urls ->
  (forall url page,
      url ∈ urls ->
      fetch_page url = Py.Return (Some page) ->
      PageContent.status_code page <> 200%Z
      \/ exists e,
           extract_contacts_from_page BeautifulSoup urljoin (Some page)
           = Py.Raise e) ->
  extract_contacts_from_domain BeautifulSoup urljoin fetch_page domain
    max_pages
  = Py.Return
      {| ContactInfo.emails := [];
         ContactInfo.contact_pages := [];
         ContactInfo.social_links := ∅;
         ContactInfo.phone_numbers := [];
         ContactInfo.addresses := [];
         ContactInfo.confidence_score := 0;
         ContactInfo.extraction_method := "domain_crawl";
         ContactInfo.source_urls := [] |}.
Proof.
  intros Hurls Hfail. unfold extract_contacts_from_domain.
  rewrite Hurls. cbn [Py.bind]. f_equal. unfold crawl_urls.
  rewrite crawl_fold_spec.
  assert (Hnone : processed_pages BeautifulSoup urljoin fetch_page urls
                  = []).
  { clear Hurls. induction urls as [|url urls IH]; [reflexivity|].
    unfold processed_pages in *. cbn [omap list_omap].
    assert (Hp : processed BeautifulSoup urljoin fetch_page url = None).
    { destruct (processed BeautifulSoup urljoin fetch_page url)
        as [info|] eqn:Hp; [|reflexivity].
      apply processed_spec in Hp as (page & Hf & Hs & He). exfalso.
      destruct (Hfail url page (list_elem_of_here _ _) Hf) as [H|[e H]];
        [now apply H|].
      rewrite He in H. discriminate H. }
    rewrite Hp. cbn. apply IH. intros u p Hu.
    apply Hfail. now apply list_elem_of_further. }
  rewrite Hnone. cbn [fold_left crawl_init all_emails all_contact_pages
                        all_social_links all_phone_numbers all_addresses
                        source_urls total_confidence pages_processed].
  rewrite !elements_empty. reflexivity.
Qed.

End CrawlFailures.

Lemma extract_contacts_from_domain_no_page_witness :
  Py.bind
    (extract_contacts_from_domain no_anchors join_path
       (fun _ => Py.Raise "ConnectionError") "example.org" 3)
    (fun info => Py.Return (ContactInfo.extraction_method info))
  = Py.Return "domain_crawl".
Proof.
  rewrite (extract_contacts_from_domain_no_page no_anchors join_path
             (fun _ => Py.Raise "ConnectionError") "example.org" 3
             [ "https://example.org"; "https://example.org/contact";
               "https://example.org/contact-us" ]);
    [reflexivity|reflexivity|].
  intros url page _ H. discriminate H.
Defined.

(** *** Scores and thresholds *)

Local Open Scope Q_scope.

Lemma max_le_r (a b : Q) : b <= Py.max a b.
Proof. unfold Py.max. destruct (Qlt_le_dec a b); lra. Qed.

Lemma max_mono (a b b' : Q) : b <= b' -> Py.max a b <= Py.max a b'.
Proof.
  intros H. unfold Py.max.
  destruct (Qlt_le_dec a b), (Qlt_le_dec a b'); lra.
Qed.

Lemma relevance_score_floor (result : SearchResult.t) :
  0.25 <= _calculate_relevance_score result.
Proof.
  unfold _calculate_relevance_score. apply min_glb; [lra|].
  match goal with
  | |- context [Py.max 0 ?r] => pose proof (max_le_l 0 r) as Hr
  end.
  repeat match goal with
         | |- context [if ?b then _ else _] => destruct b
         end;
    apply Qle_shift_div_l; lra.
Qed.

Lemma quality_score_floor (result : SearchResult.t)
    (domain_info : gmap string Py.value) :
  0.4 <= _calculate_quality_score result domain_info.
Proof.
  unfold _calculate_quality_score. apply min_glb; [lra|].
  eapply Qle_trans; [|apply max_le_r].
  repeat match goal with
         | |- context [if ?b then _ else _] => destruct b
         end; lra.
Qed.

(** The scores never reach the lower end of the scale: the relevance score
    is at least 0.25 and the quality score at least 0.4, whatever the
    result and the domain information. *)
Theorem score_floors (result : SearchResult.t)
    (domain_info : gmap string Py.value) :
  0.25 <= _calculate_relevance_score result
  /\ 0.4 <= _calculate_quality_score result domain_info.
Proof.
  split; [apply relevance_score_floor|apply quality_score_floor].
Qed.

(** [result] with another rank. *)
Definition with_rank (result : SearchResult.t) (rank : Z) : SearchResult.t :=
  {| SearchResult.title := SearchResult.title result;
     SearchResult.url := SearchResult.url result;
     SearchResult.snippet := SearchResult.snippet result;
     SearchResult.rank := rank;
     SearchResult.domain := SearchResult.domain result;
     SearchResult.crawl_timestamp := SearchResult.crawl_timestamp result;
     SearchResult.response_time := SearchResult.response_time result;
     SearchResult.result_metadata := SearchResult.result_metadata result |}.

Lemma min_le_r (a b : Q) : Py.min a b <= b.
Proof. unfold Py.min. destruct (Qlt_le_dec b a); lra. Qed.

Lemma half_mono (a b : Q) : a <= b -> a / 2 <= b / 2.
Proof.
  intros H. unfold Qdiv. apply Qmult_le_compat_r; [exact H|].
  apply Qlt_le_weak, Qinv_lt_0_compat. lra.
Qed.

(** A later position never scores higher: the relevance score does not
    increase with the rank, and from rank 11 on it is at most 0.5. *)
Theorem relevance_score_rank (result : SearchResult.t) (rank rank' : Z) :
  (rank <= rank')%Z ->
  _calculate_relevance_score (with_rank result rank')
  <= _calculate_relevance_score (with_rank result rank)
  /\ ((11 <= rank')%Z ->
      _calculate_relevance_score (with_rank result rank') <= 0.5).
Proof.
  intros Hrank. unfold _calculate_relevance_score.
  cbn [with_rank SearchResult.rank SearchResult.title SearchResult.snippet
         SearchResult.domain].
  assert (Hr : 1.0 - inject_Z (rank' - 1) * 0.1
               <= 1.0 - inject_Z (rank - 1) * 0.1).
  { assert (inject_Z (rank - 1) <= inject_Z (rank' - 1))
      by (rewrite <- Zle_Qle; lia).
    lra. }
  apply (max_mono 0) in Hr. split.
  - apply min_mono, half_mono.
    repeat match goal with
           | |- context [if ?b then _ else _] => destruct b
           end; lra.
  - intros H11.
    assert (H0 : Py.max 0 (1.0 - inject_Z (rank' - 1) * 0.1) <= 0).
    { unfold Py.max. destruct (Qlt_le_dec _ _) as [Hlt|]; [|lra].
      exfalso.
      assert (inject_Z 10 <= inject_Z (rank' - 1))
        by (rewrite <- Zle_Qle; lia).
      change (inject_Z 10) with 10 in *. lra. }
    eapply Qle_trans; [apply min_le_r|].
    apply Qle_trans with (1 / 2); [|apply Qle_lteq; right; reflexivity].
    apply half_mono.
    repeat match goal with
           | |- context [if ?b then _ else _] => destruct b
           end; lra.
Qed.

Lemma relevance_score_rank_witness :
  _calculate_relevance_score (with_rank sample_result 12)
  <= _calculate_relevance_score (with_rank sample_result 1).
Proof.
  destruct (relevance_score_rank sample_result 1 12) as [H _];
    [lia|exact H].
Defined.

(** The default thresholds of [filter_results], 0.3 and 0.2, remove
    nothing from results whose scores were computed by the scoring
    functions, and a quality threshold above 1 removes all of them. *)
Theorem filter_results_thresholds (results : list ParsedResult.t)
    (min_quality min_relevance : Q) :
  Forall (fun r =>
            exists raw domain_info,
              ParsedResult.quality_score r
              = _calculate_quality_score raw domain_info
              /\ ParsedResult.relevance_score r
                 = _calculate_relevance_score raw) results ->
  filter_results results 0.3 0.2 = results
  /\ (1 < min_quality -> filter_results results min_quality min_relevance
                         = []).
Proof.
  intros Hscored. unfold filter_results. split.
  - apply filter_all. intros r Hr. rewrite Forall_forall in Hscored.
    destruct (Hscored r Hr) as (raw & di & -> & ->).
    pose proof (relevance_score_floor raw) as H1.
    pose proof (quality_score_floor raw di) as H2.
    apply andb_true_iff. split; apply Qle_bool_iff; lra.
  - intros Hq. induction Hscored as [|r results Hr _ IH]; [reflexivity|].
    cbn [List.filter]. destruct Hr as (raw & di & -> & _).
    destruct (quality_score_bounds raw di) as [_ H1].
    replace (Qle_bool min_quality (_calculate_quality_score raw di))
      with false; [exact IH|].
    symmetry. apply not_true_is_false. rewrite Qle_bool_iff. lra.
Qed.

Local Close Scope Q_scope.

(** A parsed result that carries the scores of the fixture result. *)
Definition scored_example : ParsedResult.t :=
  {| ParsedResult.title := SearchResult.title sample_result;
     ParsedResult.url := SearchResult.url sample_result;
     ParsedResult.snippet := SearchResult.snippet sample_result;
     ParsedResult.rank := SearchResult.rank sample_result;
     ParsedResult.domain := SearchResult.domain sample_result;
     ParsedResult.normalized_title :=
       _normalize_text (SearchResult.title sample_result);
     ParsedResult.normalized_snippet :=
       _normalize_text (SearchResult.snippet sample_result);
     ParsedResult.domain_info :=
       _analyze_domain (Some (SearchResult.domain sample_result));
     ParsedResult.keywords := [];
     ParsedResult.language := "en";
     ParsedResult.crawl_timestamp := 0;
     ParsedResult.response_time := SearchResult.response_time sample_result;
     ParsedResult.source_keyword := Py.VStr "test query";
     ParsedResult.relevance_score :=
       _calculate_relevance_score sample_result;
     ParsedResult.quality_score :=
       _calculate_quality_score sample_result
         (_analyze_domain (Some (SearchResult.domain sample_result)));
     ParsedResult.metadata := SearchResult.result_metadata sample_result |}.

Lemma filter_results_thresholds_witness :
  filter_results [scored_example] 0.3 0.2 = [scored_example].
Proof.
  apply (filter_results_thresholds [scored_example] 0.3 0.2).
  constructor; [|constructor].
  exists sample_result,
    (_analyze_domain (Some (SearchResult.domain sample_result))).
  split; reflexivity.
Defined.

(** *** Deduplication of parsed results *)

Lemma deduplicate_results_NoDup (results : list ParsedResult.t) :
  NoDup (map ParsedResult.url (deduplicate_results results))
  /\ NoDup (map title_key (deduplicate_results results)).
Proof.
  induction results as [|x pre [IHu IHt]] using rev_ind;
    [split; constructor|].
  rewrite deduplicate_results_snoc.
  destruct (duplicates (deduplicate_results pre) x) eqn:Hd.
  - rewrite app_nil_r. now split.
  - assert (Hn : ~ (ParsedResult.url x
                      ∈ map ParsedResult.url (deduplicate_results pre)
                    \/ title_key x
                       ∈ map title_key (deduplicate_results pre))).
    { rewrite <- duplicates_spec, Hd. discriminate. }
    rewrite !map_app. cbn [map].
    split; apply NoDup_app; (split; [assumption|]);
      (split; [|apply NoDup_singleton]);
      intros y Hy Hy'; apply list_elem_of_singleton in Hy' as ->; tauto.
Qed.

Lemma deduplicate_results_id (results : list ParsedResult.t) :
  NoDup (map ParsedResult.url results) ->
  NoDup (map title_key results) ->
  deduplicate_results results = results.
Proof.
  induction results as [|x pre IH] using rev_ind; [reflexivity|].
  rewrite !map_app. cbn [map]. intros Hu Ht.
  apply NoDup_app in Hu as (Hu & Hux & _).
  apply NoDup_app in Ht as (Ht & Htx & _).
  rewrite deduplicate_results_snoc, IH by assumption.
  replace (duplicates pre x) with false; [reflexivity|].
  symmetry. apply not_true_is_false. rewrite duplicates_spec.
  intros [H|H]; [eapply Hux|eapply Htx]; try exact H;
    apply list_elem_of_here.
Qed.

(** In the output of [deduplicate_results] no url and no normalized,
    lowercased title occurs twice; a list without such repetitions is
    returned as it is, so deduplicating twice is deduplicating once; the
    output is never longer than the input. *)
Theorem deduplicate_results_distinct (results : list ParsedResult.t) :
  NoDup (map ParsedResult.url (deduplicate_results results))
  /\ NoDup (map title_key (deduplicate_results results))
  /\ deduplicate_results (deduplicate_results results)
     = deduplicate_results results
  /\ (List.length (deduplicate_results results) <= List.length results)%nat.
Proof.
  assert (Hlen : (List.length (deduplicate_results results)
                  <= List.length results)%nat).
  { induction results as [|x pre IH] using rev_ind; [reflexivity|].
    rewrite deduplicate_results_snoc, !length_app.
    destruct (duplicates _ x); cbn [List.length]; lia. }
  destruct (deduplicate_results_NoDup results) as [Hu Ht].
  split; [exact Hu|]. split; [exact Ht|].
  split; [now apply deduplicate_results_id|exact Hlen].
Qed.

(** *** Sorting *)

Section StableSort.
Context {A : Type} (le : A -> A -> bool).
Hypothesis le_total : forall a b, le a b = false -> le b a = true.
Hypothesis le_trans :
  forall a b c, le a b = true -> le b c = true -> le a c = true.

(** [same k y]: [y] compares equal to [k]. *)
Definition same (k y : A) : bool := le k y && le y k.

Lemma insert_sorted_same (k x : A) (l : list A) :
  StronglySorted (fun a b => le a b = true) l ->
  List.filter (same k) (Py.insert_sorted le x l)
  = List.filter (same k) l ++ (if same k x then [x] else []).
Proof.
  induction 1 as [|y l Hl IH Hy]; cbn [Py.insert_sorted List.filter].
  - destruct (same k x); reflexivity.
  - destruct (le y x) eqn:Hyx.
    + cbn [List.filter]. rewrite IH. now destruct (same k y).
    + cbn [List.filter]. destruct (same k x) eqn:Hx.
      * assert (Hnone : List.filter (same k) (y :: l) = []).
        { apply andb_true_iff in Hx as [Hkx Hxk].
          assert (Hall : forall z, z ∈ y :: l -> same k z = false).
          { intros z Hz. apply not_true_is_false. intros Hsz.
            apply andb_true_iff in Hsz as [Hkz Hzk].
            assert (Hyz : le y z = true).
            { apply elem_of_cons in Hz as [->|Hz].
              - destruct (le y y) eqn:E; [reflexivity|].
                pose proof (le_total _ _ E). congruence.
              - rewrite Forall_forall in Hy. now apply Hy. }
            assert (le y x = true); [|congruence].
            eapply le_trans; [exact Hyz|]. eapply le_trans; eassumption. }
          clear - Hall. induction (y :: l) as [|z zs IHz]; [reflexivity|].
          cbn [List.filter]. rewrite (Hall z) by apply list_elem_of_here.
          apply IHz. intros w Hw. now apply Hall, list_elem_of_further. }
        cbn [List.filter] in Hnone. now rewrite Hnone.
      * now rewrite app_nil_r.
Qed.

Lemma sorted_same_acc (k : A) (l acc : list A) :
  StronglySorted (fun a b => le a b = true) acc ->
  List.filter (same k)
    (fold_left (fun acc x => Py.insert_sorted le x acc) l acc)
  = List.filter (same k) acc ++ List.filter (same k) l.
Proof.
  revert acc. induction l as [|x l IH]; intros acc Hacc; cbn [fold_left].
  - now rewrite app_nil_r.
  - rewrite IH by now apply insert_sorted_sorted.
    rewrite insert_sorted_same by exact Hacc.
    cbn [List.filter]. rewrite <- app_assoc. now destruct (same k x).
Qed.

(** The sort is stable: the elements that compare equal to [k] come out
    in the order they went in. *)
Lemma sorted_stable (k : A) (l : list A) :
  List.filter (same k) (Py.sorted le l) = List.filter (same k) l.
Proof.
  unfold Py.sorted. rewrite sorted_same_acc by constructor. reflexivity.
Qed.
End StableSort.

(** For the keys "relevance" and "quality" [sort_results] returns a
    permutation of its input with the scores in non-increasing order, for
    the key "domain" one with the domains in non-decreasing order, and
    for any other key but "rank" the input itself. *)
Theorem sort_results_keys (results : list ParsedResult.t) :
  (Permutation results (sort_results results "relevance")
   /\ StronglySorted
        (fun a b => (ParsedResult.relevance_score b
                     <= ParsedResult.relevance_score a)%Q)
        (sort_results results "relevance"))
  /\ (Permutation results (sort_results results "quality")
      /\ StronglySorted
           (fun a b => (ParsedResult.quality_score b
                        <= ParsedResult.quality_score a)%Q)
           (sort_results results "quality"))
  /\ (Permutation results (sort_results results "domain")
      /\ StronglySorted
           (fun a b => String.leb (ParsedResult.domain a)
                                  (ParsedResult.domain b) = true)
           (sort_results results "domain"))
  /\ forall sort_by,
       sort_by ∉ ["relevance"; "quality"; "rank"; "domain"] ->
       sort_results results sort_by = results.
Proof.
  assert (Hq : forall f : ParsedResult.t -> Q,
             StronglySorted (fun a b => (f b <= f a)%Q)
               (Py.sorted (fun a b => Qle_bool (f b) (f a)) results)).
  { intros f. eapply StronglySorted_weaken; [|apply sorted_sorted].
    - intros a b Hab. now apply Qle_bool_iff.
    - intros a b Hab. apply Qle_bool_iff.
      apply not_true_iff_false in Hab. rewrite Qle_bool_iff in Hab.
      apply Qnot_le_lt in Hab. now apply Qlt_le_weak.
    - intros a b c Hab Hbc. apply Qle_bool_iff.
      apply Qle_bool_iff in Hab, Hbc. now apply Qle_trans with (f b). }
  split; [split; [apply sorted_perm|apply Hq]|].
  split; [split; [apply sorted_perm|apply Hq]|].
  split; [split; [apply sorted_perm|]|].
  - change (sort_results results "domain")
      with (Py.sorted (fun a b => String.leb (ParsedResult.domain a)
                                             (ParsedResult.domain b))
              results).
    apply sorted_sorted.
    + intros a b Hab.
      destruct (String.leb_total (ParsedResult.domain a)
                  (ParsedResult.domain b)); congruence.
    + intros a b c Hab Hbc. apply Is_true_true.
      apply Is_true_true in Hab, Hbc.
      exact (@transitivity _ String.le _ _ _ _ Hab Hbc).
  - intros sort_by Hkey. unfold sort_results.
    repeat (destruct (String.eqb sort_by _) eqn:E;
            [apply String.eqb_eq in E; subst sort_by; exfalso; apply Hkey;
             repeat first [apply list_elem_of_here
                          |apply list_elem_of_further]|clear E]).
    reflexivity.
Qed.

(** Sorting by rank is stable: the results of any one rank keep the
    order they had in the input. *)
Theorem sort_results_rank_stable (results : list ParsedResult.t)
    (rank : Z) :
  List.filter (fun r => (ParsedResult.rank r =? rank)%Z)
    (sort_results results "rank")
  = List.filter (fun r => (ParsedResult.rank r =? rank)%Z) results.
Proof.
  change (sort_results results "rank")
    with (Py.sorted
            (fun a b => (ParsedResult.rank a <=? ParsedResult.rank b)%Z)
            results).
  set (le := fun a b => (ParsedResult.rank a <=? ParsedResult.rank b)%Z).
  destruct (List.existsb (fun r => (ParsedResult.rank r =? rank)%Z) results)
    eqn:Hex.
  - apply existsb_exists in Hex as (k & _ & Hk). apply Z.eqb_eq in Hk.
    assert (Hsame : forall l,
               List.filter (fun r => (ParsedResult.rank r =? rank)%Z) l
               = List.filter (same le k) l).
    { intros l. apply List.filter_ext. intros r. unfold same, le.
      rewrite Hk. destruct (Z.eqb_spec (ParsedResult.rank r) rank).
      - symmetry. apply andb_true_iff. split; apply Z.leb_le; lia.
      - symmetry. apply andb_false_iff.
        destruct (Z.leb_spec rank (ParsedResult.rank r)); [right|now left].
        apply Z.leb_gt. lia. }
    rewrite !Hsame. apply sorted_stable; unfold le.
    + intros a b H. apply Z.leb_le. apply Z.leb_gt in H. lia.
    + intros a b c H1 H2. apply Z.leb_le. apply Z.leb_le in H1, H2. lia.
  - assert (Hnone : forall l : list ParsedResult.t,
               Permutation results l ->
               List.filter (fun r => (ParsedResult.rank r =? rank)%Z) l
               = []).
    { intros l Hperm.
      assert (Hall : forall r, r ∈ l -> (ParsedResult.rank r =? rank)%Z
                                        = false).
      { intros r Hr. rewrite <- Hperm in Hr.
        apply not_true_is_false. intros Hr'.
        assert (existsb (fun r => (ParsedResult.rank r =? rank)%Z) results
                = true); [|congruence].
        apply existsb_exists. exists r. split; [|exact Hr'].
        now apply list_elem_of_In. }
      clear - Hall. induction l as [|z zs IHz]; [reflexivity|].
      cbn [List.filter]. rewrite (Hall z) by apply list_elem_of_here.
      apply IHz. intros w Hw. now apply Hall, list_elem_of_further. }
    rewrite (Hnone results) by reflexivity.
    apply Hnone, sorted_perm.
Qed.

(** *** Domain analysis *)

Lemma split_nonempty (sep : ascii) (s : string) : Py.split sep s <> [].
Proof.
  destruct s as [|c s]; cbn [Py.split]; [discriminate|].
  destruct (Ascii.eqb c sep); [discriminate|].
  destruct (Py.split sep s); discriminate.
Qed.

(** [sep.join(s.split(sep)) == s] *)
Lemma join_split (sep : ascii) (s : string) :
  Py.join (String sep EmptyString) (Py.split sep s) = s.
Proof.
  induction s as [|c s IH]; [reflexivity|]. cbn [Py.split].
  pose proof (split_nonempty sep s) as Hne.
  destruct (Ascii.eqb c sep) eqn:E.
  - apply Ascii.eqb_eq in E as ->.
    destruct (Py.split sep s) as [|w ws]; [congruence|].
    change (Py.join (String sep EmptyString) (EmptyString :: w :: ws))
      with (EmptyString ++ String sep EmptyString
            ++ Py.join (String sep EmptyString) (w :: ws))%string.
    now rewrite IH.
  - destruct (Py.split sep s) as [|w ws]; [congruence|].
    destruct ws as [|w' ws].
    + change (String c w = String c s). f_equal. exact IH.
    + change (Py.join (String sep EmptyString) (String c w :: w' :: ws))
        with (String c (w ++ String sep EmptyString
                        ++ Py.join (String sep EmptyString) (w' :: ws)))%string.
      f_equal. exact IH.
Qed.

Lemma split_labels (sep : ascii) (s w : string) :
  w ∈ Py.split sep s -> Py.contains w (String sep EmptyString) = false.
Proof.
  revert w. induction s as [|c s IH]; intros w Hw; cbn [Py.split] in Hw.
  - apply list_elem_of_singleton in Hw as ->. reflexivity.
  - destruct (Ascii.eqb c sep) eqn:E.
    + apply elem_of_cons in Hw as [->|Hw]; [reflexivity|now apply IH].
    + pose proof (split_nonempty sep s) as Hne.
      destruct (Py.split sep s) as [|v vs]; [congruence|].
      apply elem_of_cons in Hw as [->|Hw].
      * cbn [Py.contains Py.startswith]. rewrite Ascii.eqb_sym, E.
        cbn [andb orb]. apply IH, list_elem_of_here.
      * apply IH. now apply list_elem_of_further.
Qed.

Lemma join_app (sep : string) (l1 l2 : list string) :
  l1 <> [] -> l2 <> [] ->
  Py.join sep (l1 ++ l2)
  = (Py.join sep l1 ++ sep ++ Py.join sep l2)%string.
Proof.
  intros H1 H2. induction l1 as [|w l1 IH]; [congruence|].
  destruct l1 as [|w' l1].
  - destruct l2 as [|v l2]; [congruence|]. reflexivity.
  - change ((w :: w' :: l1) ++ l2) with (w :: ((w' :: l1) ++ l2)).
    change (Py.join sep (w :: (w' :: l1) ++ l2))
      with (w ++ sep ++ Py.join sep ((w' :: l1) ++ l2))%string.
    rewrite IH by discriminate.
    change (Py.join sep (w :: w' :: l1))
      with (w ++ sep ++ Py.join sep (w' :: l1))%string.
    now rewrite !app_assoc_s.
Qed.

Lemma endswith_app (a b : string) : Py.endswith (a ++ b) b = true.
Proof.
  unfold Py.endswith. rewrite length_app_s. apply andb_true_iff. split.
  - apply Nat.leb_le. lia.
  - replace (String.length a + String.length b - String.length b)%nat
      with (String.length a) by lia.
    rewrite drop_chars_app. apply String.eqb_refl.
Qed.

Lemma endswith_refl (a : string) : Py.endswith a a = true.
Proof. exact (endswith_app EmptyString a). Qed.

Lemma join_suffix (sep : string) (l : list string) (k : nat) :
  skipn k l <> [] -> Py.endswith (Py.join sep l) (Py.join sep (skipn k l))
                     = true.
Proof.
  intros Hne. rewrite <- (firstn_skipn k l) at 1.
  destruct (firstn k l) as [|w ws] eqn:E.
  - apply endswith_refl.
  - rewrite join_app by (assumption || discriminate).
    rewrite <- app_assoc_s. apply endswith_app.
Qed.

(** The top-level label and the main domain as [_analyze_domain] and
    [enrich_domain_info] compute them. *)
Definition tld_of (domain : string) : string :=
  if Py.contains domain "." then List.last (Py.split "." domain) EmptyString
  else EmptyString.

Definition main_domain_of (domain : string) : string :=
  if Py.contains domain "."
  then Py.join "." (Py.last_n 2 (Py.split "." domain)) else domain.

Lemma last_skipn {A} (l : list A) (d : A) :
  l <> [] -> [List.last l d] = skipn (List.length l - 1) l.
Proof.
  intros Hne. destruct (exists_last Hne) as (l' & x & ->).
  rewrite last_last, length_app. cbn [List.length].
  replace (List.length l' + 1 - 1)%nat with (List.length l' + 0)%nat by lia.
  now rewrite skipn_app, Nat.add_0_r, skipn_all, Nat.sub_diag.
Qed.

Lemma tld_of_spec (domain : string) :
  Py.endswith domain (tld_of domain) = true
  /\ Py.contains (tld_of domain) "." = false.
Proof.
  unfold tld_of. destruct (Py.contains domain ".").
  - pose proof (split_nonempty "." domain) as Hne.
    pose proof (last_skipn (Py.split "." domain) EmptyString Hne) as Hl.
    split.
    + rewrite <- (join_split "." domain) at 1.
      change (List.last (Py.split "." domain) EmptyString)
        with (Py.join "." [List.last (Py.split "." domain) EmptyString]).
      rewrite Hl. apply join_suffix. rewrite <- Hl. discriminate.
    + apply (split_labels "." domain).
      apply list_elem_of_In.
      destruct (exists_last Hne) as (l' & x & Heq). rewrite Heq.
      rewrite last_last. apply in_or_app. right. now left.
  - split; [|reflexivity]. rewrite <- (app_nil_r_s domain) at 1.
    apply endswith_app.
Qed.

Lemma main_domain_of_spec (domain : string) :
  Py.endswith domain (main_domain_of domain) = true
  /\ ((2 <? List.length (Py.split "." domain))%nat = false ->
      main_domain_of domain = domain).
Proof.
  unfold main_domain_of, Py.last_n.
  destruct (Py.contains domain "."); [|split; [apply endswith_refl|easy]].
  pose proof (split_nonempty "." domain) as Hne.
  split.
  - rewrite <- (join_split "." domain) at 1. apply join_suffix.
    intros H. apply skipn_all_iff in H.
    destruct (Py.split "." domain); [congruence|]. cbn [List.length] in H.
    lia.
  - intros H. apply Nat.ltb_ge in H.
    replace (List.length (Py.split "." domain) - 2)%nat with 0%nat by lia.
    cbn [skipn]. apply join_split.
Qed.

(** For a non-empty domain [_analyze_domain] fills exactly the seven
    fields. The tier is "high", "medium" or "low"; the top-level label
    ends the domain and has no dot; the main domain ends the domain and
    is the whole domain when the domain is no subdomain; the length is
    the length of the domain. *)
Theorem analyze_domain_fields (domain : string) :
  domain <> EmptyString ->
  let info := _analyze_domain (Some domain) in
  dom info = list_to_set domain_info_keys
  /\ (exists tier, info !! "quality" = Some (Py.VStr tier)
                   /\ tier ∈ ["high"; "medium"; "low"])
  /\ (exists tld, info !! "tld" = Some (Py.VStr tld)
                  /\ Py.endswith domain tld = true
                  /\ Py.contains tld "." = false)
  /\ (exists main_domain is_subdomain,
        info !! "main_domain" = Some (Py.VStr main_domain)
        /\ info !! "is_subdomain" = Some (Py.VBool is_subdomain)
        /\ Py.endswith domain main_domain = true
        /\ (is_subdomain = false -> main_domain = domain))
  /\ info !! "length" = Some (Py.VInt (Z.of_nat (String.length domain))).
Proof.
  intros Hne. cbv zeta. unfold _analyze_domain.
  replace (ResultParser.is_empty domain) with false
    by (destruct domain; [congruence|reflexivity]).
  fold (tld_of domain). fold (main_domain_of domain).
  destruct (tld_of_spec domain) as [Ht1 Ht2].
  destruct (main_domain_of_spec domain) as [Hm1 Hm2].
  split; [|split; [|split; [|split]]].
  - rewrite !dom_insert_L, dom_empty_L. unfold domain_info_keys.
    cbn [list_to_set]. set_solver.
  - eexists. split; [apply lookup_insert_eq|].
    destruct (find _ quality_indicators) as [[tier exts]|] eqn:Hfind.
    + apply find_some in Hfind as [Hin _]. cbn in Hin.
      repeat (destruct Hin as [Hin|Hin];
              [injection Hin as <- <-;
               repeat first [apply list_elem_of_here
                            |apply list_elem_of_further]|]).
      contradiction.
    + apply list_elem_of_further, list_elem_of_here.
  - exists (tld_of domain). split; [|split; assumption].
    rewrite lookup_insert_ne by discriminate. apply lookup_insert_eq.
  - exists (main_domain_of domain),
      (2 <? List.length (Py.split "." domain))%nat.
    split; [|split; [|split; assumption]].
    + rewrite !lookup_insert_ne by discriminate. apply lookup_insert_eq.
    + rewrite !lookup_insert_ne by discriminate. apply lookup_insert_eq.
  - rewrite !lookup_insert_ne by discriminate. apply lookup_insert_eq.
Qed.

Lemma analyze_domain_fields_witness :
  _analyze_domain (Some "blog.example.edu") !! "length"
  = Some (Py.VInt 16).
Proof.
  destruct (analyze_domain_fields "blog.example.edu") as (_ & _ & _ & _ & H);
    [discriminate|exact H].
Defined.

(** The quality score of [enrich_domain_info] is between 0.3 and 0.8, so
    its clamp to [0, 1] never acts; the entry "domain" is the argument. *)
Theorem enrich_domain_info_quality (domain : string) :
  enrich_domain_info domain !! "domain" = Some (Py.VStr domain)
  /\ exists q, enrich_domain_info domain !! "quality_score"
               = Some (Py.VFloat q)
               /\ (0.3 <= q <= 0.8)%Q.
Proof.
  unfold enrich_domain_info. split.
  - rewrite !lookup_insert_ne by discriminate. apply lookup_insert_eq.
  - eexists. split.
    + rewrite !lookup_insert_ne by discriminate. apply lookup_insert_eq.
    + match goal with
      | |- (_ <= Py.max _ (Py.min _ ?q0) <= _)%Q =>
          assert (Hq : (0.3 <= q0 <= 0.8)%Q);
          [|pose proof (min_le_r 1.0 q0);
            pose proof (min_glb 0.3 1.0 q0 ltac:(lra) ltac:(lra));
            generalize dependent (Py.min 1.0 q0); intros m ? ?;
            unfold Py.max; destruct (Qlt_le_dec 0.0 m); lra]
      end.
      repeat match goal with
             | |- context [if ?b then _ else _] => destruct b
             end; lra.
Qed.

(** [enrich_domain_info] and [_analyze_domain] agree, for a non-empty
    domain, on the top-level label, the subdomain flag, the main domain,
    the length and the digit and hyphen flags. *)
Theorem enrich_domain_info_agrees (domain key : string) :
  domain <> EmptyString ->
  key ∈ ["tld"; "is_subdomain"; "main_domain"; "length"; "has_numbers";
         "has_hyphens"] ->
  enrich_domain_info domain !! key = _analyze_domain (Some domain) !! key.
Proof.
  intros Hne Hkey. unfold enrich_domain_info, _analyze_domain.
  replace (ResultParser.is_empty domain) with false
    by (destruct domain; [congruence|reflexivity]).
  cbv zeta.
  repeat (apply elem_of_cons in Hkey as [->|Hkey];
          [repeat first [rewrite lookup_insert_eq
                        |rewrite lookup_insert_ne by discriminate];
           reflexivity|]).
  now apply elem_of_nil in Hkey.
Qed.

Lemma enrich_domain_info_agrees_witness :
  enrich_domain_info "blog.example.edu" !! "main_domain"
  = _analyze_domain (Some "blog.example.edu") !! "main_domain".
Proof.
  apply enrich_domain_info_agrees; [discriminate|].
  apply list_elem_of_further, list_elem_of_further, list_elem_of_here.
Defined.

(** *** The results page *)

Section SerpFacts.

Variable netloc : string -> Py.except string.
Variable now : Z -> Z.
Variable mode : string.

Local Abbreviation parse_from keyword response_time :=
  (GoogleSERPCrawler.parse_containers netloc now mode keyword
     response_time).

Lemma parse_container_spec (keyword : string) (response_time : Q)
    (rank : Z) (c : GoogleSERPCrawler.container) (r : SearchResult.t) :
  GoogleSERPCrawler.parse_container netloc now mode keyword response_time
    rank c = Some r ->
  SearchResult.rank r = rank
  /\ GoogleSERPCrawler.title_elem c = Some (SearchResult.title r)
  /\ GoogleSERPCrawler.link_elem c = Some (Some (SearchResult.url r))
  /\ SearchResult.url r <> EmptyString
  /\ Py.startswith (SearchResult.url r) "/search" = false
  /\ Py.contains (SearchResult.url r) "google.com" = false
  /\ netloc (SearchResult.url r) = Py.Return (SearchResult.domain r)
  /\ SearchResult.response_time r = response_time
  /\ SearchResult.result_metadata r !! "keyword" = Some (Py.VStr keyword).
Proof.
  unfold GoogleSERPCrawler.parse_container.
  destruct (GoogleSERPCrawler.title_elem c) as [title|]; [|discriminate].
  destruct (GoogleSERPCrawler.link_elem c) as [link|]; [|discriminate].
  destruct (ResultParser.is_empty (default EmptyString link)
            || Py.startswith (default EmptyString link) "/search"
            || Py.contains (default EmptyString link) "google.com")
    eqn:Hskip; [discriminate|].
  apply orb_false_iff in Hskip as [Hskip Hg].
  apply orb_false_iff in Hskip as [He Hs].
  destruct (netloc (default EmptyString link)) as [domain|] eqn:Hn;
    [|discriminate].
  intros [= <-]. cbn.
  destruct link as [url|]; [|discriminate He]. cbn in *.
  repeat split; try assumption; try reflexivity.
  intros ->. discriminate He.
Qed.

Lemma parse_from_spec (keyword : string) (response_time : Q)
    (containers : list GoogleSERPCrawler.container) (rank : Z) :
  let results := parse_from keyword response_time rank containers in
  StronglySorted Z.lt (map SearchResult.rank results)
  /\ (List.length results <= List.length containers)%nat
  /\ forall r, r ∈ results ->
       (rank <= SearchResult.rank r
        < rank + Z.of_nat (List.length containers))%Z
       /\ exists c,
            containers !! Z.to_nat (SearchResult.rank r - rank) = Some c
            /\ GoogleSERPCrawler.parse_container netloc now mode keyword
                 response_time (SearchResult.rank r) c = Some r.
Proof.
  cbv zeta. revert rank.
  induction containers as [|c containers IH]; intros rank.
  - cbn. split; [constructor|]. split; [lia|].
    intros r Hr. now apply elem_of_nil in Hr.
  - cbn [GoogleSERPCrawler.parse_containers].
    destruct (IH (rank + 1)%Z) as (Hs & Hl & Hr).
    assert (Hshift : forall r,
              r ∈ parse_from keyword response_time (rank + 1)%Z containers ->
              (rank <= SearchResult.rank r
               < rank + Z.of_nat (List.length (c :: containers)))%Z
              /\ exists c',
                   (c :: containers)
                     !! Z.to_nat (SearchResult.rank r - rank) = Some c'
                   /\ GoogleSERPCrawler.parse_container netloc now mode
                        keyword response_time (SearchResult.rank r) c'
                      = Some r).
    { intros r Hin. destruct (Hr r Hin) as (Hrange & c' & Hc' & Hp).
      cbn [List.length]. split; [lia|]. exists c'. split; [|exact Hp].
      replace (Z.to_nat (SearchResult.rank r - rank))
        with (S (Z.to_nat (SearchResult.rank r - (rank + 1)))) by lia.
      exact Hc'. }
    destruct (GoogleSERPCrawler.parse_container netloc now mode keyword
                response_time rank c) as [r0|] eqn:Hp.
    + pose proof (parse_container_spec _ _ _ _ _ Hp) as (Hrank & _).
      split; [|split].
      * cbn [map]. constructor; [exact Hs|].
        apply Forall_forall. intros k Hk.
        apply list_elem_of_fmap in Hk as (r & -> & Hin).
        destruct (Hr r Hin) as (Hrange & _). lia.
      * cbn [List.length]. lia.
      * intros r Hin. apply elem_of_cons in Hin as [->|Hin];
          [|now apply Hshift].
        cbn [List.length]. split; [lia|]. exists c.
        rewrite Hrank, Z.sub_diag. split; [reflexivity|exact Hp].
    + split; [exact Hs|]. split; [cbn [List.length]; lia|exact Hshift].
Qed.

(** The results parsed from a results page come with strictly increasing
    ranks between 1 and the number of containers, the rank being the
    position of the container the result was read from; a result has a
    non-empty url that does not start with [/search] and does not contain
    [google.com], and carries the keyword in its metadata. *)
Theorem parse_google_results_spec
    (result_containers : list GoogleSERPCrawler.container)
    (keyword : string) (response_time : Q) :
  let results :=
    GoogleSERPCrawler._parse_google_results netloc now mode
      result_containers keyword response_time in
  StronglySorted Z.lt (map SearchResult.rank results)
  /\ (List.length results <= List.length result_containers)%nat
  /\ forall r, r ∈ results ->
       (1 <= SearchResult.rank r
        <= Z.of_nat (List.length result_containers))%Z
       /\ (exists c,
             result_containers !! Z.to_nat (SearchResult.rank r - 1)
             = Some c
             /\ GoogleSERPCrawler.title_elem c
                = Some (SearchResult.title r)
             /\ GoogleSERPCrawler.link_elem c
                = Some (Some (SearchResult.url r)))
       /\ SearchResult.url r <> EmptyString
       /\ Py.startswith (SearchResult.url r) "/search" = false
       /\ Py.contains (SearchResult.url r) "google.com" = false
       /\ SearchResult.result_metadata r !! "keyword"
          = Some (Py.VStr keyword).
Proof.
  cbv zeta. unfold GoogleSERPCrawler._parse_google_results.
  destruct (parse_from_spec keyword response_time result_containers 1)
    as (Hs & Hl & Hr).
  split; [exact Hs|]. split; [exact Hl|].
  intros r Hin. destruct (Hr r Hin) as (Hrange & c & Hc & Hp).
  apply parse_container_spec in Hp
    as (_ & Ht & Hlk & Hu & Hsearch & Hg & _ & _ & Hk).
  split; [lia|]. split; [now exists c|]. now repeat split.
Qed.

End SerpFacts.

(** *** Deduplication of raw results *)

Lemma serp_dedup_seen (results : list SearchResult.t) :
  fst (fold_left GoogleSERPCrawler.dedup_step results (∅, []))
  = list_to_set (map SearchResult.url results).
Proof.
  induction results as [|x pre IH] using rev_ind; [reflexivity|].
  rewrite fold_left_app. cbn [fold_left].
  destruct (fold_left GoogleSERPCrawler.dedup_step pre (∅, []))
    as [seen out].
  cbn [fst] in IH. subst seen. unfold GoogleSERPCrawler.dedup_step.
  rewrite map_app, list_to_set_app_L. cbn [map list_to_set].
  case_bool_decide as Hx; cbn [fst]; rewrite union_empty_r_L;
    [reflexivity|].
  apply set_eq. intros u. rewrite elem_of_union, elem_of_singleton.
  split; [tauto|]. intros [H| ->]; [exact H|].
  destruct (decide (SearchResult.url x
                    ∈ (list_to_set (map SearchResult.url pre)
                       : gset string))); tauto.
Qed.

Lemma serp_dedup_snoc (pre : list SearchResult.t) (x : SearchResult.t) :
  GoogleSERPCrawler.deduplicate_results (pre ++ [x])
  = GoogleSERPCrawler.deduplicate_results pre
      ++ (if bool_decide (SearchResult.url x ∈ map SearchResult.url pre)
          then [] else [x]).
Proof.
  unfold GoogleSERPCrawler.deduplicate_results.
  rewrite fold_left_app. cbn [fold_left].
  pose proof (serp_dedup_seen pre) as Hseen.
  destruct (fold_left GoogleSERPCrawler.dedup_step pre (∅, []))
    as [seen out].
  cbn [fst snd] in *. subst seen. unfold GoogleSERPCrawler.dedup_step.
  case_bool_decide as H1; case_bool_decide as H2; cbn [snd];
    rewrite ?app_nil_r; try reflexivity.
  - exfalso. apply H1. now apply elem_of_list_to_set.
  - exfalso. apply H2. now apply elem_of_list_to_set in H1.
Qed.

(** [GoogleSERPCrawler.deduplicate_results] drops exactly the results
    whose url is the url of an earlier result. The urls of the output are
    distinct and are the urls of the input; the output is a subsequence
    of the input, and deduplicating it again changes nothing. *)
Theorem serp_deduplicate_results_spec (results : list SearchResult.t) :
  let unique := GoogleSERPCrawler.deduplicate_results results in
  (forall pre x,
      GoogleSERPCrawler.deduplicate_results (pre ++ [x])
      = GoogleSERPCrawler.deduplicate_results pre
          ++ (if bool_decide (SearchResult.url x
                              ∈ map SearchResult.url pre)
              then [] else [x]))
  /\ NoDup (map SearchResult.url unique)
  /\ (forall url, url ∈ map SearchResult.url unique
                  <-> url ∈ map SearchResult.url results)
  /\ sublist unique results
  /\ GoogleSERPCrawler.deduplicate_results unique = unique.
Proof.
  cbv zeta. split; [exact serp_dedup_snoc|].
  assert (H : forall l,
             NoDup (map SearchResult.url
                      (GoogleSERPCrawler.deduplicate_results l))
             /\ (forall url,
                    url ∈ map SearchResult.url
                            (GoogleSERPCrawler.deduplicate_results l)
                    <-> url ∈ map SearchResult.url l)
             /\ sublist (GoogleSERPCrawler.deduplicate_results l) l).
  { induction l as [|x pre (Hnd & Hurls & Hsub)] using rev_ind.
    - split; [constructor|]. split; [reflexivity|constructor].
    - rewrite serp_dedup_snoc. case_bool_decide as Hx.
      + rewrite app_nil_r. split; [exact Hnd|]. split.
        * intros url. rewrite Hurls, map_app, elem_of_app. cbn [map].
          rewrite list_elem_of_singleton. split; [tauto|].
          intros [H| ->]; assumption.
        * now apply sublist_inserts_r.
      + rewrite !map_app. cbn [map]. split; [|split].
        * apply NoDup_app. split; [exact Hnd|].
          split; [|apply NoDup_singleton].
          intros u Hu Hu'. apply list_elem_of_singleton in Hu' as ->.
          now apply Hurls in Hu.
        * intros url. rewrite !elem_of_app, Hurls. reflexivity.
        * now apply sublist_app. }
  destruct (H results) as (Hnd & Hurls & Hsub).
  split; [exact Hnd|]. split; [exact Hurls|]. split; [exact Hsub|].
  generalize dependent (GoogleSERPCrawler.deduplicate_results results).
  intros l Hnd _ _. clear H.
  induction l as [|x pre IH] using rev_ind; [reflexivity|].
  rewrite map_app in Hnd. cbn [map] in Hnd.
  apply NoDup_app in Hnd as (Hnd & Hx & _).
  rewrite serp_dedup_snoc, IH by exact Hnd.
  rewrite bool_decide_eq_false_2; [reflexivity|].
  intros Hin. eapply Hx; [exact Hin|apply list_elem_of_here].
Qed.


(** *** Language detection *)

(** The indicators are looked up as substrings: a text in which "an",
    "are" or "was" occurs anywhere, in any case, also has the indicator
    "a" and is tagged "en". *)
Theorem detect_language_substrings (text : string) :
  Py.contains (Py.lower text) "an" = true
  \/ Py.contains (Py.lower text) "are" = true
  \/ Py.contains (Py.lower text) "was" = true ->
  _detect_language text = "en".
Proof.
  intros H.
  assert (Ha : Py.contains (Py.lower text) "a" = true).
  { destruct H as [H|[H|H]];
      (eapply contains_trans; [exact H|reflexivity]). }
  assert (Hne : ResultParser.is_empty text = false).
  { destruct text; [discriminate Ha|reflexivity]. }
  unfold _detect_language. rewrite Hne. cbn [List.filter].
  rewrite Ha.
  destruct H as [H|[H|H]]; rewrite H;
    repeat match goal with
           | |- context [if Py.contains ?t ?w then _ else _] =>
               destruct (Py.contains t w)
           end; reflexivity.
Qed.

Lemma detect_language_substrings_witness :
  _detect_language "Pan" = "en".
Proof.
  apply detect_language_substrings. left. vm_compute. reflexivity.
Defined.

(** *** Text normalization *)

(** Every character of a string passes a test. *)
Fixpoint all_chars (p : ascii -> bool) (s : string) : bool :=
  match s with
  | EmptyString => true
  | String c s' => p c && all_chars p s'
  end.

Lemma all_chars_app (p : ascii -> bool) (a b : string) :
  all_chars p (a ++ b) = all_chars p a && all_chars p b.
Proof.
  induction a as [|c a IH]; [reflexivity|].
  rewrite app_cons_s. cbn [all_chars]. now rewrite IH, andb_assoc.
Qed.

Lemma all_chars_contains (p : ascii -> bool) (s t : string) :
  Py.contains s t = true -> all_chars p s = true -> all_chars p t = true.
Proof.
  intros Hc Hs. apply contains_spec in Hc as (pre & post & ->).
  rewrite !all_chars_app in Hs.
  apply andb_true_iff in Hs as [_ Hs]. now apply andb_true_iff in Hs as [Hs _].
Qed.

Lemma all_chars_filter (q : ascii -> bool) (s : string) :
  all_chars q (string_filter q s) = true.
Proof.
  induction s as [|c s IH]; [reflexivity|]. cbn [string_filter].
  destruct (q c) eqn:E; [|exact IH]. cbn [all_chars]. now rewrite E.
Qed.

(** A substitution brings in no character that is neither in the text nor
    in the replacement. *)
Lemma sub_all_chars (p : ascii -> bool) (r : Re.regex) (repl s : string) :
  all_chars p repl = true -> all_chars p s = true ->
  all_chars p (Re.sub r repl s) = true.
Proof.
  intros Hrepl. unfold Re.sub. generalize (S (String.length s)) as fuel.
  generalize (@None ascii) as prev. intros prev fuel. revert prev s.
  induction fuel as [|fuel IH]; intros prev s Hs; cbn [Re.sub_from];
    [exact Hs|].
  destruct (Re.match_here r prev s) as [rest|] eqn:E.
  - apply match_here_suffix in E as (pre & Heq & _).
    assert (Hrest : all_chars p rest = true).
    { rewrite Heq, all_chars_app in Hs.
      now apply andb_true_iff in Hs as [_ Hs]. }
    destruct (String.length s - String.length rest)%nat.
    + destruct s as [|c s']; [exact Hrepl|].
      cbn [all_chars] in Hs. apply andb_true_iff in Hs as [Hc Hs'].
      rewrite all_chars_app, Hrepl. cbn [all_chars andb]. rewrite Hc.
      now apply IH.
    + rewrite all_chars_app, Hrepl. now apply IH.
  - destruct s as [|c s']; [reflexivity|].
    cbn [all_chars] in *. apply andb_true_iff in Hs as [Hc Hs'].
    rewrite Hc. now apply IH.
Qed.

(** The characters [_normalize_text] lets through. *)
Definition kept_char (c : ascii) : bool :=
  Py.is_word c || Py.is_space c || Re.one_of "-.,!?()" c
  || Ascii.eqb c dquote.

(** The normalized text has only word characters, whitespace and the
    punctuation [-.,!?()] and the double quote, and no whitespace at
    either end. *)
Theorem normalize_text_chars (text : string) :
  all_chars kept_char (_normalize_text text) = true
  /\ Py.strip (_normalize_text text) = _normalize_text text.
Proof.
  unfold _normalize_text. destruct (ResultParser.is_empty text);
    [split; reflexivity|].
  cbv zeta. split; [|apply strip_idem].
  eapply all_chars_contains; [apply strip_contains|].
  do 3 (apply sub_all_chars; [reflexivity|]).
  rewrite sub_class_empty.
  match goal with
  | |- all_chars _ (string_filter ?q ?s) = true =>
      pose proof (all_chars_filter q s) as H; revert H;
      generalize (string_filter q s)
  end.
  intros s. induction s as [|c s IH]; [reflexivity|].
  cbn [all_chars]. intros H. apply andb_true_iff in H as [Hc Hs].
  rewrite (IH Hs), andb_true_r. rewrite negb_involutive in Hc. exact Hc.
Qed.

(** *** The shape of a valid address *)

Lemma run_cls {A} (p : ascii -> bool) (prev : option ascii) (s : string)
    (k : option ascii -> string -> option A) (x : A) :
  Re.run (Re.Cls p) prev s k = Some x ->
  exists c rest, s = String c rest /\ p c = true /\ k (Some c) rest = Some x.
Proof.
  cbn [Re.run]. destruct s as [|c rest]; [discriminate|].
  destruct (p c) eqn:E; [|discriminate]. intros H. now exists c, rest.
Qed.

Lemma run_star_cls {A} (p : ascii -> bool) (prev : option ascii)
    (s : string) (k : option ascii -> string -> option A) (x : A) :
  Re.run (Re.Star (Re.Cls p)) prev s k = Some x ->
  exists prev' pre rest,
    s = (pre ++ rest)%string /\ all_chars p pre = true
    /\ k prev' rest = Some x.
Proof.
  cbn [Re.run]. generalize (String.length s) at 1. intros fuel.
  revert prev s. induction fuel as [|fuel IH]; intros prev s H.
  - now exists prev, EmptyString, s.
  - destruct s as [|c s'].
    + now exists prev, EmptyString, EmptyString.
    + destruct (p c) eqn:Hc; [|now exists prev, EmptyString, (String c s')].
      destruct (String.length s' <? String.length (String c s'))%nat;
        [|now exists prev, EmptyString, (String c s')].
      match type of H with
      | match ?m with _ => _ end = _ => destruct m eqn:E
      end.
      * injection H as ->.
        apply IH in E as (prev' & pre & rest & -> & Hpre & Hk).
        exists prev', (String c pre), rest.
        cbn [all_chars]. now rewrite Hc, Hpre.
      * now exists prev, EmptyString, (String c s').
Qed.

Lemma run_plus_cls {A} (p : ascii -> bool) (prev : option ascii)
    (s : string) (k : option ascii -> string -> option A) (x : A) :
  Re.run (Re.plus (Re.Cls p)) prev s k = Some x ->
  exists prev' pre rest,
    s = (pre ++ rest)%string /\ pre <> EmptyString
    /\ all_chars p pre = true /\ k prev' rest = Some x.
Proof.
  unfold Re.plus. intros H. run_seq H.
  apply run_cls in H as (c & s' & -> & Hc & H).
  apply run_star_cls in H as (prev' & pre & rest & -> & Hpre & Hk).
  exists prev', (String c pre), rest. cbn [all_chars].
  rewrite Hc, Hpre. now repeat split.
Qed.

(** The classes of the strict format check. *)
Definition local_char (c : ascii) : bool := alnum c || Re.one_of "._%+-" c.
Definition domain_char (c : ascii) : bool := alnum c || Re.one_of ".-" c.

Definition newline : string := String (ascii_of_nat 10) EmptyString.

(** A valid address is [local@domain.tld]: a non-empty local part of
    letters, digits and [._%+-], a non-empty domain of letters, digits,
    dots and hyphens, and at least two letters after a dot; a newline may
    follow. No spam indicator occurs in it. *)
Theorem is_valid_email_shape (email : string) :
  _is_valid_email email = true ->
  (exists local domain tld tail,
      email = (local ++ "@" ++ domain ++ "." ++ tld ++ tail)%string
      /\ local <> EmptyString /\ all_chars local_char local = true
      /\ domain <> EmptyString /\ all_chars domain_char domain = true
      /\ (2 <= String.length tld)%nat /\ all_chars Py.is_alpha tld = true
      /\ (tail = EmptyString \/ tail = newline))
  /\ forall indicator, indicator ∈ spam_indicators ->
                       Py.contains (Py.lower email) indicator = false.
Proof.
  unfold _is_valid_email.
  destruct (ContactExtractor.is_empty email
            || negb (Py.contains email "@")); [discriminate|].
  destruct (Py.any (Py.contains (Py.lower email)) spam_indicators)
    eqn:Hspam; [discriminate|].
  match goal with
  | |- (if negb ?m then _ else _) = _ -> _ => destruct m eqn:Hm
  end; [|discriminate].
  intros _. split.
  - apply bool_decide_eq_true in Hm as [x Hx].
    unfold Re.match_here in Hx. cbn [Re.seqs] in Hx.
    run_seq Hx. cbn [Re.run] in Hx.
    change (Re.run (Re.Seq ?a ?b) None ?s ?k)
      with (Re.run a None s (fun p' s' => Re.run b p' s' k)) in Hx.
    apply run_plus_cls in Hx as (p1 & local & r1 & -> & Hl1 & Hl2 & Hx).
    run_seq Hx. apply run_chr in Hx as (r2 & -> & Hx).
    run_seq Hx.
    apply run_plus_cls in Hx as (p2 & domain & r3 & -> & Hd1 & Hd2 & Hx).
    run_seq Hx. apply run_chr in Hx as (r4 & -> & Hx).
    run_seq Hx. unfold Re.at_least in Hx. run_seq Hx.
    cbn [Re.exactly] in Hx. run_seq Hx.
    apply run_cls in Hx as (c1 & r5 & -> & Hc1 & Hx).
    apply run_cls in Hx as (c2 & r6 & -> & Hc2 & Hx).
    apply run_star_cls in Hx as (p3 & t & tail & -> & Ht & Hx).
    cbn [Re.run] in Hx.
    destruct (Re.at_end tail) eqn:Hend; [|discriminate].
    exists local, domain, (String c1 (String c2 t)), tail.
    split; [reflexivity|].
    repeat split; try assumption.
    + cbn [String.length]. lia.
    + cbn [all_chars]. now rewrite Hc1, Hc2, Ht.
    + destruct tail as [|c tail]; [now left|right].
      destruct tail; [|discriminate Hend]. cbn in Hend.
      apply Ascii.eqb_eq in Hend as ->. reflexivity.
  - intros indicator Hin. apply not_true_is_false. intros Hc.
    assert (Py.any (Py.contains (Py.lower email)) spam_indicators = true);
      [|congruence].
    apply existsb_exists. exists indicator.
    split; [now apply list_elem_of_In|exact Hc].
Qed.

Lemma is_valid_email_shape_witness :
  Py.contains (Py.lower "user@site.org") "noreply" = false.
Proof.
  apply (is_valid_email_shape "user@site.org").
  - vm_compute. reflexivity.
  - apply list_elem_of_here.
Defined.


Lemma extract_phone_numbers_sound_witness :
  Py.contains "Fax: 555-123-4567" "555-123-4567" = true.
Proof.
  apply (extract_phone_numbers_sound "Fax: 555-123-4567" "555-123-4567").
  replace (_extract_phone_numbers "Fax: 555-123-4567")
    with ["555-123-4567"] by (vm_compute; reflexivity).
  apply list_elem_of_singleton. reflexivity.
Defined.

(** *** The page fetcher *)

Section FetcherFacts.

Variable BeautifulSoup : string -> list anchor.
Variable urljoin : string -> string -> Py.except string.
Variable parse_html : string -> Py.except (option string * string).
Variable now : Z.
Variable get : string -> nat -> PageFetcher.get_outcome.
Variable max_retries : Z.

Local Abbreviation parse := (PageFetcher._parse_page_content parse_html now).
Local Abbreviation fetch :=
  (PageFetcher.fetch_page parse_html now get max_retries).
Local Abbreviation attempts := (PageFetcher.attempts parse_html now get).
Local Abbreviation retries_or_default :=
  (PageFetcher.retries_or_default max_retries).

(** The content type of a response names HTML. *)
Definition is_html (r : PageFetcher.response) : bool :=
  Py.contains
    (Py.lower (PageFetcher.header_get "content-type" (PageFetcher.headers r)))
    "text/html".

(** An attempt after which the loop of [fetch_page] goes on: a request
    error, or a response of which no page is made. *)
Definition no_page (url : string) (outcome : PageFetcher.get_outcome)
  : Prop :=
  match outcome with
  | PageFetcher.Responded r response_time => parse r url response_time = None
  | PageFetcher.OtherException => False
  | _ => True
  end.

Lemma parse_page_content_some (r : PageFetcher.response) (url : string)
    (response_time : Q) (page : PageContent.t) :
  parse r url response_time = Some page ->
  (PageFetcher.status_code r < 400)%Z
  /\ is_html r = true
  /\ (exists title_elem content,
         parse_html (PageFetcher.text r) = Py.Return (title_elem, content)
         /\ PageContent.content page = PageFetcher.clean_text content)
  /\ PageContent.url page = url
  /\ PageContent.html page = PageFetcher.text r
  /\ PageContent.status_code page = PageFetcher.status_code r
  /\ PageContent.error page = None.
Proof.
  unfold PageFetcher._parse_page_content, is_html. cbv zeta.
  destruct (400 <=? PageFetcher.status_code r)%Z eqn:Hs; [discriminate|].
  apply Z.leb_gt in Hs.
  destruct (Py.contains _ "text/html"); [|discriminate]. cbn [negb].
  destruct (parse_html (PageFetcher.text r)) as [[title_elem content]|e];
    [|discriminate].
  intros [= <-]. cbn.
  split; [exact Hs|]. split; [reflexivity|].
  split; [now exists title_elem, content|]. now repeat split.
Qed.

Lemma parse_page_content_none (r : PageFetcher.response) (url : string)
    (response_time : Q) :
  parse r url response_time = None
  <-> (400 <= PageFetcher.status_code r)%Z
      \/ is_html r = false
      \/ exists e, parse_html (PageFetcher.text r) = Py.Raise e.
Proof.
  unfold PageFetcher._parse_page_content, is_html. cbv zeta.
  destruct (400 <=? PageFetcher.status_code r)%Z eqn:Hs.
  - apply Z.leb_le in Hs. tauto.
  - apply Z.leb_gt in Hs.
    destruct (Py.contains _ "text/html"); cbn [negb]; [|tauto].
    destruct (parse_html (PageFetcher.text r)) as [[title_elem content]|e].
    + split; [discriminate|]. intros [H|[H|[e H]]]; [lia|discriminate..].
    + split; [|reflexivity]. intros _. right. right. now exists e.
Qed.

Lemma attempts_first (url : string) (r : PageFetcher.response)
    (response_time : Q) (page : PageContent.t) (k : nat) :
  forall start n : nat,
    (k < n)%nat ->
    (forall j, (j < k)%nat -> no_page url (get url (start + j))) ->
    get url (start + k) = PageFetcher.Responded r response_time ->
    parse r url response_time = Some page ->
    attempts url start n = Some page.
Proof.
  induction k as [|k IH]; intros start n Hk Hno Hget Hparse;
    (destruct n as [|n]; [lia|]); cbn [PageFetcher.attempts].
  - rewrite Nat.add_0_r in Hget. now rewrite Hget, Hparse.
  - assert (Hnext : attempts url (S start) n = Some page).
    { apply IH; [lia| |now rewrite Nat.add_succ_comm|exact Hparse].
      intros j Hj. rewrite Nat.add_succ_comm. apply Hno. lia. }
    pose proof (Hno 0%nat ltac:(lia)) as H0. rewrite Nat.add_0_r in H0.
    destruct (get url start) as [r0 t0| | | |]; cbn [no_page] in H0;
      [now rewrite H0|exact Hnext..|contradiction].
Qed.

Lemma attempts_some (url : string) (page : PageContent.t) :
  forall n start : nat,
    attempts url start n = Some page ->
    exists k r response_time,
      (k < n)%nat
      /\ get url (start + k) = PageFetcher.Responded r response_time
      /\ parse r url response_time = Some page
      /\ forall j, (j < k)%nat -> no_page url (get url (start + j)).
Proof.
  induction n as [|n IH]; intros start; cbn [PageFetcher.attempts];
    [discriminate|].
  assert (Hnext : no_page url (get url start) ->
                  attempts url (S start) n = Some page ->
                  exists k r response_time,
                    (k < S n)%nat
                    /\ get url (start + k)
                       = PageFetcher.Responded r response_time
                    /\ parse r url response_time = Some page
                    /\ forall j, (j < k)%nat ->
                                 no_page url (get url (start + j))).
  { intros H0 H. apply IH in H as (k & r & t & Hk & Hget & Hparse & Hno).
    exists (S k), r, t. split; [lia|].
    split; [now rewrite <- Nat.add_succ_comm|]. split; [exact Hparse|].
    intros [|j] Hj; [now rewrite Nat.add_0_r|].
    rewrite <- Nat.add_succ_comm. apply Hno. lia. }
  destruct (get url start) as [r0 t0| | | |] eqn:Hget;
    [|now apply Hnext..|discriminate].
  destruct (parse r0 url t0) as [page0|] eqn:Hparse;
    [|apply Hnext; exact Hparse].
  intros [= ->]. exists 0%nat, r0, t0. split; [lia|].
  split; [now rewrite Nat.add_0_r|]. split; [exact Hparse|]. lia.
Qed.

Lemma fetch_page_cases (url : string) (retries : option Z) :
  fetch url retries = PageFetcher.failed_page now url
  \/ exists attempt r response_time,
       (Z.of_nat attempt <= retries_or_default retries)%Z
       /\ get url attempt = PageFetcher.Responded r response_time
       /\ parse r url response_time = Some (fetch url retries)
       /\ forall earlier, (earlier < attempt)%nat ->
                          no_page url (get url earlier).
Proof.
  unfold PageFetcher.fetch_page.
  destruct (attempts url 0 _) as [page|] eqn:Ha; [right|now left].
  apply attempts_some in Ha as (k & r & t & Hk & Hget & Hparse & Hno).
  exists k, r, t. cbn [Nat.add] in *.
  split; [lia|]. split; [exact Hget|]. split; [exact Hparse|exact Hno].
Qed.

(** [fetch_page] always returns a page. It is the page of failure, with
    status code 0 and an error message, or it is made of the response of
    one attempt: the first that gives a page, every attempt before having
    ended in a request error or in a response of which no page is made.
    That attempt is not beyond the number of retries, the response has a
    status code below 400 and an HTML content type, and the page carries
    its status code and body and no error. A number of retries of 0
    counts as none given: the configured number is used. *)
Theorem fetch_page_result (url : string) (retries : option Z) :
  let page := fetch url retries in
  fetch url (Some 0%Z) = fetch url None
  /\ (page = PageFetcher.failed_page now url
      \/ exists attempt r response_time,
           (Z.of_nat attempt <= retries_or_default retries)%Z
           /\ get url attempt = PageFetcher.Responded r response_time
           /\ (forall earlier, (earlier < attempt)%nat ->
                               no_page url (get url earlier))
           /\ (PageFetcher.status_code r < 400)%Z
           /\ is_html r = true
           /\ PageContent.url page = url
           /\ PageContent.html page = PageFetcher.text r
           /\ PageContent.status_code page = PageFetcher.status_code r
           /\ PageContent.response_time page = response_time
           /\ PageContent.error page = None).
Proof.
  cbv zeta. split; [reflexivity|].
  destruct (fetch_page_cases url retries)
    as [Hf|(k & r & t & Hk & Hget & Hparse & Hno)]; [now left|right].
  exists k, r, t.
  split; [exact Hk|]. split; [exact Hget|]. split; [exact Hno|].
  pose proof Hparse as Hp.
  apply parse_page_content_some in Hp
    as (Hs & Hh & _ & Hu & Hb & Hc & He).
  repeat (split; [assumption|]).
  split; [|exact He].
  unfold PageFetcher._parse_page_content in Hparse. cbv zeta in Hparse.
  destruct (400 <=? PageFetcher.status_code r)%Z; [discriminate|].
  destruct (negb _); [discriminate|].
  destruct (parse_html (PageFetcher.text r)) as [[title_elem content]|e];
    [|discriminate].
  injection Hparse as Hparse. now rewrite <- Hparse.
Qed.

(** The retries work: when an attempt within the number of retries gets a
    response of which a page is made, and every attempt before it ended
    in a timeout, a connection error, another request error or a response
    of which no page is made, [fetch_page] returns that page. *)
Theorem fetch_page_first_page (url : string) (retries : option Z)
    (attempt : nat) (r : PageFetcher.response) (response_time : Q)
    (page : PageContent.t) :
  (Z.of_nat attempt <= retries_or_default retries)%Z ->
  (forall earlier, (earlier < attempt)%nat ->
                   no_page url (get url earlier)) ->
  get url attempt = PageFetcher.Responded r response_time ->
  parse r url response_time = Some page ->
  fetch url retries = page.
Proof.
  intros Hk Hno Hget Hparse. unfold PageFetcher.fetch_page.
  rewrite (attempts_first url r response_time page attempt);
    [reflexivity|lia|exact Hno|exact Hget|exact Hparse].
Qed.

(** The fetcher as [extract_contacts_from_domain] calls it: with the url
    alone. *)
Definition page_fetcher (url : string) : Py.except (option PageContent.t) :=
  Py.Return (Some (fetch url None)).

(** The domain crawl run on the fetcher, when the candidate urls can be
    built. A candidate url is a source url exactly when the first attempt
    that gives a page, within the configured retries, got a response with
    status 200, and [extract_contacts_from_page] returns on the page made
    of it: of a url fetched with another status below 400, of a page on
    which the extraction raises, and of a url not fetched at all, nothing
    is kept. *)
Theorem domain_crawl_sources (domain : string) (max_pages : Z) :
  match urls_to_check urljoin domain max_pages with
  | Py.Raise e =>
      extract_contacts_from_domain BeautifulSoup urljoin page_fetcher
        domain max_pages
      = Py.Raise e
  | Py.Return urls =>
      exists info,
        extract_contacts_from_domain BeautifulSoup urljoin page_fetcher
          domain max_pages
        = Py.Return info
        /\ forall url,
             url ∈ ContactInfo.source_urls info
             <-> url ∈ urls
                 /\ exists attempt r response_time page contact_info,
                      (Z.of_nat attempt <= max_retries)%Z
                      /\ get url attempt
                         = PageFetcher.Responded r response_time
                      /\ (forall earlier, (earlier < attempt)%nat ->
                                          no_page url (get url earlier))
                      /\ PageFetcher.status_code r = 200%Z
                      /\ is_html r = true
                      /\ parse r url response_time = Some page
                      /\ extract_contacts_from_page BeautifulSoup urljoin
                           (Some page)
                         = Py.Return contact_info
  end.
Proof.
  unfold extract_contacts_from_domain.
  destruct (urls_to_check urljoin domain max_pages) as [urls|e];
    [|reflexivity].
  cbn [Py.bind]. eexists. split; [reflexivity|]. intros url.
  unfold crawl_urls. cbn [ContactInfo.source_urls].
  rewrite crawl_fold_spec.
  destruct (merge_fold_scalars
              (processed_pages BeautifulSoup urljoin page_fetcher urls)
              crawl_init)
    as (Hs & _).
  cbv zeta in Hs. rewrite Hs. cbn [crawl_init source_urls app].
  rewrite processed_pages_urls. apply and_iff_compat_l.
  unfold page_fetcher. split.
  - intros (page & info & [= <-] & H200 & Hext).
    destruct (fetch_page_cases url None) as [Hf|Hf].
    + rewrite Hf in H200. discriminate H200.
    + destruct Hf as (k & r & t & Hk & Hget & Hparse & Hno).
      exists k, r, t, (fetch url None), info.
      split; [exact Hk|]. split; [exact Hget|]. split; [exact Hno|].
      pose proof Hparse as Hp.
      apply parse_page_content_some in Hp
        as (_ & Hh & _ & _ & _ & Hc & _).
      split; [now rewrite <- Hc|]. split; [exact Hh|].
      split; [exact Hparse|exact Hext].
  - intros (k & r & t & page & info & Hk & Hget & Hno & H200 & Hh
            & Hparse & Hext).
    assert (Hfetch : fetch url None = page).
    { unfold PageFetcher.fetch_page.
      rewrite (attempts_first url r t page k);
        [reflexivity|cbn; lia|exact Hno|exact Hget|exact Hparse]. }
    exists page, info. split; [now rewrite Hfetch|].
    split; [|exact Hext].
    apply parse_page_content_some in Hparse
      as (_ & _ & _ & _ & _ & Hc & _).
    now rewrite Hc.
Qed.

End FetcherFacts.

(** A server that times out once and then answers with a page of HTML,
    and a parser that finds no title and gives the markup as the text. *)
Definition html_response : PageFetcher.response :=
  {| PageFetcher.status_code := 200;
     PageFetcher.headers :=
       {[ "content-type" := ("Content-Type", "text/html; charset=utf-8") ]};
     PageFetcher.text := "<p>Contact us</p>" |}.

Definition answers_second (url : string) (attempt : nat)
  : PageFetcher.get_outcome :=
  match attempt with
  | O => PageFetcher.Timeout
  | S _ => PageFetcher.Responded html_response 1
  end.

Definition markup_as_text (html : string)
  : Py.except (option string * string) :=
  Py.Return (None, html).

Lemma fetch_page_first_page_witness :
  PageContent.status_code
    (PageFetcher.fetch_page markup_as_text 0 answers_second 3
       "https://example.org" None)
  = 200%Z.
Proof.
  destruct (PageFetcher._parse_page_content markup_as_text 0 html_response
              "https://example.org" 1) as [page|] eqn:Hparse;
    [|vm_compute in Hparse; discriminate Hparse].
  rewrite (fetch_page_first_page markup_as_text 0 answers_second 3
             "https://example.org" None 1 html_response 1 page).
  - vm_compute in Hparse. injection Hparse as <-. reflexivity.
  - cbn. lia.
  - intros [|earlier] H; [exact I|lia].
  - reflexivity.
  - exact Hparse.
Defined.

(** *** The text of a page *)

Lemma splitlines_from_chars (s : string) :
  forall after_cr,
    Forall (fun line =>
              all_chars (fun c => negb (PageFetcher.is_linebreak c)) line
              = true)
           (PageFetcher.splitlines_from after_cr s).
Proof.
  induction s as [|c s IH]; intros after_cr;
    cbn [PageFetcher.splitlines_from]; [constructor|].
  destruct (after_cr && Ascii.eqb c (ascii_of_nat 10)); [apply IH|].
  destruct (PageFetcher.is_linebreak c) eqn:Hc.
  - constructor; [reflexivity|apply IH].
  - specialize (IH false).
    destruct (PageFetcher.splitlines_from false s) as [|line lines].
    + constructor; [|constructor]. cbn [all_chars]. now rewrite Hc.
    + inversion IH as [|? ? Hline Hlines]; subst.
      constructor; [|exact Hlines]. cbn [all_chars]. now rewrite Hc, Hline.
Qed.

Lemma split_spaces_from_chars (p : ascii -> bool) (s : string) :
  forall skip,
    all_chars p s = true ->
    Forall (fun piece => all_chars p piece = true)
           (PageFetcher.split_spaces_from skip s).
Proof.
  induction s as [|c s IH]; intros skip Hs;
    cbn [PageFetcher.split_spaces_from].
  - constructor; [reflexivity|constructor].
  - cbn [all_chars] in Hs. apply andb_true_iff in Hs as [Hc Hs].
    destruct skip; [now apply IH|].
    destruct (Ascii.eqb c " " && Py.startswith s " ").
    + constructor; [reflexivity|now apply IH].
    + specialize (IH false Hs).
      destruct (PageFetcher.split_spaces_from false s) as [|piece pieces].
      * constructor; [|constructor]. cbn [all_chars]. now rewrite Hc.
      * inversion IH as [|? ? Hpiece Hpieces]; subst.
        constructor; [|exact Hpieces]. cbn [all_chars].
        now rewrite Hc, Hpiece.
Qed.

Lemma first_piece_space (s piece : string) (pieces : list string) :
  PageFetcher.split_spaces_from false s = piece :: pieces ->
  Py.startswith piece " " = true -> Py.startswith s " " = true.
Proof.
  destruct s as [|c s]; cbn [PageFetcher.split_spaces_from].
  - intros [= <- _]. discriminate.
  - destruct (Ascii.eqb c " " && Py.startswith s " ").
    + intros [= <- _]. discriminate.
    + destruct (PageFetcher.split_spaces_from false s);
        intros [= <- _]; cbn [Py.startswith]; now rewrite !andb_true_r.
Qed.

Lemma split_spaces_from_single (s : string) :
  forall skip,
    Forall (fun piece => Py.contains piece "  " = false)
           (PageFetcher.split_spaces_from skip s).
Proof.
  induction s as [|c s IH]; intros skip;
    cbn [PageFetcher.split_spaces_from].
  - constructor; [reflexivity|constructor].
  - destruct skip; [apply IH|].
    destruct (Ascii.eqb c " " && Py.startswith s " ") eqn:Hcs.
    + constructor; [reflexivity|apply IH].
    + pose proof (first_piece_space s) as Hfirst. specialize (IH false).
      destruct (PageFetcher.split_spaces_from false s) as [|piece pieces].
      * constructor; [|constructor]. cbn [Py.contains Py.startswith].
        destruct (Ascii.eqb " " c); reflexivity.
      * inversion IH as [|? ? Hpiece Hpieces]; subst.
        constructor; [|exact Hpieces].
        cbn [Py.contains]. rewrite Hpiece, orb_false_r.
        change (Py.startswith (String c piece) "  ")
          with (Ascii.eqb " " c && Py.startswith piece " ").
        apply andb_false_iff in Hcs as [Hc|Hs].
        -- now rewrite Ascii.eqb_sym, Hc.
        -- destruct (Py.startswith piece " ") eqn:Hp;
             [|now rewrite andb_false_r].
           rewrite (Hfirst piece pieces eq_refl Hp) in Hs. discriminate.
Qed.

Lemma strip_no_leading_space (s : string) : no_leading_space (Py.strip s).
Proof. apply rstrip_no_leading_space, lstrip_no_leading_space. Qed.

Lemma strip_fixed (s : string) :
  Py.strip s = s -> Py.lstrip s = s /\ Py.rstrip s = s.
Proof.
  intros H. assert (Hl : Py.lstrip s = s).
  { apply lstrip_id. rewrite <- H. apply strip_no_leading_space. }
  split; [exact Hl|]. unfold Py.strip in H. now rewrite Hl in H.
Qed.

Lemma rstrip_app (a b : string) :
  Py.rstrip b <> EmptyString ->
  Py.rstrip (a ++ b) = (a ++ Py.rstrip b)%string.
Proof.
  intros Hb. induction a as [|c a IH]; [reflexivity|].
  rewrite !app_cons_s. cbn [Py.rstrip]. rewrite IH.
  destruct (a ++ Py.rstrip b)%string eqn:E; [|reflexivity].
  destruct a; [|discriminate E]. rewrite app_nil_l_s in E. contradiction.
Qed.

Lemma contains_joint (w rest : string) :
  w <> EmptyString -> Py.rstrip w = w -> Py.contains w "  " = false ->
  no_leading_space rest -> Py.contains rest "  " = false ->
  Py.contains (w ++ " " ++ rest) "  " = false.
Proof.
  intros Hne Hw Hc Hrest Hcrest. induction w as [|c w IH]; [contradiction|].
  destruct w as [|d w].
  - cbn [Py.rstrip] in Hw.
    destruct (Py.is_space c) eqn:Hs; [discriminate Hw|].
    assert (Hcs : Ascii.eqb " " c = false).
    { destruct (Ascii.eqb " " c) eqn:E; [|reflexivity].
      apply Ascii.eqb_eq in E as <-. discriminate Hs. }
    rewrite app_cons_s, app_nil_l_s, app_cons_s, app_nil_l_s.
    cbn [Py.contains Py.startswith]. rewrite Hcs, Hcrest.
    destruct rest as [|e rest]; [reflexivity|].
    cbn [no_leading_space] in Hrest. cbn [Py.startswith].
    destruct (Ascii.eqb " " e) eqn:E; [|reflexivity].
    apply Ascii.eqb_eq in E as <-. discriminate Hrest.
  - assert (Hw' : Py.rstrip (String d w) = String d w).
    { cbn [Py.rstrip] in Hw |- *.
      destruct (Py.rstrip w) eqn:E.
      - destruct (Py.is_space d); [|now injection Hw as <-].
        destruct (Py.is_space c); discriminate Hw.
      - now injection Hw as <-. }
    cbn [Py.contains] in Hc. apply orb_false_iff in Hc as [Hc1 Hc2].
    rewrite app_cons_s. cbn [Py.contains].
    rewrite (IH ltac:(discriminate) Hw' Hc2), orb_false_r.
    rewrite app_cons_s. cbn [Py.startswith] in Hc1 |- *. exact Hc1.
Qed.

(** What the clean-up keeps of a stripped piece. *)
Definition chunk_ok (chunk : string) : Prop :=
  chunk <> EmptyString
  /\ Py.strip chunk = chunk
  /\ Py.contains chunk "  " = false
  /\ all_chars (fun c => negb (PageFetcher.is_linebreak c)) chunk = true.

Lemma join_chunks (chunks : list string) :
  Forall chunk_ok chunks ->
  chunks <> [] -> chunk_ok (Py.join " " chunks).
Proof.
  induction chunks as [|w chunks IH]; intros Hall Hne; [contradiction|].
  inversion Hall as [|? ? Hw Hchunks]; subst.
  destruct chunks as [|w2 chunks]; [exact Hw|].
  change (Py.join " " (w :: w2 :: chunks))
    with (w ++ " " ++ Py.join " " (w2 :: chunks))%string.
  specialize (IH Hchunks ltac:(discriminate)).
  set (rest := Py.join " " (w2 :: chunks)) in *.
  destruct Hw as (Hw1 & Hw2 & Hw3 & Hw4).
  destruct IH as (Hr1 & Hr2 & Hr3 & Hr4).
  destruct (strip_fixed w Hw2) as [Hwl Hwr].
  destruct (strip_fixed rest Hr2) as [Hrl Hrr].
  assert (Hrn : no_leading_space rest)
    by (rewrite <- Hr2; apply strip_no_leading_space).
  assert (Hwn : no_leading_space w)
    by (rewrite <- Hw2; apply strip_no_leading_space).
  split; [destruct w; [contradiction|discriminate]|].
  split; [|split].
  - unfold Py.strip. rewrite lstrip_id.
    + assert (Hsp : Py.rstrip (" " ++ rest) = (" " ++ rest)%string).
      { rewrite rstrip_app by (rewrite Hrr; exact Hr1). now rewrite Hrr. }
      rewrite rstrip_app by (rewrite Hsp, app_cons_s; discriminate).
      now rewrite Hsp.
    + destruct w; [contradiction|exact Hwn].
  - now apply contains_joint.
  - rewrite !all_chars_app, Hw4, Hr4. reflexivity.
Qed.

(** The text kept of a page is one line, without white space at either
    end and without two spaces in a row, whatever the text of the
    document. *)
Theorem clean_text_spec (content : string) :
  let cleaned := PageFetcher.clean_text content in
  all_chars (fun c => negb (PageFetcher.is_linebreak c)) cleaned = true
  /\ Py.strip cleaned = cleaned
  /\ Py.contains cleaned "  " = false.
Proof.
  cbv zeta. unfold PageFetcher.clean_text.
  set (chunks := List.filter _ _).
  assert (Hall : Forall chunk_ok chunks).
  { apply List.Forall_forall. intros chunk Hin. subst chunks.
    apply filter_In in Hin as [Hin Hne].
    apply in_map_iff in Hin as (piece & <- & Hin).
    apply in_flat_map in Hin as (line & Hline & Hin).
    apply in_map_iff in Hline as (raw & <- & Hraw).
    pose proof (splitlines_from_chars content false) as Hraws.
    rewrite List.Forall_forall in Hraws. specialize (Hraws raw Hraw).
    assert (Hl : all_chars (fun c => negb (PageFetcher.is_linebreak c))
                   (Py.strip raw) = true)
      by (eapply all_chars_contains; [apply strip_contains|exact Hraws]).
    pose proof (split_spaces_from_chars _ (Py.strip raw) false Hl) as Hp.
    pose proof (split_spaces_from_single (Py.strip raw) false) as Hs.
    rewrite List.Forall_forall in Hp, Hs.
    specialize (Hp piece Hin). specialize (Hs piece Hin). cbv beta in Hp, Hs.
    split; [|split; [|split]].
    - intros E. rewrite E in Hne. discriminate Hne.
    - apply strip_idem.
    - destruct (Py.contains (Py.strip piece) "  ") eqn:E; [|reflexivity].
      rewrite <- Hs. symmetry.
      eapply contains_trans; [apply strip_contains|exact E].
    - eapply all_chars_contains; [apply strip_contains|exact Hp]. }
  destruct chunks as [|chunk chunks'] eqn:E.
  - repeat split; reflexivity.
  - destruct (join_chunks (chunk :: chunks') Hall ltac:(discriminate))
      as (_ & H1 & H2 & H3).
    split; [exact H3|]. split; [exact H1|exact H2].
Qed.
